(** * Config-control-service: validation, versioned store and template rendering

    A shallow embedding of the decision logic of the service:
    - [config_service/validation/schemas.py] and [validators.py],
    - [config_service/db/connection.py] and [db/models.py],
    - [config_service/templates/renderer.py],
    - [config_service/api/handlers.py].

    The third-party libraries the code calls ([schema], [json], [jinja2]) are
    modelled by small interpreters for the fragment the service uses; the
    YAML loader and the relational backend are collaborators and appear as a
    section variable and as an explicit table state. *)

Set Warnings "-register-all".
From stdpp Require Import base gmap strings.
From Stdlib Require Import ZArith List String Ascii Bool Lia.
From Stdlib Require Import Sorted DecimalString DecimalZ.
Import ListNotations.

Local Open Scope string_scope.
Local Open Scope Z_scope.
Local Open Scope list_scope.

#[local] Arguments String.append !s1 s2 : simpl nomatch.

(** ** Python values

    A Python [str] is carried as the byte string of its UTF-8 encoding; the
    markers and delimiters the code looks for are ASCII, so searching the
    bytes and searching the code points agree.  A [float] is carried by the
    text [float.__repr__] prints for it: the code only ever tests a float's
    type and prints it. *)

Inductive pykey : Type :=
| KStr (s : string)
| KInt (z : Z)
| KBool (b : bool)
| KNone
| KFloat (r : string).

Inductive pyval : Type :=
| PNone
| PBool (b : bool)
| PInt (z : Z)
| PFloat (r : string)
| PStr (s : string)
| PList (l : list pyval)
| PDict (items : list (pykey * pyval)).

(** A dict is its list of items in insertion order. *)
Abbreviation pydict := (list (pykey * pyval)).

Definition key_val (k : pykey) : pyval :=
  match k with
  | KStr s => PStr s
  | KInt z => PInt z
  | KBool b => PBool b
  | KNone => PNone
  | KFloat r => PFloat r
  end.

Definition is_str_key (name : string) (k : pykey) : bool :=
  match k with
  | KStr s => String.eqb s name
  | _ => false
  end.

(** [d.get(name)] for a [str] name; [None] of the option is the absent key. *)
Fixpoint dict_get (name : string) (d : pydict) : option pyval :=
  match d with
  | [] => None
  | (k, v) :: d' => if is_str_key name k then Some v else dict_get name d'
  end.

(** [name in d]. *)
Definition dict_has (name : string) (d : pydict) : bool :=
  match dict_get name d with Some _ => true | None => false end.

(** [d[name] = v]: an existing key keeps its place, a new one goes last. *)
Fixpoint dict_set (name : string) (v : pyval) (d : pydict) : pydict :=
  match d with
  | [] => [(KStr name, v)]
  | (k, w) :: d' =>
      if is_str_key name k then (k, v) :: d' else (k, w) :: dict_set name v d'
  end.

Definition is_dict (v : pyval) : bool :=
  match v with PDict _ => true | _ => false end.

Definition is_none (v : pyval) : bool :=
  match v with PNone => true | _ => false end.

(** The integer a value stands for where Python sees an [int] ([bool] is a
    subclass of [int]). *)
Definition int_value (v : pyval) : option Z :=
  match v with
  | PInt z => Some z
  | PBool true => Some 1
  | PBool false => Some 0
  | _ => None
  end.

(** Truth value of an object in a condition. *)
Definition truthy (v : pyval) : bool :=
  match v with
  | PNone => false
  | PBool b => b
  | PInt z => negb (z =? 0)
  | PFloat r => negb (String.eqb r "0.0" || String.eqb r "-0.0")
  | PStr s => negb (String.eqb s "")
  | PList l => match l with [] => false | _ => true end
  | PDict d => match d with [] => false | _ => true end
  end.

(** ** The [schema] library

    The classes of objects [Schema] is built from in [schemas.py]. *)

Inductive pytype : Type := Tint | Tstr | Tbool | Tfloat | Tdict | Tobject.

(** Builtin [isinstance(v, t)]. *)
Definition isinstance (v : pyval) (t : pytype) : bool :=
  match t, v with
  | Tobject, _ => true
  | Tint, PInt _ => true
  | Tint, PBool _ => true
  | Tbool, PBool _ => true
  | Tstr, PStr _ => true
  | Tfloat, PFloat _ => true
  | Tdict, PDict _ => true
  | _, _ => false
  end.

(** The test [Schema.validate] makes for a type:
    [isinstance(data, s) and not (isinstance(data, bool) and s == int)]. *)
Definition schema_type_check (v : pyval) (t : pytype) : bool :=
  isinstance v t &&
  negb (isinstance v Tbool && match t with Tint => true | _ => false end).

(** Keys of a dict schema as the service writes them: a literal such as
    ['version'] or a type such as [str], bare or wrapped in [Optional]. *)
Inductive key_pattern : Type :=
| KeyLit (s : string)
| KeyType (t : pytype).

Inductive dict_key : Type :=
| Required (k : key_pattern)
| Optional (k : key_pattern).

Inductive schema : Type :=
| SType (t : pytype)
| SCall (name : string) (f : pyval -> bool)
| SAnd (l : list schema)
| SOr (l : list schema)
| SDict (entries : list (dict_key * schema)).

Inductive schema_error : Type :=
| WrongType (v : pyval) (t : pytype)        (* %r should be instance of %r *)
| NotTrue (name : string) (v : pyval)       (* f(%r) should evaluate to True *)
| OrFailed (v : pyval)                      (* Or(...) did not validate %r *)
| KeyError (k : pykey) (e : schema_error)   (* Key '%s' error: ... *)
| MissingKeys (ks : list dict_key)          (* Missing key(s): ... *)
| WrongKeys (ks : list pykey).              (* Wrong key(s) ... in %r *)

Definition key_pattern_eqb (a b : key_pattern) : bool :=
  match a, b with
  | KeyLit s, KeyLit t => String.eqb s t
  | KeyType Tint, KeyType Tint => true
  | KeyType Tstr, KeyType Tstr => true
  | KeyType Tbool, KeyType Tbool => true
  | KeyType Tfloat, KeyType Tfloat => true
  | KeyType Tdict, KeyType Tdict => true
  | KeyType Tobject, KeyType Tobject => true
  | _, _ => false
  end.

Definition dict_key_eqb (a b : dict_key) : bool :=
  match a, b with
  | Required x, Required y => key_pattern_eqb x y
  | Optional x, Optional y => key_pattern_eqb x y
  | _, _ => false
  end.

Definition pykey_eqb (a b : pykey) : bool :=
  match a, b with
  | KStr s, KStr t => String.eqb s t
  | KInt x, KInt y => Z.eqb x y
  | KBool x, KBool y => Bool.eqb x y
  | KNone, KNone => true
  | KFloat r, KFloat s => String.eqb r s
  | _, _ => false
  end.

(** [_priority]: COMPARABLE = 0 for a literal, TYPE = 3 for a type;
    [_dict_key_priority] adds 0.5 for [Optional].  Doubled to stay in [nat]. *)
Definition pattern_priority (k : key_pattern) : nat :=
  match k with KeyLit _ => 0%nat | KeyType _ => 6%nat end.

Definition dict_key_priority (k : dict_key) : nat :=
  match k with
  | Required p => pattern_priority p
  | Optional p => S (pattern_priority p)
  end.

Definition is_optional (k : dict_key) : bool :=
  match k with Optional _ => true | Required _ => false end.

Definition key_pattern_of (k : dict_key) : key_pattern :=
  match k with Required p => p | Optional p => p end.

(** Does a data key validate against a schema key? *)
Definition key_matches (p : key_pattern) (k : pykey) : bool :=
  match p with
  | KeyLit s => is_str_key s k
  | KeyType t => schema_type_check (key_val k) t
  end.

Section StableSort.
Context {A : Type} (rank : A -> nat).

(** Elements are inserted from the right end of the list, each before the
    first element of rank not below its own: [sorted] is stable. *)
Fixpoint insert_by (x : A) (l : list A) : list A :=
  match l with
  | [] => [x]
  | y :: l' =>
      if (rank x <=? rank y)%nat then x :: l else y :: insert_by x l'
  end.

Definition sorted_by (l : list A) : list A :=
  fold_right insert_by [] l.
End StableSort.

(** A dict schema with the value schemas already turned into checkers. *)
Abbreviation checker := (pyval -> option schema_error).

(** The inner [for skey in sorted_skeys] loop for one data item: [None] when
    no schema key takes the data key, otherwise the schema key that took it
    and what its value schema says of the value. *)
Fixpoint match_item (skeys : list (dict_key * checker)) (k : pykey) (v : pyval)
  : option (dict_key * option schema_error) :=
  match skeys with
  | [] => None
  | (sk, check) :: skeys' =>
      if key_matches (key_pattern_of sk) k
      then Some (sk, check v)
      else match_item skeys' k v
  end.

(** The outer [for key, value in data_items] loop.  The result is the first
    value error, or the coverage (schema keys used) and the keys of [new]. *)
Fixpoint check_items (skeys : list (dict_key * checker)) (items : pydict)
    (coverage : list dict_key) (new : list pykey)
  : schema_error + (list dict_key * list pykey) :=
  match items with
  | [] => inr (coverage, new)
  | (k, v) :: items' =>
      match match_item skeys k v with
      | None => check_items skeys items' coverage new
      | Some (sk, Some e) => inl (KeyError k e)
      | Some (sk, None) =>
          check_items skeys items' (sk :: coverage)
            (if existsb (pykey_eqb k) new then new else new ++ [k])
      end
  end.

(** [sorted(data.items(), key=lambda value: isinstance(value[1], dict))]. *)
Definition dicts_last (items : pydict) : pydict :=
  filter (fun kv => negb (is_dict (snd kv))) items ++
  filter (fun kv => is_dict (snd kv)) items.

Definition validate_dict (entries : list (dict_key * checker)) (data : pyval)
  : option schema_error :=
  match data with
  | PDict items =>
      let sorted_skeys := sorted_by (fun e => dict_key_priority (fst e)) entries in
      match check_items sorted_skeys (dicts_last items) [] [] with
      | inl e => Some e
      | inr (coverage, new) =>
          let required := filter (fun k => negb (is_optional k)) (map fst entries) in
          let missing :=
            filter (fun k => negb (existsb (dict_key_eqb k) coverage)) required in
          match missing with
          | _ :: _ => Some (MissingKeys missing)
          | [] =>
              if (List.length new =? List.length items)%nat then None
              else Some (WrongKeys
                     (filter (fun k => negb (existsb (pykey_eqb k) new))
                        (map fst items)))
          end
      end
  | _ => Some (WrongType data Tdict)
  end.

Fixpoint validate_all (checks : list checker) (data : pyval) : option schema_error :=
  match checks with
  | [] => None
  | c :: checks' =>
      match c data with
      | None => validate_all checks' data
      | Some e => Some e
      end
  end.

Fixpoint validate_any (checks : list checker) (data : pyval) : option schema_error :=
  match checks with
  | [] => Some (OrFailed data)
  | c :: checks' =>
      match c data with
      | None => None
      | Some _ => validate_any checks' data
      end
  end.

(** [Schema(s).validate(data)]: [None] when the data validates, otherwise the
    [SchemaError] raised. *)
Fixpoint validate (s : schema) (data : pyval) {struct s} : option schema_error :=
  match s with
  | SType t =>
      if schema_type_check data t then None else Some (WrongType data t)
  | SCall name f =>
      if f data then None else Some (NotTrue name data)
  | SAnd l => validate_all (map validate l) data
  | SOr l => validate_any (map validate l) data
  | SDict entries =>
      validate_dict (map (fun e => (fst e, validate (snd e))) entries) data
  end.

(** ** Results of Python calls *)

(** What the validator appends to its error list: a fixed text, or the text
    of a re-raised schema error, ["Validation error: " + str(e)]. *)
Inductive message : Type :=
| Text (s : string)
| ValidationError (e : schema_error).

Inductive render_failure : Type :=
| TemplateRenderingFailed       (* "Template rendering failed: ..." *)
| InvalidJsonAfterRendering     (* "Invalid JSON after template rendering: ..." *)
| TemplateRenderingError.       (* "Template rendering error: ..." *)

Inductive exn : Type :=
| SchemaError (m : message)
| AttributeError (obj : pyval) (attr : string)
| ValueError (f : render_failure).

Inductive result (A : Type) : Type :=
| Ok (a : A)
| Raise (e : exn).
Arguments Ok {A} a.
Arguments Raise {A} e.

(** ** validation/schemas.py *)

Module Schemas.

(** [lambda v: v > 0], reached behind [int] only. *)
Definition version_positive (v : pyval) : bool :=
  match int_value v with Some z => 0 <? z | None => false end.

(** [lambda p: 1 <= p <= 65535], reached behind [int] only. *)
Definition port_in_range (p : pyval) : bool :=
  match int_value p with
  | Some z => (1 <=? z) && (z <=? 65535)
  | None => false
  end.

(** [len] used as a test: true on a non-empty sized object; on an object
    without [len] the call raises, which [Schema] turns into an error. *)
Definition len_nonzero (v : pyval) : bool :=
  match v with
  | PStr s => negb (String.eqb s "")
  | PList l => match l with [] => false | _ => true end
  | PDict d => match d with [] => false | _ => true end
  | _ => false
  end.

(** [And(int, lambda v: v > 0)]. *)
Definition version_schema : schema :=
  SAnd [SType Tint; SCall "<lambda>" version_positive].

(** [{'host': And(str, len), 'port': And(int, lambda p: 1 <= p <= 65535)}]. *)
Definition database_schema : schema :=
  SDict [ (Required (KeyLit "host"), SAnd [SType Tstr; SCall "len" len_nonzero]);
          (Required (KeyLit "port"), SAnd [SType Tint; SCall "<lambda>" port_in_range]) ].

(** [{str: Or(bool, str, int, float)}]. *)
Definition features_schema : schema :=
  SDict [ (Required (KeyType Tstr), SOr [SType Tbool; SType Tstr; SType Tint; SType Tfloat]) ].

Definition BASE_CONFIG_SCHEMA : schema :=
  SDict [ (Required (KeyLit "version"), version_schema);
          (Optional (KeyLit "database"), database_schema);
          (Optional (KeyLit "features"), features_schema);
          (Optional (KeyType Tstr), SType Tobject) ].

Definition REQUIRED_FIELDS_SCHEMA : schema :=
  SDict [ (Required (KeyLit "version"), SType Tint);
          (Optional (KeyType Tstr), SType Tobject) ].

(** The required fields first, the full schema only [if 'database' in
    config_data]; a [SchemaError] is re-raised under the prefix
    ["Validation error: "]. *)
Definition validate_config_schema (config_data : pydict) : result bool :=
  match validate REQUIRED_FIELDS_SCHEMA (PDict config_data) with
  | Some e => Raise (SchemaError (ValidationError e))
  | None =>
      if dict_has "database" config_data then
        match validate BASE_CONFIG_SCHEMA (PDict config_data) with
        | Some e => Raise (SchemaError (ValidationError e))
        | None => Ok true
        end
      else Ok true
  end.

Definition host_message : message :=
  Text "database.host must be a non-empty string".
Definition port_message : message :=
  Text "database.port must be an integer between 1 and 65535".

(** [x.get(name)] on an arbitrary object: only a dict has the method. *)
Definition py_get (obj : pyval) (name : string) : result pyval :=
  match obj with
  | PDict d =>
      Ok (match dict_get name d with Some v => v | None => PNone end)
  | _ => Raise (AttributeError obj "get")
  end.

(** The additional checks on the [database] section. *)
Definition database_checks (db_config : pyval) (errors : list message)
  : result (list message) :=
  match py_get db_config "host" with
  | Raise e => Raise e
  | Ok host =>
      let errors :=
        if negb (truthy host) || negb (isinstance host Tstr)
        then errors ++ [host_message] else errors in
      match py_get db_config "port" with
      | Raise e => Raise e
      | Ok port =>
          Ok (if negb (isinstance port Tint) || negb (port_in_range port)
              then errors ++ [port_message] else errors)
      end
  end.

(** [get_validation_errors]: the text of the schema error, if one is raised,
    then the texts of the checks on the [database] section.  An exception
    that is not a [SchemaError] is not caught. *)
Definition get_validation_errors (config_data : pydict) : result (list message) :=
  match
    match validate_config_schema config_data with
    | Ok _ => Ok []
    | Raise (SchemaError m) => Ok [m]
    | Raise e => Raise e
    end
  with
  | Raise e => Raise e
  | Ok errors =>
      match dict_get "database" config_data with
      | Some db_config => database_checks db_config errors
      | None => Ok errors
      end
  end.

(** [ConfigValidator.validate]: [(is_valid, errors)]. *)
Definition ConfigValidator_validate (config_data : pydict)
  : result (bool * list message) :=
  match get_validation_errors config_data with
  | Raise e => Raise e
  | Ok errors => Ok ((List.length errors =? 0)%nat, errors)
  end.

End Schemas.

Import Schemas.

(** ** validation/validators.py *)

(** What [yaml.safe_load] does with a text: the loader is a collaborator. *)
Inductive yaml_outcome : Type :=
| Loaded (v : pyval)
| LoadedOther (type_name : string)   (* a date, bytes or set object *)
| ScannerError (msg : string)
| ParserError (msg : string)
| OtherError (msg : string).

Definition byte_is (c : ascii) (n : nat) : bool := (nat_of_ascii c =? n)%nat.

(** [str.isspace] on the single-byte code points: TAB..CR, FS..US, SPACE. *)
Definition is_ascii_space (c : ascii) : bool :=
  let n := nat_of_ascii c in
  ((9 <=? n) && (n <=? 13) || (28 <=? n) && (n <=? 32))%nat.

(** U+0085 and U+00A0. *)
Definition two_byte_space (a b : ascii) : bool :=
  byte_is a 194 && (byte_is b 133 || byte_is b 160).

(** U+1680, U+2000..U+200A, U+2028, U+2029, U+202F, U+205F, U+3000. *)
Definition three_byte_space (a b c : ascii) : bool :=
  let n := nat_of_ascii c in
  byte_is a 225 && byte_is b 154 && byte_is c 128
  || byte_is a 226 && byte_is b 128 &&
       ((128 <=? n) && (n <=? 138) || byte_is c 168 || byte_is c 169 || byte_is c 175)%nat
  || byte_is a 226 && byte_is b 129 && byte_is c 159
  || byte_is a 227 && byte_is b 128 && byte_is c 128.

(** [str.lstrip()]. *)
Fixpoint lstrip (s : string) : string :=
  match s with
  | String a r =>
      if is_ascii_space a then lstrip r
      else
        match r with
        | String b r1 =>
            if two_byte_space a b then lstrip r1
            else
              match r1 with
              | String c r2 => if three_byte_space a b c then lstrip r2 else s
              | EmptyString => s
              end
        | EmptyString => s
        end
  | EmptyString => s
  end.

(** [s.startswith(p)], with the rest of [s]. *)
Fixpoint strip_prefix (p s : string) : option string :=
  match p, s with
  | EmptyString, _ => Some s
  | String a p', String b s' => if Ascii.eqb a b then strip_prefix p' s' else None
  | _, EmptyString => None
  end.

(** [needle in s]. *)
Fixpoint contains (needle s : string) : bool :=
  match strip_prefix needle s with
  | Some _ => true
  | None =>
      match s with
      | String _ r => contains needle r
      | EmptyString => false
      end
  end.

Definition is_empty (s : string) : bool :=
  match s with EmptyString => true | _ => false end.

(** [str.rstrip()]: the text up to the point from which only whitespace
    remains. *)
Fixpoint rstrip (s : string) : string :=
  match s with
  | EmptyString => EmptyString
  | String a r => if is_empty (lstrip s) then EmptyString else String a (rstrip r)
  end.

(** [str.strip()]. *)
Definition strip (s : string) : string := rstrip (lstrip s).

Module Validators.

Section WithLoader.
Variable safe_load : string -> yaml_outcome.

Definition empty_message : string := "Empty YAML content".
Definition shape_message : string := "YAML must represent a dictionary/object".

(** [YAMLValidator.parse_yaml]: [(success, parsed_data, error_message)]. *)
Definition parse_yaml (yaml_content : string)
  : bool * option pydict * option string :=
  if is_empty yaml_content || is_empty (strip yaml_content)
  then (false, None, Some empty_message)
  else
    match safe_load yaml_content with
    | Loaded (PDict data) => (true, Some data, None)
    | Loaded _ | LoadedOther _ => (false, None, Some shape_message)
    | ScannerError e => (false, None, Some ("YAML syntax error: " +:+ e))
    | ParserError e => (false, None, Some ("YAML parsing error: " +:+ e))
    | OtherError e => (false, None, Some ("YAML processing error: " +:+ e))
    end.

End WithLoader.

End Validators.

(** ** The [json] module

    [json.dumps(obj, ensure_ascii=False, indent=...)] and [json.loads]. *)

Module Json.

Definition dq : ascii := ascii_of_nat 34.
Definition backslash : ascii := ascii_of_nat 92.
Definition newline : ascii := ascii_of_nat 10.

Definition hex_digit (n : nat) : ascii :=
  if (n <? 10)%nat then ascii_of_nat (48 + n) else ascii_of_nat (87 + n).

(** [ESCAPE_DCT]: the quote, the backslash and the control characters. *)
Definition escape_char (c : ascii) : string :=
  let n := nat_of_ascii c in
  if (n =? 34)%nat then String backslash (String dq "")
  else if (n =? 92)%nat then String backslash (String backslash "")
  else if (n =? 8)%nat then String backslash "b"
  else if (n =? 12)%nat then String backslash "f"
  else if (n =? 10)%nat then String backslash "n"
  else if (n =? 13)%nat then String backslash "r"
  else if (n =? 9)%nat then String backslash "t"
  else if (n <? 32)%nat then
    String backslash
      (String "u" (String "0" (String "0"
         (String (hex_digit (n / 16)) (String (hex_digit (n mod 16)) "")))))
  else String c "".

Fixpoint escape (s : string) : string :=
  match s with
  | EmptyString => EmptyString
  | String c r => escape_char c +:+ escape r
  end.

(** [encode_basestring]. *)
Definition encode_string (s : string) : string :=
  String dq (escape s +:+ String dq "").

(** [int.__repr__] (CPython's cap on the digits of a conversion left aside). *)
Definition int_repr (z : Z) : string := NilZero.string_of_int (Z.to_int z).

(** [floatstr]: the repr, with JavaScript's names for the non-finite ones. *)
Definition floatstr (r : string) : string :=
  if String.eqb r "nan" then "NaN"
  else if String.eqb r "inf" then "Infinity"
  else if String.eqb r "-inf" then "-Infinity"
  else r.

(** A key that is not a [str] is coerced to one. *)
Definition key_text (k : pykey) : string :=
  match k with
  | KStr s => s
  | KFloat r => floatstr r
  | KBool true => "true"
  | KBool false => "false"
  | KNone => "null"
  | KInt z => int_repr z
  end.

Fixpoint spaces (n : nat) : string :=
  match n with O => EmptyString | S n' => String " " (spaces n') end.

Fixpoint join (sep : string) (l : list string) : string :=
  match l with
  | [] => EmptyString
  | [x] => x
  | x :: l' => x +:+ sep +:+ join sep l'
  end.

(** With an indent every item starts on a line of its own; without one the
    items are separated by [", "]. *)
Definition newline_indent (indent : option nat) (level : nat) : string :=
  match indent with
  | Some n => String newline (spaces (n * level))
  | None => EmptyString
  end.

Definition item_separator (indent : option nat) (level : nat) : string :=
  match indent with
  | Some _ => "," +:+ newline_indent indent level
  | None => ", "
  end.

Definition bracket (indent : option nat) (level : nat)
    (opening closing : string) (chunks : list string) : string :=
  match chunks with
  | [] => opening +:+ closing
  | _ =>
      opening +:+ newline_indent indent (S level) +:+
      join (item_separator indent (S level)) chunks +:+
      newline_indent indent level +:+ closing
  end.

(** [_iterencode] at nesting depth [level]. *)
Fixpoint encode (indent : option nat) (level : nat) (v : pyval) : string :=
  match v with
  | PNone => "null"
  | PBool true => "true"
  | PBool false => "false"
  | PInt z => int_repr z
  | PFloat r => floatstr r
  | PStr s => encode_string s
  | PList l =>
      bracket indent level "[" "]" (map (encode indent (S level)) l)
  | PDict items =>
      bracket indent level "{" "}"
        (map (fun kv => encode_string (key_text (fst kv)) +:+ ": " +:+
                        encode indent (S level) (snd kv)) items)
  end.

Definition dumps (indent : option nat) (v : pyval) : string := encode indent 0 v.

(** *** Decoding *)

(** [WHITESPACE = re.compile(r'[ \t\n\r]*')]. *)
Definition is_ws (c : ascii) : bool :=
  byte_is c 32 || byte_is c 9 || byte_is c 10 || byte_is c 13.

Fixpoint skip_ws (s : string) : string :=
  match s with
  | String c r => if is_ws c then skip_ws r else s
  | EmptyString => s
  end.

Definition is_digit (c : ascii) : bool :=
  let n := nat_of_ascii c in ((48 <=? n) && (n <=? 57))%nat.

Definition hex_value (c : ascii) : option N :=
  let n := nat_of_ascii c in
  if ((48 <=? n) && (n <=? 57))%nat then Some (N.of_nat (n - 48))
  else if ((97 <=? n) && (n <=? 102))%nat then Some (N.of_nat (n - 87))
  else if ((65 <=? n) && (n <=? 70))%nat then Some (N.of_nat (n - 55))
  else None.

(** [_decode_uXXXX]. *)
Definition hex4 (a b c d : ascii) : option N :=
  match hex_value a, hex_value b, hex_value c, hex_value d with
  | Some x, Some y, Some z, Some w => Some (((x * 16 + y) * 16 + z) * 16 + w)%N
  | _, _, _, _ => None
  end.

Definition byte_of_N (n : N) : ascii := ascii_of_N n.

(** [chr(uni)], as the bytes of its UTF-8 encoding; a lone surrogate, which
    Python keeps as a character of its own, gets the three bytes the scheme
    would give it. *)
Definition utf8 (cp : N) : string :=
  if (cp <? 128)%N then String (byte_of_N cp) ""
  else if (cp <? 2048)%N then
    String (byte_of_N (192 + cp / 64)) (String (byte_of_N (128 + cp mod 64)) "")
  else if (cp <? 65536)%N then
    String (byte_of_N (224 + cp / 4096))
      (String (byte_of_N (128 + (cp / 64) mod 64))
         (String (byte_of_N (128 + cp mod 64)) ""))
  else
    String (byte_of_N (240 + cp / 262144))
      (String (byte_of_N (128 + (cp / 4096) mod 64))
         (String (byte_of_N (128 + (cp / 64) mod 64))
            (String (byte_of_N (128 + cp mod 64)) ""))).

Definition is_high_surrogate (u : N) : bool := ((55296 <=? u) && (u <=? 56319))%N.
Definition is_low_surrogate (u : N) : bool := ((56320 <=? u) && (u <=? 57343))%N.

(** The second half of a surrogate pair, when the text goes on with one. *)
Definition low_surrogate_ahead (s : string) : option (N * string) :=
  match s with
  | String e (String u (String a (String b (String c (String d r))))) =>
      if byte_is e 92 && byte_is u 117 then
        match hex4 a b c d with
        | Some lo => if is_low_surrogate lo then Some (lo, r) else None
        | None => None
        end
      else None
  | _ => None
  end.

(** [py_scanstring] in strict mode, from after the opening quote: the
    decoded text and what follows the closing quote. *)
Fixpoint scanstring (s : string) : option (string * string) :=
  match s with
  | EmptyString => None
  | String c r =>
      if byte_is c 34 then Some (EmptyString, r)
      else if byte_is c 92 then
        match r with
        | String e r1 =>
            let simple (ch : ascii) :=
              match scanstring r1 with
              | Some (body, rest) => Some (String ch body, rest)
              | None => None
              end in
            if byte_is e 34 then simple dq
            else if byte_is e 92 then simple backslash
            else if byte_is e 47 then simple "/"%char
            else if byte_is e 98 then simple (ascii_of_nat 8)
            else if byte_is e 102 then simple (ascii_of_nat 12)
            else if byte_is e 110 then simple (ascii_of_nat 10)
            else if byte_is e 114 then simple (ascii_of_nat 13)
            else if byte_is e 116 then simple (ascii_of_nat 9)
            else if byte_is e 117 then
              match r1 with
              | String h1 (String h2 (String h3 (String h4 r2))) =>
                  match hex4 h1 h2 h3 h4 with
                  | Some uni =>
                      match
                        (if is_high_surrogate uni then low_surrogate_ahead r2 else None),
                        r2
                      with
                      | Some (lo, _), String _ (String _ (String _ (String _ (String _ (String _ r3))))) =>
                          match scanstring r3 with
                          | Some (body, rest) =>
                              Some (utf8 (65536 + (uni - 55296) * 1024 + (lo - 56320))%N +:+ body, rest)
                          | None => None
                          end
                      | _, _ =>
                          match scanstring r2 with
                          | Some (body, rest) => Some (utf8 uni +:+ body, rest)
                          | None => None
                          end
                      end
                  | None => None
                  end
              | _ => None
              end
            else None
        | EmptyString => None
        end
      else if (nat_of_ascii c <? 32)%nat then None
      else
        match scanstring r with
        | Some (body, rest) => Some (String c body, rest)
        | None => None
        end
  end.

(** The longest prefix of digits and what follows it. *)
Fixpoint span_digits (s : string) : string * string :=
  match s with
  | String c r =>
      if is_digit c then let (d, rest) := span_digits r in (String c d, rest)
      else (EmptyString, s)
  | EmptyString => (EmptyString, s)
  end.

(** The integer part [0|[1-9][0-9]*] of [NUMBER_RE]. *)
Definition span_integer (s : string) : option (string * string) :=
  match s with
  | String c r =>
      if byte_is c 48 then Some ("0", r)
      else if is_digit c then
        let (d, rest) := span_digits r in Some (String c d, rest)
      else None
  | EmptyString => None
  end.

(** The optional group [\.[0-9]+]. *)
Definition span_fraction (s : string) : string * string :=
  match s with
  | String c r =>
      if byte_is c 46 then
        match span_digits r with
        | (EmptyString, _) => (EmptyString, s)
        | (d, rest) => (String c d, rest)
        end
      else (EmptyString, s)
  | EmptyString => (EmptyString, s)
  end.

(** The optional group [[eE][-+]?[0-9]+]. *)
Definition span_exponent (s : string) : string * string :=
  match s with
  | String c r =>
      if byte_is c 101 || byte_is c 69 then
        let (sign, r1) :=
          match r with
          | String g r' =>
              if byte_is g 45 || byte_is g 43 then (String g "", r') else (EmptyString, r)
          | EmptyString => (EmptyString, r)
          end in
        match span_digits r1 with
        | (EmptyString, _) => (EmptyString, s)
        | (d, rest) => (String c (sign +:+ d), rest)
        end
      else (EmptyString, s)
  | EmptyString => (EmptyString, s)
  end.

(** [int(text)] on a run of decimal digits. *)
Definition int_of_digits (d : string) : option Z :=
  match NilZero.uint_of_string d with
  | Some u => Some (Z.of_uint u)
  | None => None
  end.

(** The groups of [NUMBER_RE] after the sign, and what [_scan_once] makes of
    the match: an [int] when there is neither fraction nor exponent, else
    [float(text)], here the text itself. *)
Definition scan_unsigned (negative : bool) (s1 : string) : option (pyval * string) :=
  match span_integer s1 with
  | None => None
  | Some (int_part, s2) =>
      let (frac, s3) := span_fraction s2 in
      let (exp, s4) := span_exponent s3 in
      if is_empty frac && is_empty exp then
        match int_of_digits int_part with
        | Some n => Some (PInt (if negative then - n else n), s4)
        | None => None
        end
      else
        Some (PFloat ((if negative then "-" else "") +:+ int_part +:+ frac +:+ exp), s4)
  end.

(** [match_number]: the optional sign [-?] first. *)
Definition scan_number (s : string) : option (pyval * string) :=
  match s with
  | String c r => if byte_is c 45 then scan_unsigned true r else scan_unsigned false s
  | EmptyString => scan_unsigned false s
  end.

(** The literals of [_scan_once] that are neither string, object, array nor
    number. *)
Definition scan_constant (s : string) : option (pyval * string) :=
  match strip_prefix "null" s with
  | Some r => Some (PNone, r)
  | None =>
  match strip_prefix "true" s with
  | Some r => Some (PBool true, r)
  | None =>
  match strip_prefix "false" s with
  | Some r => Some (PBool false, r)
  | None =>
  match scan_number s with
  | Some res => Some res
  | None =>
  match strip_prefix "NaN" s with
  | Some r => Some (PFloat "nan", r)
  | None =>
  match strip_prefix "Infinity" s with
  | Some r => Some (PFloat "inf", r)
  | None =>
  match strip_prefix "-Infinity" s with
  | Some r => Some (PFloat "-inf", r)
  | None => None
  end end end end end end end.

(** [scan_once], [JSONArray] and [JSONObject].  Every call reads at least one
    character before it calls again, so the length of the text bounds the
    depth of the calls: [fuel] is that bound.  [None] is a
    [JSONDecodeError]. *)
Fixpoint scan_once (fuel : nat) (s : string) : option (pyval * string) :=
  match fuel with
  | O => None
  | S fuel' =>
      match s with
      | EmptyString => None
      | String c r =>
          if byte_is c 34 then
            match scanstring r with
            | Some (body, rest) => Some (PStr body, rest)
            | None => None
            end
          else if byte_is c 123 then
            match skip_ws r with
            | String c1 r1 =>
                if byte_is c1 125 then Some (PDict [], r1)
                else parse_members fuel' (String c1 r1) []
            | EmptyString => None
            end
          else if byte_is c 91 then
            match skip_ws r with
            | String c1 r1 =>
                if byte_is c1 93 then Some (PList [], r1)
                else parse_elements fuel' (String c1 r1) []
            | EmptyString => None
            end
          else scan_constant s
      end
  end
with parse_members (fuel : nat) (s : string) (pairs : pydict)
  : option (pyval * string) :=
  match fuel with
  | O => None
  | S fuel' =>
      match s with
      | String c r =>
          if byte_is c 34 then
            match scanstring r with
            | Some (key, r1) =>
                match skip_ws r1 with
                | String c2 r2 =>
                    if byte_is c2 58 then
                      match scan_once fuel' (skip_ws r2) with
                      | Some (value, r3) =>
                          let pairs' := dict_set key value pairs in
                          match skip_ws r3 with
                          | String c4 r4 =>
                              if byte_is c4 125 then Some (PDict pairs', r4)
                              else if byte_is c4 44
                              then parse_members fuel' (skip_ws r4) pairs'
                              else None
                          | EmptyString => None
                          end
                      | None => None
                      end
                    else None
                | EmptyString => None
                end
            | None => None
            end
          else None
      | EmptyString => None
      end
  end
with parse_elements (fuel : nat) (s : string) (values : list pyval)
  : option (pyval * string) :=
  match fuel with
  | O => None
  | S fuel' =>
      match scan_once fuel' s with
      | Some (value, r1) =>
          match skip_ws r1 with
          | String c2 r2 =>
              if byte_is c2 93 then Some (PList (values ++ [value]), r2)
              else if byte_is c2 44
              then parse_elements fuel' (skip_ws r2) (values ++ [value])
              else None
          | EmptyString => None
          end
      | None => None
      end
  end.

(** [json.loads]: one value, whitespace around it, nothing else. *)
Definition loads (s : string) : option pyval :=
  match scan_once (S (String.length s)) (skip_ws s) with
  | Some (v, rest) => if is_empty (skip_ws rest) then Some v else None
  | None => None
  end.

End Json.

(** ** The [jinja2] environment

    The fragment of the template language the model covers: literal text and
    the print statement of one variable, [{{ name }}].  A template that uses
    anything else (a closed block or comment, a filter, an expression) is
    [Unmodelled]; a tag that is opened and never closed is a
    [TemplateSyntaxError] in the library and here. *)

Module Jinja.

Inductive outcome : Type :=
| Rendered (text : string)
| TemplateSyntaxError
| Unmodelled.

(** The lexer first rewrites every [\r\n], [\r] and [\n] to [\n]. *)
Fixpoint normalize_newlines (s : string) : string :=
  match s with
  | String c r =>
      if byte_is c 13 then
        match r with
        | String d r' =>
            if byte_is d 10 then String Json.newline (normalize_newlines r')
            else String Json.newline (normalize_newlines r)
        | EmptyString => String Json.newline EmptyString
        end
      else String c (normalize_newlines r)
  | EmptyString => EmptyString
  end.

Definition is_name_start (c : ascii) : bool :=
  let n := nat_of_ascii c in
  ((65 <=? n) && (n <=? 90) || (97 <=? n) && (n <=? 122) || (n =? 95))%nat.

Definition is_name_char (c : ascii) : bool := is_name_start c || Json.is_digit c.

Definition is_blank (c : ascii) : bool :=
  let n := nat_of_ascii c in ((n =? 32) || (9 <=? n) && (n <=? 13))%nat.

Fixpoint skip_blanks (s : string) : string :=
  match s with
  | String c r => if is_blank c then skip_blanks r else s
  | EmptyString => s
  end.

Fixpoint span_name (s : string) : string * string :=
  match s with
  | String c r =>
      if is_name_char c then let (n, rest) := span_name r in (String c n, rest)
      else (EmptyString, s)
  | EmptyString => (EmptyString, s)
  end.

(** The expression between [{{] and [}}] when it is a single name. *)
Definition single_name (expr : string) : option string :=
  match skip_blanks expr with
  | String c r =>
      if is_name_start c then
        let (n, rest) := span_name (String c r) in
        if is_empty (skip_blanks rest) then Some n else None
      else None
  | EmptyString => None
  end.

(** Names the language gives a meaning of its own: constants, operators,
    statement keywords and the default globals. *)
Definition reserved_names : list string :=
  [ "true"; "false"; "none"; "True"; "False"; "None";
    "and"; "or"; "not"; "in"; "is"; "if"; "else";
    "range"; "dict"; "lipsum"; "cycler"; "joiner"; "namespace";
    "self"; "super"; "varargs"; "kwargs"; "caller"; "loop" ].

(** [str(value)] for the values whose text is modelled. *)
Definition py_str (v : pyval) : option string :=
  match v with
  | PStr s => Some s
  | PInt z => Some (Json.int_repr z)
  | PBool true => Some "True"
  | PBool false => Some "False"
  | PNone => Some "None"
  | PFloat r => Some r
  | PList _ | PDict _ => None
  end.

(** What [{{ expr }}] prints: the value bound to the name, the empty text of
    [Undefined] for a name that is not bound. *)
Definition print_expr (context : gmap string pyval) (expr : string) : option string :=
  match single_name expr with
  | Some name =>
      if existsb (String.eqb name) reserved_names then None
      else
        match context !! name with
        | Some v => py_str v
        | None => Some EmptyString
        end
  | None => None
  end.

Definition emit (text : string) (o : outcome) : outcome :=
  match o with
  | Rendered rest => Rendered (text +:+ rest)
  | other => other
  end.

(** One pass over the source.  [expr] is [None] in literal text, and the
    expression read so far inside a print statement. *)
Fixpoint lex (context : gmap string pyval) (expr : option string) (s : string)
  : outcome :=
  match s with
  | EmptyString =>
      match expr with
      | None => Rendered EmptyString
      | Some _ => TemplateSyntaxError
      end
  | String a r =>
      match expr with
      | None =>
          if byte_is a 123 then
            match r with
            | String b r' =>
                if byte_is b 123 then lex context (Some EmptyString) r'
                else if byte_is b 37 then
                  if contains "%}" r' then Unmodelled else TemplateSyntaxError
                else if byte_is b 35 then
                  if contains "#}" r' then Unmodelled else TemplateSyntaxError
                else emit (String a EmptyString) (lex context None r)
            | EmptyString => emit (String a EmptyString) (lex context None r)
            end
          else emit (String a EmptyString) (lex context None r)
      | Some e =>
          if byte_is a 125 then
            match r with
            | String b r' =>
                if byte_is b 125 then
                  match print_expr context e with
                  | Some text => emit text (lex context None r')
                  | None => Unmodelled
                  end
                else lex context (Some (e +:+ String a EmptyString)) r
            | EmptyString => TemplateSyntaxError
            end
          else lex context (Some (e +:+ String a EmptyString)) r
      end
  end.

(** [env.from_string(source)] then [template.render] with the context as
    keyword arguments. *)
Definition render (source : string) (context : gmap string pyval) : outcome :=
  lex context None (normalize_newlines source).

End Jinja.

(** ** templates/renderer.py *)

Module Renderer.

(** [TemplateRenderer.render_config_template].  [None] when the template is
    outside the modelled fragment of the language. *)
Definition render_config_template (config_data : pydict)
    (context : gmap string pyval) : option (result pyval) :=
  let config_json := Json.dumps (Some 2%nat) (PDict config_data) in
  match Jinja.render config_json context with
  | Jinja.Unmodelled => None
  | Jinja.TemplateSyntaxError => Some (Raise (ValueError TemplateRenderingFailed))
  | Jinja.Rendered rendered_json =>
      match Json.loads rendered_json with
      | Some rendered_config => Some (Ok rendered_config)
      | None => Some (Raise (ValueError InvalidJsonAfterRendering))
      end
  end.

(** [template_params.get(name, default)]. *)
Definition get_default (template_params : gmap string pyval) (name : string)
    (default : pyval) : pyval :=
  match template_params !! name with
  | Some v => v
  | None => default
  end.

Definition default_context (template_params : gmap string pyval)
  : gmap string pyval :=
  <["user" := get_default template_params "user" (PStr "anonymous")]>
  (<["env" := get_default template_params "env" (PStr "development")]>
  (<["timestamp" := get_default template_params "timestamp" (PStr "")]> ∅)).

(** [{**default_context, **template_params}]. *)
Definition merged_context (template_params : gmap string pyval)
  : gmap string pyval :=
  template_params ∪ default_context template_params.

(** [ConfigTemplateProcessor.process_template_request]. *)
Definition process_template_request (config_data : pydict)
    (template_params : gmap string pyval) : option (result pyval) :=
  render_config_template config_data (merged_context template_params).

(** [ConfigTemplateProcessor.has_template_syntax]. *)
Definition has_template_syntax (config_data : pydict) : bool :=
  let config_str := Json.dumps None (PDict config_data) in
  contains "{{" config_str || contains "{%" config_str.

End Renderer.

(** ** db/models.py and db/connection.py *)

Module Db.

(** Modelled from the spec: the [configurations] table, whose declaration is
    not part of the sources.  A row is [(id, service, version, payload,
    created_at)] with an integer [version]; the backend assigns [id] and
    [created_at]; no uniqueness constraint on [(service, version)] is
    declared.  The payload column holds the JSON text of a document and is
    carried as the document; a timestamp is carried as its [isoformat()]
    text. *)
Record row : Type := {
  row_id : Z;
  row_service : string;
  row_version : Z;
  row_payload : pydict;
  row_created_at : string
}.

(** The table, oldest row first, and the next value of the [id] sequence. *)
Record backend : Type := {
  rows : list row;
  next_id : Z
}.

Record ConfigurationModel : Type := {
  id : option Z;
  service : string;
  version : pyval;
  payload : pydict;
  created_at : string
}.

Record ConfigHistoryItem : Type := {
  item_version : Z;
  item_created_at : string
}.

(** [ConfigHistoryItem.to_dict]. *)
Definition item_to_dict (item : ConfigHistoryItem) : pyval :=
  PDict [ (KStr "version", PInt (item_version item));
          (KStr "created_at", PStr (item_created_at item)) ].

Definition of_service (s : string) (r : row) : bool :=
  String.eqb (row_service r) s.

(** [SELECT COALESCE(MAX(version), 0) FROM configurations WHERE service = %s]. *)
Definition select_max_version (db : backend) (s : string) : Z :=
  match map row_version (filter (of_service s) (rows db)) with
  | [] => 0
  | v :: vs => fold_left Z.max vs v
  end.

(** [ORDER BY version DESC]; rows of equal version stay in table order. *)
Fixpoint insert_desc (x : row) (l : list row) : list row :=
  match l with
  | [] => [x]
  | y :: l' =>
      if row_version y <=? row_version x then x :: l else y :: insert_desc x l'
  end.

Definition order_by_version_desc (l : list row) : list row :=
  fold_right insert_desc [] l.

(** [INSERT INTO configurations (service, version, payload) VALUES (...)
    RETURNING id, created_at], at the backend time [now]. *)
Definition insert_row (db : backend) (now : string) (s : string) (v : Z)
    (p : pydict) : row * backend :=
  let r := {| row_id := next_id db; row_service := s; row_version := v;
              row_payload := p; row_created_at := now |} in
  (r, {| rows := rows db ++ [r]; next_id := next_id db + 1 |}).

(** [DatabaseConnection.save_configuration].  [payload.get('version')] is
    [None] for a missing key and for a null value alike.  The result is
    [None] when the version handed to the [INSERT] is not an [int]: what the
    backend makes of such a parameter is not modelled. *)
Definition save_configuration (db : backend) (now : string) (s : string)
    (payload : pydict) : option (ConfigurationModel * backend) :=
  let version := match dict_get "version" payload with
                 | Some v => v
                 | None => PNone
                 end in
  let (version, payload) :=
    if is_none version then
      let version := PInt (select_max_version db s + 1) in
      (version, dict_set "version" version payload)
    else (version, payload) in
  match version with
  | PInt v =>
      let (r, db') := insert_row db now s v payload in
      Some ({| id := Some (row_id r); service := s; version := version;
               payload := payload; created_at := row_created_at r |}, db')
  | _ => None
  end.

Definition model_of_row (r : row) : ConfigurationModel :=
  {| id := Some (row_id r); service := row_service r;
     version := PInt (row_version r); payload := row_payload r;
     created_at := row_created_at r |}.

(** [DatabaseConnection.get_configuration]: the first row of the query's
    result, [None] when the result is empty. *)
Definition get_configuration (db : backend) (s : string) (version : option Z)
  : option ConfigurationModel :=
  let result :=
    match version with
    | None => firstn 1 (order_by_version_desc (filter (of_service s) (rows db)))
    | Some v =>
        filter (fun r => of_service s r && (row_version r =? v)) (rows db)
    end in
  match result with
  | [] => None
  | r :: _ => Some (model_of_row r)
  end.

(** [DatabaseConnection.get_configuration_history]. *)
Definition get_configuration_history (db : backend) (s : string)
  : list ConfigHistoryItem :=
  map (fun r => {| item_version := row_version r;
                   item_created_at := row_created_at r |})
      (order_by_version_desc (filter (of_service s) (rows db))).

End Db.

(** ** api/handlers.py *)

Module Handlers.

(** [ApiResponse]. *)
Record ApiResponse : Type := {
  data : option pyval;
  error : option string;
  status_code : Z
}.

(** [ConfigurationHandler.get_configuration_history]. *)
Definition get_configuration_history (db : Db.backend) (s : string) : ApiResponse :=
  let history := Db.get_configuration_history db s in
  match history with
  | [] =>
      {| data := None;
         error := Some ("No configuration history found for service '" +:+ s +:+ "'");
         status_code := 404 |}
  | _ =>
      {| data := Some (PList (map Db.item_to_dict history));
         error := None;
         status_code := 200 |}
  end.

End Handlers.


(** ** Vocabulary of the statements *)

(** The valid document of [test_schema_validation]. *)
Definition cfg_valid : pydict :=
  [ (KStr "version", PInt 1);
    (KStr "database", PDict [(KStr "host", PStr "localhost"); (KStr "port", PInt 5432)]);
    (KStr "features", PDict [(KStr "enable_auth", PBool true)]) ].

(** The error of a dict schema whose required key ['version'] is not
    covered: "Missing key: 'version'". *)
Definition missing_version : schema_error :=
  MissingKeys [Required (KeyLit "version")].

(** No item of the dict has the [str] key [name]. *)
Definition lacks_key (name : string) (d : pydict) : Prop :=
  Forall (fun kv => is_str_key name (fst kv) = false) d.

(** A value that is none of [bool], [str], [int], [float]. *)
Definition bad_value (v : pyval) : bool :=
  negb (isinstance v Tbool || isinstance v Tstr
        || isinstance v Tint || isinstance v Tfloat).

(** A [features] entry breaking its rule: not an object, or an object
    holding a bad value. *)
Definition bad_features (f : pyval) : bool :=
  match f with
  | PDict items => existsb (fun kv => bad_value (snd kv)) items
  | _ => true
  end.

(** The code points [str.isspace] is true of. *)
Definition space_code_points : list N :=
  [ 9; 10; 11; 12; 13; 28; 29; 30; 31; 32; 133; 160; 5760;
    8192; 8193; 8194; 8195; 8196; 8197; 8198; 8199; 8200; 8201; 8202;
    8232; 8233; 8239; 8287; 12288 ]%N.

(** The text of a sequence of code points. *)
Fixpoint text_of (cps : list N) : string :=
  match cps with
  | [] => EmptyString
  | cp :: cps' => Json.utf8 cp +:+ text_of cps'
  end.

(** The text is made of whitespace characters only (the empty text is). *)
Definition whitespace_only (s : string) : Prop :=
  exists cps, Forall (fun cp => In cp space_code_points) cps /\ s = text_of cps.

(** Every character of the text satisfies [p]. *)
Fixpoint all_chars (p : ascii -> bool) (s : string) : bool :=
  match s with
  | EmptyString => true
  | String c r => p c && all_chars p r
  end.

(** The text of a float that [json.loads] reads back as the same float: the
    repr of an infinity, or a number literal with a fraction or an exponent.
    The repr of every finite float is such a literal; the repr ["nan"] is
    left out, a NaN being equal to no float. *)
Definition float_literal (r : string) : bool :=
  String.eqb r "inf" || String.eqb r "-inf" ||
  match Json.scan_number r with
  | Some (PFloat r', EmptyString) => String.eqb r' r
  | _ => false
  end.

(** The keys are [str] objects and no key comes twice. *)
Fixpoint str_keys_distinct (items : pydict) : bool :=
  match items with
  | [] => true
  | (KStr k, _) :: rest => negb (dict_has k rest) && str_keys_distinct rest
  | _ => false
  end.

(** A document as JSON has it: objects keyed by distinct strings, and no
    NaN. *)
Fixpoint json_safe (v : pyval) : bool :=
  match v with
  | PFloat r => float_literal r
  | PList l => forallb json_safe l
  | PDict items =>
      str_keys_distinct items && forallb (fun kv => json_safe (snd kv)) items
  | _ => true
  end.

(** The calls of the scanner a value takes. *)
Fixpoint scan_size (v : pyval) : nat :=
  match v with
  | PList l => S (list_sum (map (fun x => S (scan_size x)) l))
  | PDict items => S (list_sum (map (fun kv => S (scan_size (snd kv))) items))
  | _ => 1%nat
  end.

(** The key lists of the schemas, in the order [Schema.validate] tries them. *)
Definition features_skeys : list (dict_key * checker) :=
  [ (Required (KeyType Tstr),
     validate (SOr [SType Tbool; SType Tstr; SType Tint; SType Tfloat])) ].

Definition base_skeys : list (dict_key * checker) :=
  [ (Required (KeyLit "version"), validate version_schema);
    (Optional (KeyLit "database"), validate database_schema);
    (Optional (KeyLit "features"), validate features_schema);
    (Optional (KeyType Tstr), validate (SType Tobject)) ].

(** A document whose [features] section holds a list. *)
Definition cfg_bad_features : pydict :=
  [ (KStr "version", PInt 1);
    (KStr "database", PDict [(KStr "host", PStr "localhost"); (KStr "port", PInt 5432)]);
    (KStr "features", PDict [(KStr "limits", PList [PInt 1; PInt 2])]) ].

(** Descending order on rows, loose and strict. *)
Definition ge_version (a b : Db.row) : Prop := Db.row_version b <= Db.row_version a.
Definition gt_version (a b : Db.row) : Prop := Db.row_version b < Db.row_version a.

(** The table before any save. *)
Definition empty_backend : Db.backend := {| Db.rows := []; Db.next_id := 1 |}.

(** A table with two services. *)
Definition two_services : Db.backend :=
  {| Db.rows :=
       [ {| Db.row_id := 1; Db.row_service := "auth"; Db.row_version := 1;
            Db.row_payload := [(KStr "version", PInt 1)]; Db.row_created_at := "t1" |};
         {| Db.row_id := 2; Db.row_service := "billing"; Db.row_version := 1;
            Db.row_payload := [(KStr "version", PInt 1)]; Db.row_created_at := "t2" |};
         {| Db.row_id := 3; Db.row_service := "auth"; Db.row_version := 2;
            Db.row_payload := [(KStr "version", PInt 2)]; Db.row_created_at := "t3" |} ];
     Db.next_id := 4 |}.

(** The table after two saves of a document that carries version 1. *)
Definition duplicated_version : Db.backend :=
  {| Db.rows :=
       [ {| Db.row_id := 1; Db.row_service := "auth"; Db.row_version := 1;
            Db.row_payload := [(KStr "version", PInt 1)]; Db.row_created_at := "t1" |};
         {| Db.row_id := 2; Db.row_service := "auth"; Db.row_version := 1;
            Db.row_payload := [(KStr "version", PInt 1)]; Db.row_created_at := "t2" |} ];
     Db.next_id := 3 |}.

(** The fixed defaults of [process_template_request]. *)
Definition fixed_defaults : gmap string pyval :=
  <["user" := PStr "anonymous"]>
  (<["env" := PStr "development"]>
  (<["timestamp" := PStr ""]> ∅)).

(** A document with the opening delimiter of a comment in a string. *)
Definition doc_with_comment_marker : pydict := [(KStr "note", PStr "{#")].

(** The characters that may go on a number literal. *)
Definition number_char (c : ascii) : bool :=
  Json.is_digit c || byte_is c 46 || byte_is c 101 || byte_is c 69
  || byte_is c 43 || byte_is c 45.

(** The text after a token does not go on a number. *)
Definition token_end (rest : string) : Prop :=
  match rest with
  | EmptyString => True
  | String c _ => number_char c = false
  end.

(** The first character of an encoded value: not whitespace, not a closing
    bracket. *)
Definition value_head (s : string) : Prop :=
  match s with
  | String c _ => Json.is_ws c = false /\ byte_is c 93 = false /\ byte_is c 125 = false
  | EmptyString => False
  end.

(** The scanner reads the text of [v] back as [v], whatever ends the token
    follows it, with fuel for the calls [v] takes. *)
Definition reads_back (indent : option nat) (v : pyval) : Prop :=
  forall level rest fuel,
    token_end rest -> (scan_size v <= fuel)%nat ->
    Json.scan_once fuel (Json.encode indent level v +:+ rest) = Some (v, rest).

(** The text of one member of an object. *)
Definition member_chunk (indent : option nat) (level : nat) (kv : pykey * pyval) : string :=
  Json.encode_string (Json.key_text (fst kv)) +:+ ": " +:+ Json.encode indent level (snd kv).

(** Any character but the carriage return. *)
Definition not_cr (c : ascii) : bool := negb (byte_is c 13).

(** ** validation/validators.py and schemas.py: the remaining functions *)

(** An exception that reaches a caller: one of [exn], or the [TypeError] of
    a membership test on an object that is not a container. *)
Inductive raised : Type :=
| Exn (e : exn)
| TypeError (msg : string).

(** [ConfigValidator.validate_required_fields]. *)
Definition validate_required_fields (config_data : pydict) : bool :=
  match validate REQUIRED_FIELDS_SCHEMA (PDict config_data) with
  | None => true
  | Some _ => false
  end.

Module YAMLValidator.

Section WithLoader.
Variable safe_load : string -> yaml_outcome.

(** [YAMLValidator.validate_config]: [(is_valid, parsed_data, error_list)].
    A failed parse gives its one message and the schema is not consulted. *)
Definition validate_config (yaml_content : string)
  : raised + (bool * option pydict * list message) :=
  match Validators.parse_yaml safe_load yaml_content with
  | (false, _, parse_error) =>
      inr (false, None,
           [Text (match parse_error with
                  | Some e => if is_empty e then "Unknown parsing error" else e
                  | None => "Unknown parsing error"
                  end)])
  | (true, Some data, _) =>
      match ConfigValidator_validate data with
      | Raise e => inl (Exn e)
      | Ok (is_valid, schema_errors) => inr (is_valid, Some data, schema_errors)
      end
  | (true, None, _) =>
      inl (TypeError "argument of type 'NoneType' is not iterable")
  end.

(** [YAMLValidator.quick_yaml_check]. *)
Definition quick_yaml_check (yaml_content : string) : bool :=
  fst (fst (Validators.parse_yaml safe_load yaml_content)).

End WithLoader.

End YAMLValidator.

Module ConfigurationValidator.

(** [ConfigurationValidator.validate_yaml_config] hands over to
    [YAMLValidator.validate_config]. *)
Definition validate_yaml_config (safe_load : string -> yaml_outcome)
    (yaml_content : string) : raised + (bool * option pydict * list message) :=
  YAMLValidator.validate_config safe_load yaml_content.

(** [ConfigurationValidator.check_required_fields]. *)
Definition check_required_fields (config : pydict) : list string :=
  let errors :=
    match dict_get "version" config with
    | None => ["Missing required field: version"]
    | Some version =>
        if negb (isinstance version Tint)
           || match int_value version with Some z => z <? 1 | None => false end
        then ["Field 'version' must be a positive integer"]
        else []
    end in
  match dict_get "database" config with
  | Some (PDict db) =>
      errors
      ++ (if dict_has "host" db then [] else ["Missing required field: database.host"])
      ++ (if dict_has "port" db then [] else ["Missing required field: database.port"])
  | Some _ => errors ++ ["Field 'database' must be an object"]
  | None => errors
  end.

End ConfigurationValidator.

(** ** db/models.py: the JSON body of a response *)

Module Models.

(** What [ApiResponse.to_json] serializes: [{'error': ...}] when the error
    is a non-empty text, the data otherwise ([None] when there is none). *)
Definition response_data (r : Handlers.ApiResponse) : pyval :=
  let data := match Handlers.data r with Some d => d | None => PNone end in
  match Handlers.error r with
  | Some e => if is_empty e then data else PDict [(KStr "error", PStr e)]
  | None => data
  end.

(** [ApiResponse.to_json]. *)
Definition to_json (r : Handlers.ApiResponse) : string :=
  Json.dumps (Some 2%nat) (response_data r).

End Models.

(** ** templates/renderer.py: the filters *)

Module Filters.

(** [TemplateRenderer._to_json_filter]. *)
Definition to_json_filter (value : pyval) : string :=
  Json.dumps (Some 2%nat) value.

(** [TemplateRenderer._from_json_filter]: the decoded value, or the argument
    itself when it is not a text or not JSON. *)
Definition from_json_filter (value : pyval) : pyval :=
  match value with
  | PStr s =>
      match Json.loads s with
      | Some v => v
      | None => value
      end
  | _ => value
  end.

End Filters.

(** ** api/handlers.py: creation and retrieval *)

Module ConfigurationHandler.

Section WithCollaborators.
Variable safe_load : string -> yaml_outcome.
(** [str(e)] of an error of the schema library, and of an exception. *)
Variable schema_error_text : schema_error -> string.
Variable exception_text : raised -> string.

Definition message_text (m : message) : string :=
  match m with
  | Text s => s
  | ValidationError e => "Validation error: " +:+ schema_error_text e
  end.

(** The answer of an [except Exception] clause. *)
Definition internal_error (e : raised) : Handlers.ApiResponse :=
  {| Handlers.data := None;
     Handlers.error := Some ("Internal server error: " +:+ exception_text e);
     Handlers.status_code := 500 |}.

(** [ConfigurationHandler.create_configuration], with the table before and
    after.  [None] where [save_configuration] is outside the model. *)
Definition create_configuration (db : Db.backend) (now : string)
    (service yaml_content : string) : option (Handlers.ApiResponse * Db.backend) :=
  match YAMLValidator.validate_config safe_load yaml_content with
  | inl e => Some (internal_error e, db)
  | inr (false, _, errors) =>
      Some ({| Handlers.data := None;
               Handlers.error :=
                 Some ("Validation errors: "
                       +:+ Json.join "; " (map message_text errors));
               Handlers.status_code := 422 |}, db)
  | inr (true, Some config_data, _) =>
      match Db.save_configuration db now service config_data with
      | Some (config_model, db') =>
          Some ({| Handlers.data :=
                     Some (PDict [ (KStr "service", PStr service);
                                   (KStr "version", Db.version config_model);
                                   (KStr "status", PStr "saved") ]);
                   Handlers.error := None;
                   Handlers.status_code := 201 |}, db')
      | None => None
      end
  | inr (true, None, _) =>
      Some (internal_error (Exn (AttributeError PNone "get")), db)
  end.

(** [ConfigurationHandler.get_configuration].  [None] where the template is
    outside the modelled fragment. *)
Definition get_configuration (db : Db.backend) (service : string)
    (version : option Z) (use_template : bool)
    (template_params : gmap string pyval) : option Handlers.ApiResponse :=
  match Db.get_configuration db service version with
  | None =>
      Some {| Handlers.data := None;
              Handlers.error :=
                Some ("Configuration not found for service '" +:+ service +:+ "'"
                      +:+ match version with
                          | Some v =>
                              if v =? 0 then "" else " version " +:+ Json.int_repr v
                          | None => ""
                          end);
              Handlers.status_code := 404 |}
  | Some config_model =>
      let config_data := Db.payload config_model in
      if use_template then
        match Renderer.process_template_request config_data template_params with
        | None => None
        | Some (Raise template_error) =>
            Some {| Handlers.data := None;
                    Handlers.error :=
                      Some ("Template processing failed: "
                            +:+ exception_text (Exn template_error));
                    Handlers.status_code := 400 |}
        | Some (Ok rendered) =>
            Some {| Handlers.data := Some rendered;
                    Handlers.error := None;
                    Handlers.status_code := 200 |}
        end
      else
        Some {| Handlers.data := Some (PDict config_data);
                Handlers.error := None;
                Handlers.status_code := 200 |}
  end.

End WithCollaborators.

End ConfigurationHandler.

(** ** api/resources.py: what a request hands to the handlers *)

Module Resources.

(** One entry of [_parse_query_params]: the value itself when the parameter
    comes once, the list of its values otherwise. *)
Definition param_value (values : list string) : pyval :=
  match values with
  | [v] => PStr v
  | _ => PList (map PStr values)
  end.

(** [BaseResource._parse_query_params]. *)
Definition parse_query_params (args : gmap string (list string))
  : gmap string pyval :=
  param_value <$> args.

(** [ConfigResource.render_GET]: [params.get('template') == '1']. *)
Definition use_template (params : gmap string pyval) : bool :=
  match params !! "template" with
  | Some (PStr s) => String.eqb s "1"
  | _ => false
  end.

(** [ConfigResource.render_GET]: the parameters of the template are the
    parameters of the request but ['version'] and ['template']. *)
Definition template_params_of (params : gmap string pyval) : gmap string pyval :=
  base.filter (fun kv : string * pyval => fst kv <> "version" /\ fst kv <> "template")
    params.

Section WithCollaborators.
Variable safe_load : string -> yaml_outcome.
Variable schema_error_text : schema_error -> string.
Variable exception_text : raised -> string.

(** [ConfigResource.render_POST] on the body of the request: a blank body is
    answered at once, any other goes to the handler. *)
Definition render_POST (db : Db.backend) (now : string)
    (service_name yaml_content : string)
  : option (Handlers.ApiResponse * Db.backend) :=
  if is_empty (strip yaml_content) then
    Some ({| Handlers.data := None;
             Handlers.error := Some "Empty request body";
             Handlers.status_code := 400 |}, db)
  else
    ConfigurationHandler.create_configuration safe_load schema_error_text
      exception_text db now service_name yaml_content.

End WithCollaborators.

End Resources.

(** ** Vocabulary of the further properties *)

(** A host the checks on the [database] section let pass: a non-empty text. *)
Definition acceptable_host (v : pyval) : Prop :=
  exists s, v = PStr s /\ s <> "".

(** A port they let pass: an integer from 1 to 65535, where [True] counts
    as 1, being an [int] for the builtin [isinstance]. *)
Definition acceptable_port (v : pyval) : Prop :=
  exists n, int_value v = Some n /\ 1 <= n <= 65535.

(** [d.get(name)]. *)
Definition get_or_none (name : string) (d : pydict) : pyval :=
  match dict_get name d with Some v => v | None => PNone end.

(** Every key of the dict is a [str]. *)
Definition str_keys (d : pydict) : Prop :=
  Forall (fun kv => exists s, fst kv = KStr s) d.

(** The key lists of the required-fields schema and of the [database]
    schema, in the order [Schema.validate] tries them. *)
Definition required_skeys : list (dict_key * checker) :=
  [ (Required (KeyLit "version"), validate (SType Tint));
    (Optional (KeyType Tstr), validate (SType Tobject)) ].

Definition database_skeys : list (dict_key * checker) :=
  [ (Required (KeyLit "host"), validate (SAnd [SType Tstr; SCall "len" len_nonzero]));
    (Required (KeyLit "port"),
     validate (SAnd [SType Tint; SCall "<lambda>" port_in_range])) ].

(** The document carries no version: the key is absent or its value null. *)
Definition no_version (doc : pydict) : Prop :=
  is_none (get_or_none "version" doc) = true.

(** The row a save appends. *)
Definition saved_row (db : Db.backend) (now s : string) (v : Z) (p : pydict) : Db.row :=
  {| Db.row_id := Db.next_id db; Db.row_service := s; Db.row_version := v;
     Db.row_payload := p; Db.row_created_at := now |}.

(** Saves of the documents one after the other, each at its own time. *)
Fixpoint save_each (db : Db.backend) (s : string) (docs : list (string * pydict))
  : option (list Db.ConfigurationModel * Db.backend) :=
  match docs with
  | [] => Some ([], db)
  | (now, doc) :: rest =>
      match Db.save_configuration db now s doc with
      | None => None
      | Some (m, db1) =>
          match save_each db1 s rest with
          | None => None
          | Some (ms, db2) => Some (m :: ms, db2)
          end
      end
  end.

(** The body of the answer to a successful creation. *)
Definition saved_body (s : string) (v : Z) : pyval :=
  PDict [ (KStr "service", PStr s); (KStr "version", PInt v);
          (KStr "status", PStr "saved") ].

(** The answer that carries a document. *)
Definition ok_response (v : pyval) : Handlers.ApiResponse :=
  {| Handlers.data := Some v; Handlers.error := None; Handlers.status_code := 200 |}.

(** The row is one of service [s], and of version [version] when one is
    asked for. *)
Definition row_matches (s : string) (version : option Z) (r : Db.row) : Prop :=
  Db.row_service r = s /\
  match version with Some v => Db.row_version r = v | None => True end.

(** The text holds none of the opening delimiters of the template language. *)
Definition no_delimiters (text : string) : Prop :=
  contains "{{" text = false /\ contains "{%" text = false /\
  contains "{#" text = false.

(** The tables the service can be in: the empty one, and what a creation
    request makes of such a table. *)
Inductive served (safe_load : string -> yaml_outcome)
    (schema_error_text : schema_error -> string)
    (exception_text : raised -> string) : Db.backend -> Prop :=
| served_start : served safe_load schema_error_text exception_text empty_backend
| served_post db db' now s text resp :
    served safe_load schema_error_text exception_text db ->
    ConfigurationHandler.create_configuration safe_load schema_error_text
      exception_text db now s text = Some (resp, db') ->
    served safe_load schema_error_text exception_text db'.

(** A loader for the examples: it knows two texts. *)
Definition example_loader (text : string) : yaml_outcome :=
  if String.eqb text "valid" then Loaded (PDict cfg_valid)
  else if String.eqb text "list" then Loaded (PList [PInt 1])
  else ScannerError "mapping values are not allowed here".

(** Texts for the examples, in place of those of the libraries. *)
Definition example_schema_text (e : schema_error) : string := "schema error".
Definition example_exception_text (e : raised) : string := "exception".

(** The opening delimiter of a print statement or of a block: an opening
    brace and a second character. *)
Definition opener (c : ascii) : string := String "{" (String c EmptyString).

(** The text ends with an opening brace. *)
Fixpoint ends_with_brace (s : string) : bool :=
  match s with
  | EmptyString => false
  | String a EmptyString => Ascii.eqb "{" a
  | String _ r => ends_with_brace r
  end.

(** The text begins with the character [c]. *)
Definition starts_with (c : ascii) (s : string) : bool :=
  match s with
  | String a _ => Ascii.eqb c a
  | EmptyString => false
  end.

(** A character that is neither an opening brace nor a percent sign. *)
Definition no_opener_char (c : ascii) : bool :=
  negb (byte_is c 123) && negb (byte_is c 37).

(** A text that is not empty and does not end with an opening brace. *)
Definition closed_text (s : string) : Prop :=
  is_empty s = false /\ ends_with_brace s = false.

(** * Properties *)

(** ** Texts *)

Lemma append_assoc (a b c : string) : (a +:+ b) +:+ c = a +:+ (b +:+ c).
Proof. induction a as [|x a IH]; simpl; [reflexivity|now rewrite IH]. Qed.

Lemma append_empty_r s : s +:+ "" = s.
Proof. induction s as [|x s IH]; simpl; [reflexivity|now rewrite IH]. Qed.

Lemma length_append (a b : string) :
  String.length (a +:+ b) = (String.length a + String.length b)%nat.
Proof. induction a as [|x a IH]; simpl; [reflexivity|now rewrite IH]. Qed.

(** ** The schema validator *)

Lemma dict_get_none_lacks name d :
  dict_get name d = None -> lacks_key name d.
Proof.
  induction d as [|[k v] d IH]; simpl; intros H.
  - constructor.
  - destruct (is_str_key name k) eqn:E; [discriminate|].
    constructor; [exact E | apply IH, H].
Qed.

Lemma lacks_key_dicts_last name d :
  lacks_key name d -> lacks_key name (dicts_last d).
Proof.
  unfold lacks_key, dicts_last. rewrite !List.Forall_forall.
  intros H x Hx. apply List.in_app_or in Hx.
  destruct Hx as [Hx|Hx]; apply List.filter_In in Hx; apply H, Hx.
Qed.

Lemma In_dicts_last (kv : pykey * pyval) d :
  In kv d <-> In kv (dicts_last d).
Proof.
  unfold dicts_last. rewrite List.in_app_iff, !List.filter_In.
  destruct (is_dict (snd kv)); simpl; intuition congruence.
Qed.

Lemma object_accepts v : schema_type_check v Tobject = true.
Proof. destruct v; reflexivity. Qed.

(** The outer loop of the required-fields schema on items without a
    ['version'] key never covers the required key. *)
Lemma required_loop_without_version items :
  lacks_key "version" items ->
  forall coverage new,
    existsb (dict_key_eqb (Required (KeyLit "version"))) coverage = false ->
    exists coverage' new',
      check_items
        [ (Required (KeyLit "version"), validate (SType Tint));
          (Optional (KeyType Tstr), validate (SType Tobject)) ]
        items coverage new = inr (coverage', new') /\
      existsb (dict_key_eqb (Required (KeyLit "version"))) coverage' = false.
Proof.
  induction 1 as [|[k v] items Hk _ IH]; intros coverage new Hc; simpl.
  - eauto.
  - simpl in Hk. rewrite Hk.
    destruct (schema_type_check (key_val k) Tstr).
    + simpl. rewrite object_accepts. apply IH. simpl. exact Hc.
    + apply IH, Hc.
Qed.

Lemma required_schema_without_version d :
  dict_get "version" d = None ->
  validate REQUIRED_FIELDS_SCHEMA (PDict d) = Some missing_version.
Proof.
  intros H. apply dict_get_none_lacks, lacks_key_dicts_last in H.
  destruct (required_loop_without_version _ H [] [] eq_refl)
    as (coverage & new & Hloop & Hcov).
  unfold REQUIRED_FIELDS_SCHEMA, validate, validate_dict.
  cbn [map fst snd sorted_by fold_right insert_by dict_key_priority
       pattern_priority Nat.leb].
  fold (validate (SType Tint)) (validate (SType Tobject)).
  rewrite Hloop. cbn [filter is_optional negb]. rewrite Hcov. reflexivity.
Qed.

Lemma database_checks_extend db errors :
  exists more, database_checks (PDict db) errors = Ok (errors ++ more).
Proof.
  unfold database_checks, py_get.
  set (host := match dict_get "host" db with Some v => v | None => PNone end).
  set (port := match dict_get "port" db with Some v => v | None => PNone end).
  destruct (negb (truthy host) || negb (isinstance host Tstr));
    destruct (negb (isinstance port Tint) || negb (port_in_range port)).
  - exists [host_message; port_message]. now rewrite <- List.app_assoc.
  - exists [host_message]. reflexivity.
  - exists [port_message]. reflexivity.
  - exists []. now rewrite List.app_nil_r.
Qed.

(** Once the schema check has raised, the outcome is invalid whatever the
    checks on the [database] section add. *)
Lemma invalid_once_schema_raises d e :
  validate_config_schema d = Raise (SchemaError (ValidationError e)) ->
  (forall x, dict_get "database" d = Some x -> is_dict x = true) ->
  exists rest, ConfigValidator_validate d = Ok (false, ValidationError e :: rest).
Proof.
  intros Hraise Hdb. unfold ConfigValidator_validate, get_validation_errors.
  rewrite Hraise.
  destruct (dict_get "database" d) as [x|] eqn:E.
  - specialize (Hdb x eq_refl). destruct x; try discriminate.
    destruct (database_checks_extend items [ValidationError e]) as [more ->].
    exists more. reflexivity.
  - exists []. reflexivity.
Qed.

(** The documents of the tests. *)
Example test_schema_validation_valid :
  ConfigValidator_validate cfg_valid = Ok (true, []).
Proof. reflexivity. Qed.

Example test_template_syntax_detection :
  Renderer.has_template_syntax
    [ (KStr "version", PInt 1);
      (KStr "welcome_message", PStr "Hello {{ user }}!");
      (KStr "database", PDict [(KStr "host", PStr "{{ db_host }}"); (KStr "port", PInt 5432)]) ]
  = true /\
  Renderer.has_template_syntax
    [ (KStr "version", PInt 1);
      (KStr "database", PDict [(KStr "host", PStr "localhost"); (KStr "port", PInt 5432)]) ]
  = false.
Proof. split; vm_compute; reflexivity. Qed.

(** C2. Scenario B: the document with port 99999 and no version is invalid,
    and the one outcome holds the missing-version violation and the
    port-range violation together. *)
Theorem scenario_b_two_violations :
  ConfigValidator_validate
    [ (KStr "database",
       PDict [(KStr "host", PStr "localhost"); (KStr "port", PInt 99999)]) ]
  = Ok (false, [ValidationError missing_version; port_message]).
Proof. reflexivity. Qed.

(** C1, counterexample.  The document of [test_schema_validation] has no
    ['version'] field and a correct [database] section; the validator reports
    it invalid, for the missing version alone. *)
Lemma absent_version_rejected :
  dict_has "version"
    [ (KStr "database",
       PDict [(KStr "host", PStr "localhost"); (KStr "port", PInt 5432)]) ] = false /\
  ConfigValidator_validate
    [ (KStr "database",
       PDict [(KStr "host", PStr "localhost"); (KStr "port", PInt 5432)]) ]
  = Ok (false, [ValidationError missing_version]).
Proof. split; reflexivity. Qed.

(** C1, amended.  For every parsed document with no ['version'] field (whose
    [database] entry, if there is one, is an object) the validator reports
    the document invalid, and the first error of the outcome is the
    missing-key violation for ['version']. *)
Theorem absent_version_is_reported (config_data : pydict) :
  dict_get "version" config_data = None ->
  (forall x, dict_get "database" config_data = Some x -> is_dict x = true) ->
  exists rest,
    ConfigValidator_validate config_data
    = Ok (false, ValidationError missing_version :: rest).
Proof.
  intros Hv Hdb. apply invalid_once_schema_raises; [|exact Hdb].
  unfold validate_config_schema.
  now rewrite (required_schema_without_version _ Hv).
Qed.

Lemma absent_version_is_reported_witness :
  exists rest,
    ConfigValidator_validate [(KStr "name", PStr "auth")]
    = Ok (false, ValidationError missing_version :: rest).
Proof.
  apply (absent_version_is_reported [(KStr "name", PStr "auth")]).
  - reflexivity.
  - intros x H. discriminate H.
Defined.

(** ** The [features] rule *)

Lemma dicts_last_length d : List.length (dicts_last d) = List.length d.
Proof.
  unfold dicts_last. rewrite List.length_app.
  induction d as [|[k v] d IH]; simpl; [reflexivity|].
  destruct (is_dict v); simpl; lia.
Qed.

(** [new] grows by at most one key per item. *)
Lemma check_items_new_bound skeys items :
  forall coverage new coverage' new',
    check_items skeys items coverage new = inr (coverage', new') ->
    (List.length new' <= List.length new + List.length items)%nat.
Proof.
  induction items as [|[k v] items IH]; simpl; intros coverage new coverage' new' H.
  - injection H as _ <-. lia.
  - destruct (match_item skeys k v) as [[sk [e|]]|].
    + discriminate.
    + apply IH in H. destruct (existsb (pykey_eqb k) new);
        [|rewrite List.length_app in H; simpl in H]; lia.
    + apply IH in H. lia.
Qed.

Lemma bad_value_rejected v :
  bad_value v = true ->
  validate (SOr [SType Tbool; SType Tstr; SType Tint; SType Tfloat]) v
  = Some (OrFailed v).
Proof. destruct v; simpl; intros H; try discriminate H; reflexivity. Qed.

(** On items holding a bad value the loop of the features schema either
    raises or leaves a data key out of [new]. *)
Lemma features_loop_bad items :
  existsb (fun kv => bad_value (snd kv)) items = true ->
  forall coverage new,
    (exists e, check_items features_skeys items coverage new = inl e) \/
    (exists coverage' new',
        check_items features_skeys items coverage new = inr (coverage', new') /\
        (List.length new' < List.length new + List.length items)%nat).
Proof.
  induction items as [|[k v] items IH]; [discriminate|].
  intros Hbad coverage new.
  cbn [existsb snd] in Hbad.
  cbn [check_items match_item features_skeys key_matches key_pattern_of List.length].
  destruct (schema_type_check (key_val k) Tstr) eqn:Ek.
  - destruct (bad_value v) eqn:Ev.
    + rewrite (bad_value_rejected _ Ev). left. eauto.
    + cbn [orb] in Hbad.
      destruct (validate _ v); [left; eauto|].
      match goal with |- context [check_items _ _ ?c ?n] =>
        destruct (IH Hbad c n) as [[e He]|(c' & n' & He & Hlen)] end.
      * left. eauto.
      * right. exists c', n'. split; [exact He|].
        destruct (existsb (pykey_eqb k) new);
          [|rewrite List.length_app in Hlen; simpl in Hlen]; lia.
  - destruct (check_items features_skeys items coverage new)
      as [e|[c' n']] eqn:He; [left; eauto|].
    right. exists c', n'. split; [reflexivity|].
    apply check_items_new_bound in He. lia.
Qed.

Lemma validate_features d :
  validate features_schema (PDict d) = validate_dict features_skeys (PDict d).
Proof. reflexivity. Qed.

Lemma features_skeys_sorted :
  sorted_by (fun e : dict_key * checker => dict_key_priority (fst e)) features_skeys
  = features_skeys.
Proof. reflexivity. Qed.

Lemma features_schema_rejects f :
  bad_features f = true -> exists e, validate features_schema f = Some e.
Proof.
  destruct f; intros Hbad; try (eexists; reflexivity).
  cbn [bad_features] in Hbad.
  assert (Hbad' : existsb (fun kv => bad_value (snd kv)) (dicts_last items) = true).
  { apply List.existsb_exists in Hbad as (kv & Hin & Hkv).
    apply List.existsb_exists. exists kv. split; [|exact Hkv].
    apply (proj1 (In_dicts_last _ _)), Hin. }
  rewrite validate_features. unfold validate_dict.
  rewrite features_skeys_sorted.
  destruct (features_loop_bad _ Hbad' [] []) as [[e He]|(c' & n' & He & Hlen)];
    rewrite He; [eauto|].
  destruct (filter _ (filter _ _)); [|eauto].
  rewrite dicts_last_length in Hlen. cbn [List.length Nat.add] in Hlen.
  apply Nat.lt_neq, Nat.eqb_neq in Hlen. rewrite Hlen. eauto.
Qed.

Lemma validate_base d :
  validate BASE_CONFIG_SCHEMA (PDict d) = validate_dict base_skeys (PDict d).
Proof. reflexivity. Qed.

Lemma base_skeys_sorted :
  sorted_by (fun e : dict_key * checker => dict_key_priority (fst e)) base_skeys
  = base_skeys.
Proof. reflexivity. Qed.

Lemma match_item_features f :
  match_item base_skeys (KStr "features") f
  = Some (Optional (KeyLit "features"), validate features_schema f).
Proof. reflexivity. Qed.

(** The loop of the full schema raises at a [features] item at the latest. *)
Lemma base_loop_rejects f e items :
  validate features_schema f = Some e ->
  In (KStr "features", f) items ->
  forall coverage new,
    exists e', check_items base_skeys items coverage new = inl e'.
Proof.
  intros Hf. induction items as [|[k v] items IH]; intros Hin coverage new.
  - destruct Hin.
  - cbn [check_items].
    destruct (match_item base_skeys k v) as [[sk [e'|]]|] eqn:Em.
    + eauto.
    + destruct Hin as [Heq|Hin]; [|apply IH, Hin].
      injection Heq as -> ->. rewrite match_item_features, Hf in Em. discriminate.
    + destruct Hin as [Heq|Hin]; [|apply IH, Hin].
      injection Heq as -> ->. rewrite match_item_features, Hf in Em. discriminate.
Qed.

Lemma dict_get_In name d v :
  dict_get name d = Some v -> In (KStr name, v) d.
Proof.
  induction d as [|[k w] d IH]; simpl; [discriminate|].
  destruct k; simpl; try (intros H; right; apply IH, H).
  destruct (String.eqb s name) eqn:E.
  - apply String.eqb_eq in E as ->. intros [= ->]. now left.
  - intros H; right; apply IH, H.
Qed.

Lemma dict_get_unique name d v :
  NoDup (map fst d) -> In (KStr name, v) d -> dict_get name d = Some v.
Proof.
  induction d as [|[k w] d IH]; simpl; intros Hnd Hin; [destruct Hin|].
  apply List.NoDup_cons_iff in Hnd as [Hk Hnd].
  destruct Hin as [[= -> ->]|Hin].
  - simpl. now rewrite String.eqb_refl.
  - destruct (is_str_key name k) eqn:E; [|apply IH; assumption].
    destruct k; try discriminate E. simpl in E.
    apply String.eqb_eq in E as ->.
    exfalso. apply Hk. apply (List.in_map fst) in Hin. exact Hin.
Qed.

(** With sound [version] and [database] entries the first item the loop
    refuses is the [features] one. *)
Lemma base_loop_features_first e items :
  (forall v, In (KStr "version", v) items -> validate version_schema v = None) ->
  (forall x, In (KStr "database", x) items -> validate database_schema x = None) ->
  (forall x, In (KStr "features", x) items -> validate features_schema x = Some e) ->
  (exists x, In (KStr "features", x) items) ->
  forall coverage new,
    check_items base_skeys items coverage new = inl (KeyError (KStr "features") e).
Proof.
  induction items as [|[k v] items IH]; intros Hv Hd Hf [x Hx] coverage new.
  - destruct Hx.
  - assert (Htail : forall s, String.eqb s "features" = false ->
              k = KStr s -> exists x, In (KStr "features", x) items).
    { intros s Es ->. destruct Hx as [[= -> ->]|Hx]; [|eauto].
      discriminate Es. }
    assert (Hrec : forall c n, (forall s, k = KStr s -> String.eqb s "features" = false) ->
              check_items base_skeys items c n = inl (KeyError (KStr "features") e)).
    { intros c n Hk. apply IH.
      - intros; apply Hv; now right.
      - intros; apply Hd; now right.
      - intros; apply Hf; now right.
      - destruct Hx as [[= -> ->]|Hx]; [|eauto].
        specialize (Hk _ eq_refl). discriminate Hk. }
    cbn [check_items match_item base_skeys key_matches key_pattern_of is_str_key].
    destruct k as [s| | | |]; cbn [is_str_key key_val schema_type_check isinstance
                                   andb negb];
      try (apply Hrec; intros ? [=]).
    destruct (String.eqb s "version") eqn:E1.
    { apply String.eqb_eq in E1 as ->. rewrite (Hv v) by now left.
      apply Hrec. intros ? [= <-]. reflexivity. }
    destruct (String.eqb s "database") eqn:E2.
    { apply String.eqb_eq in E2 as ->. rewrite (Hd v) by now left.
      apply Hrec. intros ? [= <-]. reflexivity. }
    destruct (String.eqb s "features") eqn:E3.
    { apply String.eqb_eq in E3 as ->. rewrite (Hf v) by now left. reflexivity. }
    change (validate (SType Tobject) v)
      with (if schema_type_check v Tobject then None else Some (WrongType v Tobject)).
    rewrite object_accepts. apply Hrec. intros ? [= <-]. exact E3.
Qed.

(** C4, counterexample.  A document with a version and a [features] entry
    that is a string, and no [database] section: the full schema is not
    consulted and the outcome is valid. *)
Lemma features_unchecked_without_database :
  dict_get "features" [(KStr "version", PInt 1); (KStr "features", PStr "on")]
    = Some (PStr "on") /\
  bad_features (PStr "on") = true /\
  ConfigValidator_validate [(KStr "version", PInt 1); (KStr "features", PStr "on")]
    = Ok (true, []).
Proof. repeat split; reflexivity. Qed.

(** C4, amended.  For every document that holds a [database] object and a
    [features] entry that is not an object, or is an object holding a value
    that is none of boolean, string, integer or float, the validator reports
    the document invalid.  When, besides, the document passes the
    required-fields schema and its [version] and [database] entries satisfy
    their own rules, the first error of the outcome is the violation of the
    [features] rule. *)
Theorem bad_features_rejected_with_database (config_data db : pydict) (f : pyval) :
  dict_get "database" config_data = Some (PDict db) ->
  dict_get "features" config_data = Some f ->
  bad_features f = true ->
  (exists errors, ConfigValidator_validate config_data = Ok (false, errors)) /\
  (NoDup (map fst config_data) ->
   validate REQUIRED_FIELDS_SCHEMA (PDict config_data) = None ->
   (forall v, dict_get "version" config_data = Some v ->
              validate version_schema v = None) ->
   validate database_schema (PDict db) = None ->
   exists e rest,
     validate features_schema f = Some e /\
     ConfigValidator_validate config_data
     = Ok (false, ValidationError (KeyError (KStr "features") e) :: rest)).
Proof.
  intros Hdb Hfe Hbad.
  destruct (features_schema_rejects _ Hbad) as [e He].
  assert (Hobj : forall x, dict_get "database" config_data = Some x -> is_dict x = true).
  { intros x Hx. rewrite Hdb in Hx. now injection Hx as <-. }
  split.
  - assert (exists e', validate_config_schema config_data
                       = Raise (SchemaError (ValidationError e'))) as [e' He'].
    { unfold validate_config_schema, dict_has. rewrite Hdb.
      destruct (validate REQUIRED_FIELDS_SCHEMA _); [eauto|].
      rewrite validate_base. unfold validate_dict. rewrite base_skeys_sorted.
      destruct (base_loop_rejects f e (dicts_last config_data) He) with
        (coverage := @nil dict_key) (new := @nil pykey) as [e' ->]; [|eauto].
      apply (proj1 (In_dicts_last _ _)), dict_get_In, Hfe. }
    destruct (invalid_once_schema_raises _ _ He' Hobj) as [rest Hrest]. eauto.
  - intros Hnd Hreq Hver Hdbok. exists e.
    assert (Hraise : validate_config_schema config_data
                     = Raise (SchemaError (ValidationError (KeyError (KStr "features") e)))).
    { unfold validate_config_schema, dict_has. rewrite Hreq, Hdb, validate_base.
      unfold validate_dict. rewrite base_skeys_sorted.
      rewrite (base_loop_features_first e); [reflexivity| | | |].
      - intros v Hv. apply Hver, dict_get_unique; [exact Hnd|].
        apply (proj2 (In_dicts_last _ _)), Hv.
      - intros x Hx. apply (proj2 (In_dicts_last _ _)) in Hx.
        apply (dict_get_unique _ _ _ Hnd) in Hx.
        rewrite Hdb in Hx. injection Hx as <-. exact Hdbok.
      - intros x Hx. apply (proj2 (In_dicts_last _ _)) in Hx.
        apply (dict_get_unique _ _ _ Hnd) in Hx.
        rewrite Hfe in Hx. injection Hx as <-. exact He.
      - exists f. apply (proj1 (In_dicts_last _ _)), dict_get_In, Hfe. }
    destruct (invalid_once_schema_raises _ _ Hraise Hobj) as [rest Hrest]. eauto.
Qed.

Lemma bad_features_rejected_with_database_witness :
  (exists errors, ConfigValidator_validate cfg_bad_features = Ok (false, errors)) /\
  exists e rest,
    validate features_schema (PDict [(KStr "limits", PList [PInt 1; PInt 2])]) = Some e /\
    ConfigValidator_validate cfg_bad_features
    = Ok (false, ValidationError (KeyError (KStr "features") e) :: rest).
Proof.
  destruct (bad_features_rejected_with_database cfg_bad_features
              [(KStr "host", PStr "localhost"); (KStr "port", PInt 5432)]
              (PDict [(KStr "limits", PList [PInt 1; PInt 2])])
              eq_refl eq_refl eq_refl) as [H1 H2].
  split; [exact H1|]. apply H2.
  - repeat constructor; simpl; intuition discriminate.
  - reflexivity.
  - intros v [= <-]. reflexivity.
  - reflexivity.
Defined.

(** ** The versioned store *)

Module StoreFacts.
Import Db.

Lemma insert_desc_In x y l : In y (insert_desc x l) <-> y = x \/ In y l.
Proof.
  induction l as [|z l IH]; simpl.
  - intuition.
  - destruct (row_version z <=? row_version x); simpl; [intuition|].
    rewrite IH. intuition.
Qed.

Lemma order_by_In y l : In y (order_by_version_desc l) <-> In y l.
Proof.
  induction l as [|x l IH]; simpl; [reflexivity|].
  rewrite insert_desc_In, IH. intuition.
Qed.

Lemma insert_desc_sorted x l :
  StronglySorted ge_version l ->
  StronglySorted ge_version (insert_desc x l).
Proof.
  induction 1 as [|y l Hs IH Hy]; simpl.
  - repeat constructor.
  - destruct (row_version y <=? row_version x) eqn:E.
    + apply Z.leb_le in E. constructor; [constructor; assumption|].
      constructor; [exact E|].
      eapply List.Forall_impl; [|exact Hy]. unfold ge_version. intros; lia.
    + apply Z.leb_gt in E. constructor; [exact IH|].
      apply List.Forall_forall. intros z Hz. apply (proj1 (insert_desc_In _ _ _)) in Hz.
      destruct Hz as [->|Hz]; [unfold ge_version; lia|].
      rewrite List.Forall_forall in Hy. apply Hy, Hz.
Qed.

Lemma order_by_sorted l :
  StronglySorted ge_version (order_by_version_desc l).
Proof.
  induction l as [|x l IH]; simpl; [constructor|].
  apply insert_desc_sorted, IH.
Qed.

Lemma insert_desc_strict x l :
  StronglySorted gt_version l ->
  ~ In (row_version x) (map row_version l) ->
  StronglySorted gt_version (insert_desc x l).
Proof.
  induction 1 as [|y l Hs IH Hy]; simpl; intros Hx.
  - repeat constructor.
  - destruct (row_version y <=? row_version x) eqn:E.
    + apply Z.leb_le in E.
      assert (row_version y < row_version x) by lia.
      constructor; [constructor; assumption|].
      constructor; [assumption|].
      eapply List.Forall_impl; [|exact Hy]. unfold gt_version. intros; lia.
    + apply Z.leb_gt in E. constructor; [apply IH; tauto|].
      apply List.Forall_forall. intros z Hz. apply (proj1 (insert_desc_In _ _ _)) in Hz.
      destruct Hz as [->|Hz]; [exact E|].
      rewrite List.Forall_forall in Hy. apply Hy, Hz.
Qed.

Lemma order_by_strict l :
  NoDup (map row_version l) ->
  StronglySorted gt_version (order_by_version_desc l).
Proof.
  induction l as [|x l IH]; simpl; intros Hnd; [constructor|].
  apply List.NoDup_cons_iff in Hnd as [Hx Hnd].
  apply insert_desc_strict; [apply IH, Hnd|].
  intros Hin. apply Hx. apply List.in_map_iff in Hin as (y & Hy & Hin).
  apply (proj1 (order_by_In _ _)) in Hin. rewrite <- Hy. now apply List.in_map.
Qed.

Lemma filter_service_In r s l :
  In r (filter (of_service s) l) <-> In r l /\ row_service r = s.
Proof.
  rewrite List.filter_In. unfold of_service.
  split; intros [H1 H2]; split; try assumption.
  - now apply String.eqb_eq.
  - now apply String.eqb_eq.
Qed.

Lemma filter_nil {A} (f : A -> bool) l :
  (forall x, In x l -> f x = false) -> filter f l = [].
Proof.
  induction l as [|x l IH]; simpl; intros H; [reflexivity|].
  rewrite (H x) by now left. apply IH. intros; apply H; now right.
Qed.

Lemma fold_max_ge vs : forall v, v <= fold_left Z.max vs v.
Proof.
  induction vs as [|w vs IH]; simpl; intros v; [lia|].
  specialize (IH (Z.max v w)). lia.
Qed.

Lemma fold_max_bound vs : forall v x, In x vs -> x <= fold_left Z.max vs v.
Proof.
  induction vs as [|w vs IH]; simpl; intros v x [].
  - subst. pose proof (fold_max_ge vs (Z.max v x)). lia.
  - now apply IH.
Qed.

Lemma fold_max_In vs : forall v, In (fold_left Z.max vs v) (v :: vs).
Proof.
  induction vs as [|w vs IH]; simpl; intros v; [now left|].
  destruct (IH (Z.max v w)) as [H|H]; [|now right; right].
  rewrite <- H. destruct (Z.max_spec v w) as [[_ ->]|[_ ->]]; auto.
Qed.

(** [MAX(version)] over the rows of the service, 0 when there is none. *)
Lemma select_max_version_spec db s :
  ((forall r, In r (rows db) -> row_service r <> s) -> select_max_version db s = 0) /\
  (forall r, In r (rows db) -> row_service r = s ->
     row_version r <= select_max_version db s /\
     exists top, In top (rows db) /\ row_service top = s /\
                 row_version top = select_max_version db s).
Proof.
  unfold select_max_version. split.
  - intros H. rewrite filter_nil; [reflexivity|].
    intros x Hx. unfold of_service. apply String.eqb_neq, H, Hx.
  - intros r Hr Hs.
    assert (Hin : In (row_version r) (map row_version (filter (of_service s) (rows db)))).
    { apply List.in_map, (proj2 (filter_service_In _ _ _)). now split. }
    destruct (map row_version (filter (of_service s) (rows db))) as [|v vs] eqn:E;
      [destruct Hin|].
    split.
    + destruct Hin as [<-|Hin]; [apply fold_max_ge|now apply fold_max_bound].
    + pose proof (fold_max_In vs v) as Hmax. rewrite <- E in Hmax.
      apply List.in_map_iff in Hmax as (top & Htop & Hmax).
      apply (proj1 (filter_service_In _ _ _)) in Hmax as [H1 H2]. eauto.
Qed.

Lemma dict_get_set name v d : dict_get name (dict_set name v d) = Some v.
Proof.
  induction d as [|[k w] d IH]; simpl.
  - now rewrite String.eqb_refl.
  - destruct (is_str_key name k) eqn:E; simpl; rewrite E; [reflexivity|exact IH].
Qed.

End StoreFacts.

Import StoreFacts.






(** ** History *)

(** C7, counterexample.  Two saves of a document that carries version 1 leave
    two rows of version 1, and the history lists version 1 twice: the order
    is not strict. *)
Lemma history_repeats_a_version :
  (exists r1 db1 r2,
     Db.save_configuration empty_backend "t1" "auth" [(KStr "version", PInt 1)]
       = Some (r1, db1) /\
     Db.save_configuration db1 "t2" "auth" [(KStr "version", PInt 1)]
       = Some (r2, duplicated_version)) /\
  map Db.item_version (Db.get_configuration_history duplicated_version "auth") = [1; 1] /\
  ~ StronglySorted (fun a b => b < a)
      (map Db.item_version (Db.get_configuration_history duplicated_version "auth")).
Proof.
  split; [|split].
  - eexists _, _, _. split; reflexivity.
  - reflexivity.
  - intros H. inversion H as [|? ? _ Hall]; subst.
    inversion Hall as [|? ? Hlt _]; subst. lia.
Qed.

Lemma history_versions db s :
  map Db.item_version (Db.get_configuration_history db s)
  = map Db.row_version
      (Db.order_by_version_desc (filter (Db.of_service s) (Db.rows db))).
Proof. unfold Db.get_configuration_history. now rewrite List.map_map. Qed.

Lemma StronglySorted_map {A B} (f : A -> B) (R : B -> B -> Prop) l :
  StronglySorted (fun a b => R (f a) (f b)) l -> StronglySorted R (map f l).
Proof.
  induction 1 as [|x l Hs IH Hx]; simpl; constructor; [exact IH|].
  apply List.Forall_map. exact Hx.
Qed.

Lemma history_without_rows db s :
  (forall r, In r (Db.rows db) -> Db.row_service r <> s) ->
  Db.get_configuration_history db s = [].
Proof.
  intros Hnone. unfold Db.get_configuration_history.
  rewrite filter_nil; [reflexivity|].
  intros x Hx. unfold Db.of_service. apply String.eqb_neq, Hnone, Hx.
Qed.

(** C7, amended.  For every service the store-level history is the list of
    [{version, created_at}] entries of the rows of that service, in
    descending order of version; the order is strict when no two rows of the
    service share a version; for a service with no row the history is the
    empty list. *)
Theorem history_descending (db : Db.backend) (s : string) :
  StronglySorted (fun a b => b <= a)
    (map Db.item_version (Db.get_configuration_history db s)) /\
  (NoDup (map Db.row_version (filter (Db.of_service s) (Db.rows db))) ->
   StronglySorted (fun a b => b < a)
     (map Db.item_version (Db.get_configuration_history db s))) /\
  (forall item,
     In item (Db.get_configuration_history db s) <->
     exists r, In r (Db.rows db) /\ Db.row_service r = s /\
               item = {| Db.item_version := Db.row_version r;
                         Db.item_created_at := Db.row_created_at r |}) /\
  ((forall r, In r (Db.rows db) -> Db.row_service r <> s) ->
   Db.get_configuration_history db s = []).
Proof.
  split; [|split; [|split]].
  - rewrite history_versions. apply StronglySorted_map, order_by_sorted.
  - intros Hnd. rewrite history_versions.
    apply StronglySorted_map, order_by_strict, Hnd.
  - intros item. unfold Db.get_configuration_history. rewrite List.in_map_iff.
    split.
    + intros (r & <- & Hr). apply (proj1 (order_by_In _ _)) in Hr.
      apply (proj1 (filter_service_In _ _ _)) in Hr as [H1 H2]. eauto.
    + intros (r & H1 & H2 & ->). exists r. split; [reflexivity|].
      apply (proj2 (order_by_In _ _)), (proj2 (filter_service_In _ _ _)). now split.
  - apply history_without_rows.
Qed.

Lemma history_descending_witness :
  StronglySorted (fun a b => b < a)
    (map Db.item_version (Db.get_configuration_history two_services "auth")) /\
  Db.get_configuration_history two_services "search" = [].
Proof.
  split.
  - apply (proj1 (proj2 (history_descending two_services "auth"))).
    simpl. repeat constructor; simpl; intuition discriminate.
  - apply (proj2 (proj2 (proj2 (history_descending two_services "search")))).
    intros r Hr. simpl in Hr.
    destruct Hr as [<-|[<-|[<-|[]]]]; simpl; discriminate.
Defined.

(** C10.  At the handler a history request for a service with no stored
    record is answered with status 404 and the message "No configuration
    history found for service '...'": the empty list of the store is never
    the data of a response. *)
Theorem empty_history_is_not_found (db : Db.backend) (s : string) :
  ((forall r, In r (Db.rows db) -> Db.row_service r <> s) ->
   Db.get_configuration_history db s = [] /\
   Handlers.get_configuration_history db s
   = {| Handlers.data := None;
        Handlers.error :=
          Some ("No configuration history found for service '" +:+ s +:+ "'");
        Handlers.status_code := 404 |}) /\
  Handlers.data (Handlers.get_configuration_history db s) <> Some (PList []) /\
  (Db.get_configuration_history db s = [] ->
   Handlers.status_code (Handlers.get_configuration_history db s) = 404 /\
   Handlers.data (Handlers.get_configuration_history db s) = None).
Proof.
  split; [|split].
  - intros Hnone.
    assert (H : Db.get_configuration_history db s = [])
      by (apply history_without_rows, Hnone).
    split; [exact H|]. unfold Handlers.get_configuration_history. now rewrite H.
  - unfold Handlers.get_configuration_history.
    destruct (Db.get_configuration_history db s); simpl; discriminate.
  - intros H. unfold Handlers.get_configuration_history. rewrite H. split; reflexivity.
Qed.

Lemma empty_history_is_not_found_witness :
  Handlers.get_configuration_history two_services "search"
  = {| Handlers.data := None;
       Handlers.error := Some "No configuration history found for service 'search'";
       Handlers.status_code := 404 |}.
Proof.
  apply (proj1 (empty_history_is_not_found two_services "search")).
  intros r Hr. simpl in Hr.
  destruct Hr as [<-|[<-|[<-|[]]]]; simpl; discriminate.
Defined.

(** ** The template context *)

Lemma default_context_untouched (template_params : gmap string pyval) (k : string) :
  template_params !! k = None ->
  Renderer.default_context template_params !! k = fixed_defaults !! k.
Proof.
  intros Hk. unfold Renderer.default_context, fixed_defaults, Renderer.get_default.
  destruct (decide (k = "user")) as [->|Hu].
  { rewrite Hk. now rewrite !lookup_insert_eq. }
  rewrite !(lookup_insert_ne _ "user") by congruence.
  destruct (decide (k = "env")) as [->|He].
  { rewrite Hk. now rewrite !lookup_insert_eq. }
  rewrite !(lookup_insert_ne _ "env") by congruence.
  destruct (decide (k = "timestamp")) as [->|Ht].
  { rewrite Hk. now rewrite !lookup_insert_eq. }
  now rewrite !(lookup_insert_ne _ "timestamp") by congruence.
Qed.

(** C9.  The context handed to the renderer is the caller's parameters over
    the fixed defaults [user = "anonymous"], [env = "development"],
    [timestamp = ""]: key by key the caller's value when there is one, the
    default otherwise.  Rendering [{"welcome_message": "Hello {{ user }}!"}]
    with [user = "alice"] gives [{"welcome_message": "Hello alice!"}]. *)
Theorem context_merges_defaults_and_parameters :
  (forall (config_data : pydict) (template_params : gmap string pyval),
     Renderer.process_template_request config_data template_params
     = Renderer.render_config_template config_data
         (Renderer.merged_context template_params)) /\
  (forall (template_params : gmap string pyval) (k : string),
     Renderer.merged_context template_params !! k
     = match template_params !! k with
       | Some v => Some v
       | None => fixed_defaults !! k
       end) /\
  Renderer.process_template_request
    [(KStr "welcome_message", PStr "Hello {{ user }}!")]
    {[ "user" := PStr "alice" ]}
  = Some (Ok (PDict [(KStr "welcome_message", PStr "Hello alice!")])).
Proof.
  split; [reflexivity|]. split; [|vm_compute; reflexivity].
  intros template_params k. unfold Renderer.merged_context.
  rewrite lookup_union.
  destruct (template_params !! k) as [v|] eqn:Hk.
  - destruct (Renderer.default_context template_params !! k); reflexivity.
  - rewrite (default_context_untouched _ _ Hk).
    destruct (fixed_defaults !! k); reflexivity.
Qed.

(** ** The parser's guards *)

Lemma byte_is_eq c n : byte_is c n = true -> c = ascii_of_nat n.
Proof.
  unfold byte_is. intros H. apply Nat.eqb_eq in H.
  rewrite <- H. symmetry. apply ascii_nat_embedding.
Qed.

Lemma lstrip_space_char cp s :
  In cp space_code_points -> lstrip (Json.utf8 cp +:+ s) = lstrip s.
Proof.
  unfold space_code_points. intros H.
  repeat (destruct H as [<-|H]; [reflexivity|]). destruct H.
Qed.

Lemma lstrip_whitespace cps s :
  Forall (fun cp => In cp space_code_points) cps ->
  lstrip (text_of cps +:+ s) = lstrip s.
Proof.
  induction 1 as [|cp cps Hcp _ IH]; simpl; [reflexivity|].
  rewrite append_assoc. rewrite lstrip_space_char by exact Hcp.
  exact IH.
Qed.

Lemma whitespace_only_strip s : whitespace_only s -> strip s = "".
Proof.
  intros (cps & Hcps & ->). unfold strip.
  rewrite <- (append_empty_r (text_of cps)).
  now rewrite lstrip_whitespace.
Qed.

Ltac space_cases n H :=
  let k := fresh "k" in
  remember n as k eqn:?;
  repeat (destruct k as [|k]; [try discriminate H|]); try discriminate H.

Lemma ascii_space_char a :
  is_ascii_space a = true ->
  exists cp, In cp space_code_points /\ Json.utf8 cp = String a "".
Proof.
  intros H.
  destruct a as [[] [] [] [] [] [] [] []]; try discriminate H;
    match goal with
    | |- exists cp, _ /\ _ = String ?a _ =>
        exists (N_of_ascii a); split; [vm_compute; tauto|reflexivity]
    end.
Qed.

Lemma two_byte_space_char a b :
  two_byte_space a b = true ->
  exists cp, In cp space_code_points /\ Json.utf8 cp = String a (String b "").
Proof.
  unfold two_byte_space. intros H.
  apply andb_prop in H as [Ha Hb]. apply byte_is_eq in Ha as ->.
  apply orb_prop in Hb as [Hb|Hb]; apply byte_is_eq in Hb as ->.
  - exists 133%N. split; [vm_compute; tauto|reflexivity].
  - exists 160%N. split; [vm_compute; tauto|reflexivity].
Qed.

Lemma three_byte_space_char a b c :
  three_byte_space a b c = true ->
  exists cp, In cp space_code_points /\
             Json.utf8 cp = String a (String b (String c "")).
Proof.
  unfold three_byte_space. intros H.
  repeat match type of H with
         | (_ || _)%bool = true => apply orb_prop in H as [H|H]
         end;
    repeat match goal with
           | H : (_ && _)%bool = true |- _ => apply andb_prop in H as [? ?]
           | H : (_ || _)%bool = true |- _ => apply orb_prop in H as [H|H]
           | H : byte_is _ _ = true |- _ => apply byte_is_eq in H; subst
           end.
  - exists 5760%N. split; [vm_compute; tauto|reflexivity].
  - match goal with
    | H1 : (128 <=? ?n)%nat = true, H2 : (?n <=? 138)%nat = true |- _ =>
        apply Nat.leb_le in H1; apply Nat.leb_le in H2;
        rewrite <- (ascii_nat_embedding c);
        assert (Hn : (n = 128 \/ n = 129 \/ n = 130 \/ n = 131 \/ n = 132 \/ n = 133
                      \/ n = 134 \/ n = 135 \/ n = 136 \/ n = 137 \/ n = 138)%nat) by lia
    end.
    exists (8064 + N.of_nat (nat_of_ascii c))%N.
    repeat (destruct Hn as [Hn|Hn];
            [rewrite Hn; split; [vm_compute; tauto|reflexivity]|]).
    rewrite Hn; split; [vm_compute; tauto|reflexivity].
  - exists 8232%N. split; [vm_compute; tauto|reflexivity].
  - exists 8233%N. split; [vm_compute; tauto|reflexivity].
  - exists 8239%N. split; [vm_compute; tauto|reflexivity].
  - exists 8287%N. split; [vm_compute; tauto|reflexivity].
  - exists 12288%N. split; [vm_compute; tauto|reflexivity].
Qed.

(** What [lstrip] removes is a run of whitespace characters. *)
Lemma lstrip_decompose n :
  forall s, (String.length s <= n)%nat ->
    exists cps, Forall (fun cp => In cp space_code_points) cps /\
                s = text_of cps +:+ lstrip s.
Proof.
  induction n as [n IH] using lt_wf_ind. intros s Hlen.
  assert (Hstop : exists cps, Forall (fun cp => In cp space_code_points) cps /\
                              s = text_of cps +:+ s)
    by (exists []; split; [constructor|reflexivity]).
  destruct s as [|a r]; [exact Hstop|]. cbn [lstrip].
  destruct (is_ascii_space a) eqn:Ea.
  { destruct (ascii_space_char _ Ea) as (cp & Hcp & Henc).
    destruct (IH (String.length r)) with (s := r) as (cps & Hcps & Hr);
      [simpl in Hlen; lia|lia|].
    exists (cp :: cps). split; [now constructor|].
    simpl. rewrite Henc. simpl. now rewrite <- Hr. }
  destruct r as [|b r1]; [exact Hstop|].
  destruct (two_byte_space a b) eqn:Eb.
  { destruct (two_byte_space_char _ _ Eb) as (cp & Hcp & Henc).
    destruct (IH (String.length r1)) with (s := r1) as (cps & Hcps & Hr);
      [simpl in Hlen; lia|lia|].
    exists (cp :: cps). split; [now constructor|].
    simpl. rewrite Henc. simpl. now rewrite <- Hr. }
  destruct r1 as [|c r2]; [exact Hstop|].
  destruct (three_byte_space a b c) eqn:Ec; [|exact Hstop].
  destruct (three_byte_space_char _ _ _ Ec) as (cp & Hcp & Henc).
  destruct (IH (String.length r2)) with (s := r2) as (cps & Hcps & Hr);
    [simpl in Hlen; lia|lia|].
  exists (cp :: cps). split; [now constructor|].
  simpl. rewrite Henc. simpl. now rewrite <- Hr.
Qed.

Lemma is_empty_eq s : is_empty s = true -> s = "".
Proof. destruct s; [reflexivity|discriminate]. Qed.

Lemma rstrip_empty s : rstrip s = "" -> lstrip s = "".
Proof.
  destruct s as [|a r]; [reflexivity|]. cbn [rstrip].
  destruct (is_empty (lstrip (String a r))) eqn:E; [|discriminate].
  intros _. now apply is_empty_eq.
Qed.

Lemma text_of_app cps1 cps2 : text_of (cps1 ++ cps2) = text_of cps1 +:+ text_of cps2.
Proof.
  induction cps1 as [|cp cps1 IH]; simpl; [reflexivity|].
  now rewrite IH, append_assoc.
Qed.

Lemma strip_empty_whitespace_only s : strip s = "" -> whitespace_only s.
Proof.
  unfold strip. intros H. apply rstrip_empty in H.
  destruct (lstrip_decompose _ s (le_n _)) as (cps1 & H1 & E1).
  destruct (lstrip_decompose _ (lstrip s) (le_n _)) as (cps2 & H2 & E2).
  rewrite H, append_empty_r in E2.
  exists (cps1 ++ cps2). split; [now apply List.Forall_app|].
  rewrite text_of_app, <- E2. exact E1.
Qed.

(** C8.  For every input text, whatever the YAML loader is: an input that is
    empty or made of whitespace only fails with the empty-input message; an
    input with other content that the loader reads without error as a value
    that is not a mapping fails with the message that the text must
    represent a dictionary/object; neither failure returns a document. *)
Theorem parse_yaml_rejects_blank_and_non_mapping
    (safe_load : string -> yaml_outcome) (yaml_content : string) :
  (whitespace_only yaml_content ->
   Validators.parse_yaml safe_load yaml_content
   = (false, None, Some "Empty YAML content")) /\
  (~ whitespace_only yaml_content ->
   (exists v, safe_load yaml_content = Loaded v /\ is_dict v = false) \/
   (exists t, safe_load yaml_content = LoadedOther t) ->
   Validators.parse_yaml safe_load yaml_content
   = (false, None, Some "YAML must represent a dictionary/object")).
Proof.
  unfold Validators.parse_yaml. split.
  - intros Hws. rewrite (whitespace_only_strip _ Hws).
    now rewrite orb_true_r.
  - intros Hnws Hload.
    destruct (is_empty yaml_content || is_empty (strip yaml_content)) eqn:E.
    { exfalso. apply Hnws. apply orb_prop in E as [E|E]; apply is_empty_eq in E.
      - subst. exists []. split; [constructor|reflexivity].
      - now apply strip_empty_whitespace_only. }
    destruct Hload as [(v & -> & Hv)|(t & ->)]; [|reflexivity].
    destruct v; try discriminate Hv; reflexivity.
Qed.

(** ** JSON: what is written is read back *)

Module JsonFacts.
Import Json.

Section PyvalInduction.
Variable P : pyval -> Prop.
Hypothesis HNone : P PNone.
Hypothesis HBool : forall b, P (PBool b).
Hypothesis HInt : forall z, P (PInt z).
Hypothesis HFloat : forall r, P (PFloat r).
Hypothesis HStr : forall s, P (PStr s).
Hypothesis HList : forall l, Forall P l -> P (PList l).
Hypothesis HDict : forall items, Forall (fun kv => P (snd kv)) items -> P (PDict items).

Lemma pyval_induction : forall v, P v.
Proof.
  fix IH 1. intros [| | | | |l|items].
  - exact HNone.
  - apply HBool.
  - apply HInt.
  - apply HFloat.
  - apply HStr.
  - apply HList. induction l as [|x l IHl]; constructor; [apply IH|exact IHl].
  - apply HDict. induction items as [|kv items IHl]; constructor; [apply IH|exact IHl].
Qed.

End PyvalInduction.

(** *** Numbers *)

Lemma number_char_false c :
  number_char c = false ->
  is_digit c = false /\ byte_is c 46 = false /\ byte_is c 101 = false /\
  byte_is c 69 = false /\ byte_is c 43 = false /\ byte_is c 45 = false.
Proof.
  unfold number_char. intros H.
  repeat (apply orb_false_elim in H as [H ?]). auto 10.
Qed.

Lemma span_digits_app s rest :
  token_end rest ->
  span_digits (s +:+ rest) = (fst (span_digits s), snd (span_digits s) +:+ rest).
Proof.
  intros Hrest. induction s as [|c s IH]; simpl.
  - destruct rest as [|c r]; [reflexivity|]. simpl in *.
    apply number_char_false in Hrest as [-> _]. reflexivity.
  - destruct (is_digit c); [|reflexivity].
    rewrite IH. destruct (span_digits s). reflexivity.
Qed.

Lemma span_integer_app s rest ip r :
  token_end rest ->
  span_integer s = Some (ip, r) ->
  span_integer (s +:+ rest) = Some (ip, r +:+ rest).
Proof.
  intros Hrest. destruct s as [|c s]; [discriminate|]. simpl.
  destruct (byte_is c 48); [now intros [= <- <-]|].
  destruct (is_digit c); [|discriminate].
  rewrite (span_digits_app _ _ Hrest). destruct (span_digits s).
  now intros [= <- <-].
Qed.

Lemma span_fraction_app s rest :
  token_end rest ->
  span_fraction (s +:+ rest)
  = (fst (span_fraction s), snd (span_fraction s) +:+ rest).
Proof.
  intros Hrest. destruct s as [|c s]; simpl.
  - destruct rest as [|c r]; [reflexivity|]. simpl in *.
    apply number_char_false in Hrest as (_ & -> & _). reflexivity.
  - destruct (byte_is c 46); [|reflexivity].
    rewrite (span_digits_app _ _ Hrest).
    destruct (span_digits s) as [[|d ds] r]; reflexivity.
Qed.

Lemma span_exponent_app s rest :
  token_end rest ->
  span_exponent (s +:+ rest)
  = (fst (span_exponent s), snd (span_exponent s) +:+ rest).
Proof.
  intros Hrest. destruct s as [|c s]; simpl.
  - destruct rest as [|c r]; [reflexivity|]. simpl in *.
    apply number_char_false in Hrest as (_ & _ & -> & -> & _). reflexivity.
  - destruct (byte_is c 101 || byte_is c 69); [|reflexivity].
    destruct s as [|g s]; simpl.
    + destruct rest as [|c' r]; [reflexivity|]. simpl in *.
      apply number_char_false in Hrest as (Hd & _ & _ & _ & -> & ->). simpl.
      rewrite Hd. reflexivity.
    + destruct (byte_is g 45 || byte_is g 43).
      * rewrite (span_digits_app _ _ Hrest).
        destruct (span_digits s) as [[|d ds] r]; reflexivity.
      * change (String g (s +:+ rest)) with (String g s +:+ rest).
        rewrite (span_digits_app _ _ Hrest).
        destruct (span_digits (String g s)) as [[|d ds] r]; reflexivity.
Qed.

Lemma scan_unsigned_app negative s rest v :
  token_end rest ->
  scan_unsigned negative s = Some (v, EmptyString) ->
  scan_unsigned negative (s +:+ rest) = Some (v, rest).
Proof.
  intros Hrest. unfold scan_unsigned.
  destruct (span_integer s) as [[ip s2]|] eqn:Ei; [|discriminate].
  rewrite (span_integer_app _ _ _ _ Hrest Ei).
  rewrite (span_fraction_app _ _ Hrest).
  destruct (span_fraction s2) as [frac s3]. cbn [fst snd].
  rewrite (span_exponent_app _ _ Hrest).
  destruct (span_exponent s3) as [exp s4]. cbn [fst snd].
  destruct (is_empty frac && is_empty exp).
  - destruct (int_of_digits ip); [|discriminate].
    now intros [= <- ->].
  - now intros [= <- ->].
Qed.

(** A number that is a whole token is read the same with a text after it. *)
Lemma scan_number_app s rest v :
  token_end rest ->
  scan_number s = Some (v, EmptyString) ->
  scan_number (s +:+ rest) = Some (v, rest).
Proof.
  intros Hrest. destruct s as [|c s]; [discriminate|].
  cbn [String.append scan_number]. destruct (byte_is c 45).
  - now apply scan_unsigned_app.
  - apply (scan_unsigned_app false (String c s)), Hrest.
Qed.

Lemma digits_all_digits d :
  all_chars is_digit (NilEmpty.string_of_uint d) = true.
Proof. induction d; simpl; auto. Qed.

Lemma span_digits_all s :
  all_chars is_digit s = true -> span_digits s = (s, EmptyString).
Proof.
  induction s as [|c s IH]; simpl; [reflexivity|].
  intros H. apply andb_prop in H as [-> H]. now rewrite IH.
Qed.

Lemma to_uint_head p :
  exists c s, NilEmpty.string_of_uint (Pos.to_uint p) = String c s /\
              is_digit c = true /\ byte_is c 48 = false.
Proof.
  pose proof (DecimalPos.Unsigned.to_uint_nonzero p) as Hnz.
  pose proof (DecimalPos.Unsigned.to_uint_nonnil p) as Hnn.
  assert (Hnorm : Decimal.unorm (Pos.to_uint p) = Pos.to_uint p).
  { rewrite <- (DecimalPos.Unsigned.to_of (Pos.to_uint p)).
    now rewrite DecimalPos.Unsigned.of_to. }
  destruct (Pos.to_uint p) as [|d|d|d|d|d|d|d|d|d|d] eqn:E;
    try (eexists _, _; split; [reflexivity|split; reflexivity]).
  - now destruct Hnn.
  - exfalso. unfold Decimal.unorm in Hnorm.
    destruct (Decimal.nzhead (Decimal.D0 d)) eqn:En; try discriminate Hnorm.
    + now apply Hnz.
    + now apply DecimalFacts.nzhead_nonzero in En.
Qed.

Lemma scan_unsigned_pos negative p :
  scan_unsigned negative (NilEmpty.string_of_uint (Pos.to_uint p))
  = Some (PInt (if negative then Z.neg p else Z.pos p), EmptyString).
Proof.
  destruct (to_uint_head p) as (c & s & E & Hc & H0).
  pose proof (digits_all_digits (Pos.to_uint p)) as Hall.
  assert (Hint : int_of_digits (NilEmpty.string_of_uint (Pos.to_uint p))
                 = Some (Z.pos p)).
  { unfold int_of_digits, NilZero.uint_of_string. rewrite E, <- E.
    rewrite NilEmpty.usu. unfold Z.of_uint.
    now rewrite DecimalPos.Unsigned.of_to. }
  rewrite E in *. simpl in Hall. apply andb_prop in Hall as [_ Hall].
  unfold scan_unsigned.
  cbn [span_integer]. rewrite H0, Hc, (span_digits_all _ Hall).
  cbn [span_fraction span_exponent is_empty andb]. rewrite Hint.
  now destruct negative.
Qed.

Lemma string_of_uint_pos p :
  NilZero.string_of_uint (Pos.to_uint p) = NilEmpty.string_of_uint (Pos.to_uint p).
Proof.
  pose proof (DecimalPos.Unsigned.to_uint_nonnil p) as Hnn.
  unfold NilZero.string_of_uint. destruct (Pos.to_uint p); congruence.
Qed.

(** [int.__repr__] is read back as the integer. *)
Lemma scan_number_int_repr z :
  scan_number (int_repr z) = Some (PInt z, EmptyString).
Proof.
  unfold int_repr. destruct z as [|p|p]; [reflexivity| |];
    cbn [Z.to_int NilZero.string_of_int]; rewrite string_of_uint_pos.
  - destruct (to_uint_head p) as (c & s & E & Hc & H0).
    assert (Hm : byte_is c 45 = false).
    { destruct c as [[] [] [] [] [] [] [] []]; try discriminate Hc; reflexivity. }
    pose proof (scan_unsigned_pos false p) as H. rewrite E in *.
    cbn [scan_number]. now rewrite Hm.
  - apply (scan_unsigned_pos true p).
Qed.

(** A literal that [scan_number] takes starts with a digit or the sign. *)
Lemma scan_number_head s v r :
  scan_number s = Some (v, r) ->
  exists c s', s = String c s' /\ (is_digit c = true \/ byte_is c 45 = true).
Proof.
  destruct s as [|c s]; [discriminate|]. intros H. exists c, s. split; [reflexivity|].
  cbn [scan_number] in H. destruct (byte_is c 45); [now right|]. left.
  unfold scan_unsigned in H. cbn [span_integer] in H.
  destruct (byte_is c 48) eqn:E0.
  - apply byte_is_eq in E0 as ->. reflexivity.
  - destruct (is_digit c); [reflexivity|discriminate].
Qed.

Lemma number_head_dispatch c :
  is_digit c = true \/ byte_is c 45 = true ->
  byte_is c 34 = false /\ byte_is c 123 = false /\ byte_is c 91 = false /\
  Ascii.eqb "n" c = false /\ Ascii.eqb "t" c = false /\ Ascii.eqb "f" c = false /\
  is_ws c = false /\ byte_is c 93 = false /\ byte_is c 125 = false.
Proof.
  intros [H|H]; destruct c as [[] [] [] [] [] [] [] []]; try discriminate H;
    repeat split; reflexivity.
Qed.

(** A number token followed by a text that ends it: [scan_once]'s last
    resort reads the number. *)
Lemma scan_constant_number s rest v :
  token_end rest ->
  scan_number s = Some (v, EmptyString) ->
  scan_constant (s +:+ rest) = Some (v, rest).
Proof.
  intros Hrest Hs.
  destruct (scan_number_head _ _ _ Hs) as (c & s' & -> & Hc).
  apply number_head_dispatch in Hc as (_ & _ & _ & Hn & Ht & Hf & _).
  unfold scan_constant. cbn [String.append strip_prefix].
  rewrite Hn, Ht, Hf.
  change (String c (s' +:+ rest)) with (String c s' +:+ rest).
  now rewrite (scan_number_app _ _ _ Hrest Hs).
Qed.

Lemma float_literal_scanned r rest :
  float_literal r = true ->
  token_end rest ->
  scan_constant (floatstr r +:+ rest) = Some (PFloat r, rest).
Proof.
  unfold float_literal. intros H Hrest.
  destruct (String.eqb r "inf") eqn:E1.
  { apply String.eqb_eq in E1 as ->. reflexivity. }
  destruct (String.eqb r "-inf") eqn:E2.
  { apply String.eqb_eq in E2 as ->. reflexivity. }
  cbn [orb] in H.
  destruct (scan_number r) as [[[] []]|] eqn:Es; try discriminate H.
  apply String.eqb_eq in H as ->.
  assert (Hfs : floatstr r = r).
  { unfold floatstr. rewrite E1, E2.
    destruct (String.eqb r "nan") eqn:E3; [|reflexivity].
    apply String.eqb_eq in E3 as ->. discriminate Es. }
  rewrite Hfs. now apply scan_constant_number.
Qed.

(** *** Strings *)

Lemma scanstring_escape_char c k body rest :
  scanstring k = Some (body, rest) ->
  scanstring (escape_char c +:+ k) = Some (String c body, rest).
Proof.
  intros H.
  destruct c as [[] [] [] [] [] [] [] []];
    match goal with
    | |- context [escape_char ?c] =>
        let e := eval vm_compute in (escape_char c) in
        change (escape_char c) with e
    end;
    simpl; rewrite H; reflexivity.
Qed.

(** [py_scanstring] undoes [encode_basestring]. *)
Lemma scanstring_escape s rest :
  scanstring (escape s +:+ String dq rest) = Some (s, rest).
Proof.
  induction s as [|c s IH]; [simpl; reflexivity|].
  cbn [escape]. rewrite append_assoc.
  now apply scanstring_escape_char.
Qed.

(** *** Layout *)

Lemma skip_ws_head c s : is_ws c = false -> skip_ws (String c s) = String c s.
Proof. intros H. simpl. now rewrite H. Qed.

Lemma skip_ws_all w s :
  all_chars is_ws w = true -> skip_ws (w +:+ s) = skip_ws s.
Proof.
  induction w as [|c w IH]; simpl; [reflexivity|].
  intros H. apply andb_prop in H as [-> H]. now apply IH.
Qed.

Lemma spaces_ws n : all_chars is_ws (spaces n) = true.
Proof. induction n; simpl; auto. Qed.

Lemma newline_indent_ws indent level :
  all_chars is_ws (newline_indent indent level) = true.
Proof. destruct indent; simpl; [apply spaces_ws|reflexivity]. Qed.

Lemma item_separator_shape indent level :
  exists w, item_separator indent level = String "," w /\ all_chars is_ws w = true.
Proof.
  destruct indent; simpl.
  - eexists. split; [reflexivity|]. apply spaces_ws.
  - eexists. split; reflexivity.
Qed.

Lemma number_value_head s v r :
  scan_number s = Some (v, r) -> value_head s.
Proof.
  intros H. destruct (scan_number_head _ _ _ H) as (c & s' & -> & Hc).
  apply number_head_dispatch in Hc. simpl. tauto.
Qed.

Lemma encode_head indent level v :
  json_safe v = true -> value_head (encode indent level v).
Proof.
  destruct v as [|[]|z|r|s|l|items]; intros Hsafe; try (simpl; now auto).
  - apply (number_value_head _ _ _ (scan_number_int_repr z)).
  - simpl in *. unfold float_literal in Hsafe. unfold floatstr.
    destruct (String.eqb r "nan") eqn:E0.
    { apply String.eqb_eq in E0 as ->. discriminate Hsafe. }
    destruct (String.eqb r "inf"); [now simpl|].
    destruct (String.eqb r "-inf"); [now simpl|].
    cbn [orb] in Hsafe.
    destruct (scan_number r) as [[? ?]|] eqn:Es; [|discriminate].
    apply (number_value_head _ _ _ Es).
  - cbn [encode]. unfold bracket. destruct (map _ l); now simpl.
  - cbn [encode]. unfold bracket. destruct (map _ items); now simpl.
Qed.

Lemma skip_ws_value s rest :
  value_head s -> skip_ws (s +:+ rest) = s +:+ rest.
Proof.
  destruct s as [|c s]; [intros []|]. intros (H & _).
  cbn [String.append]. now apply skip_ws_head.
Qed.

(** *** Values *)

Section Encoding.
Variable indent : option nat.

Lemma token_end_separator level s : token_end (item_separator indent level +:+ s).
Proof.
  destruct (item_separator_shape indent level) as (w & -> & _). reflexivity.
Qed.

Lemma token_end_closing level c s :
  number_char c = false -> token_end (newline_indent indent level +:+ String c s).
Proof. destruct indent; simpl; auto. Qed.

Lemma skip_ws_closing level c s :
  is_ws c = false ->
  skip_ws (newline_indent indent level +:+ String c s) = String c s.
Proof.
  intros H. rewrite skip_ws_all by apply newline_indent_ws.
  now apply skip_ws_head.
Qed.

Lemma join_head sep (chunks : list string) :
  chunks <> [] -> Forall value_head chunks -> value_head (join sep chunks).
Proof.
  destruct chunks as [|x [|y l]]; [congruence| |]; intros _ H;
    inversion H as [|? ? Hx _]; subst; simpl; [exact Hx|].
  destruct x; [destruct Hx|exact Hx].
Qed.

Lemma scan_once_constant fuel s :
  value_head s ->
  match s with
  | String c _ => byte_is c 34 = false /\ byte_is c 123 = false /\ byte_is c 91 = false
  | EmptyString => True
  end ->
  scan_once (S fuel) s = scan_constant s.
Proof.
  destruct s as [|c s]; [intros []|]. intros _ (H1 & H2 & H3).
  cbn [scan_once]. now rewrite H1, H2, H3.
Qed.

Lemma reads_back_number v s :
  encode indent 0 v = s -> (forall level, encode indent level v = s) ->
  scan_number s = Some (v, EmptyString) -> (reads_back indent) v.
Proof.
  intros _ Henc Hs level rest fuel Hrest Hfuel. rewrite Henc.
  destruct fuel as [|fuel]; [destruct v; simpl in Hfuel; lia|].
  destruct (scan_number_head _ _ _ Hs) as (c & s' & -> & Hc).
  pose proof (number_head_dispatch _ Hc) as (H1 & H2 & H3 & _).
  cbn [String.append scan_once]. rewrite H1, H2, H3.
  change (String c (s' +:+ rest)) with (String c s' +:+ rest).
  now apply scan_constant_number.
Qed.

Lemma reads_back_float r : float_literal r = true -> (reads_back indent) (PFloat r).
Proof.
  intros Hr level rest fuel Hrest Hfuel.
  destruct fuel as [|fuel]; [simpl in Hfuel; lia|].
  pose proof (float_literal_scanned r rest Hr Hrest) as Hscan.
  cbn [encode]. rewrite <- Hscan.
  assert (Hhead : value_head (floatstr r) /\
                  match floatstr r with
                  | String c _ => byte_is c 34 = false /\ byte_is c 123 = false /\
                                  byte_is c 91 = false
                  | EmptyString => True
                  end).
  { unfold float_literal in Hr. unfold floatstr.
    destruct (String.eqb r "nan") eqn:E0.
    { apply String.eqb_eq in E0 as ->. discriminate Hr. }
    destruct (String.eqb r "inf"); [now simpl|].
    destruct (String.eqb r "-inf"); [now simpl|].
    cbn [orb] in Hr.
    destruct (scan_number r) as [[? ?]|] eqn:Es; [|discriminate].
    destruct (scan_number_head _ _ _ Es) as (c & s' & -> & Hc).
    apply number_head_dispatch in Hc. simpl. tauto. }
  destruct Hhead as [Hv Hd]. destruct (floatstr r) as [|c s]; [destruct Hv|].
  apply scan_once_constant; [exact Hv|exact Hd].
Qed.

Lemma join_cons sep x (chunks : list string) :
  chunks <> [] -> join sep (x :: chunks) = x +:+ sep +:+ join sep chunks.
Proof. destruct chunks; [congruence|reflexivity]. Qed.

Lemma value_head_app a b : value_head a -> value_head (a +:+ b).
Proof. destruct a; [intros []|exact id]. Qed.

(** After a separator the scanner stands at the next item. *)
Lemma separator_step level J :
  value_head J ->
  exists r2, item_separator indent level +:+ J = String "," r2 /\ skip_ws r2 = J.
Proof.
  intros HJ. destruct (item_separator_shape indent level) as (w & -> & Hw).
  exists (w +:+ J). split; [reflexivity|].
  rewrite skip_ws_all by exact Hw.
  destruct J as [|c J]; [destruct HJ|]. apply skip_ws_head, HJ.
Qed.

Lemma parse_elements_encode sep_level close_level elem_level rest l :
  l <> [] ->
  Forall (fun x => json_safe x = true) l ->
  Forall (reads_back indent) l ->
  forall values fuel,
    (list_sum (map (fun x => S (scan_size x)) l) <= fuel)%nat ->
    parse_elements fuel
      (join (item_separator indent sep_level) (map (encode indent elem_level) l)
       +:+ newline_indent indent close_level +:+ String "]" rest) values
    = Some (PList (values ++ l), rest).
Proof.
  induction l as [|x l IH]; [congruence|]. intros _ Hsafe Hread values fuel Hfuel.
  inversion Hsafe as [|? ? Hsx Hsl]; subst.
  inversion Hread as [|? ? Hrx Hrl]; subst.
  simpl in Hfuel.
  destruct fuel as [|fuel]; [lia|]. cbn [parse_elements].
  destruct (list_eq_nil_dec l) as [->|Hne].
  - cbn [map join].
    rewrite Hrx; [|now apply token_end_closing|simpl in Hfuel; lia].
    rewrite skip_ws_closing by reflexivity. reflexivity.
  - cbn [map]. rewrite join_cons by (destruct l; [congruence|discriminate]).
    rewrite !append_assoc.
    rewrite Hrx; [|apply token_end_separator|lia].
    match goal with |- context [item_separator indent sep_level +:+ ?J] =>
      destruct (separator_step sep_level J) as (r2 & -> & Hr2) end.
    { apply value_head_app, join_head; [destruct l; [congruence|discriminate]|].
      apply List.Forall_map. eapply List.Forall_impl; [|exact Hsl].
      intros; now apply encode_head. }
    rewrite skip_ws_head by reflexivity.
    change (byte_is "," 93) with false. change (byte_is "," 44) with true. cbv iota.
    rewrite Hr2.
    rewrite IH; [|exact Hne|exact Hsl|exact Hrl|lia].
    now rewrite <- List.app_assoc.
Qed.

Lemma dict_set_fresh k v d :
  dict_get k d = None -> dict_set k v d = d ++ [(KStr k, v)].
Proof.
  induction d as [|[k' w] d IH]; simpl; [reflexivity|].
  destruct (is_str_key k k'); [discriminate|]. intros H. now rewrite IH.
Qed.

Lemma dict_get_app_fresh k k' v d :
  dict_get k' d = None -> String.eqb k k' = false ->
  dict_get k' (d ++ [(KStr k, v)]) = None.
Proof.
  induction d as [|[k0 w] d IH]; simpl; intros H E.
  - now rewrite E.
  - destruct (is_str_key k' k0); [discriminate|]. now apply IH.
Qed.

Lemma member_chunk_head level kv : value_head ((member_chunk indent) level kv).
Proof. destruct kv. now simpl. Qed.

Lemma parse_members_encode sep_level close_level elem_level rest items :
  items <> [] ->
  str_keys_distinct items = true ->
  Forall (fun kv => json_safe (snd kv) = true) items ->
  Forall (fun kv => (reads_back indent) (snd kv)) items ->
  forall pairs fuel,
    (forall k v, In (KStr k, v) items -> dict_get k pairs = None) ->
    (list_sum (map (fun kv => S (scan_size (snd kv))) items) <= fuel)%nat ->
    parse_members fuel
      (join (item_separator indent sep_level) (map ((member_chunk indent) elem_level) items)
       +:+ newline_indent indent close_level +:+ String "}" rest) pairs
    = Some (PDict (pairs ++ items), rest).
Proof.
  induction items as [|[k v] items IH]; [congruence|].
  intros _ Hkeys Hsafe Hread pairs fuel Hfresh Hfuel.
  inversion Hsafe as [|? ? Hsv Hsl]; subst. cbn [snd] in Hsv.
  inversion Hread as [|? ? Hrv Hrl]; subst. cbn [snd] in Hrv.
  cbn [str_keys_distinct] in Hkeys. destruct k as [k| | | |]; try discriminate Hkeys.
  apply andb_prop in Hkeys as [Hk Hkeys]. apply negb_true_iff in Hk.
  simpl in Hfuel.
  destruct fuel as [|fuel]; [lia|].
  assert (Hset : dict_set k v pairs = pairs ++ [(KStr k, v)]).
  { apply dict_set_fresh, (Hfresh k v). now left. }
  assert (Hstep : forall tail,
    token_end tail ->
    parse_members (S fuel) ((member_chunk indent) elem_level (KStr k, v) +:+ tail) pairs
    = match skip_ws tail with
      | String c4 r4 =>
          if byte_is c4 125 then Some (PDict (pairs ++ [(KStr k, v)]), r4)
          else if byte_is c4 44
               then parse_members fuel (skip_ws r4) (pairs ++ [(KStr k, v)])
               else None
      | EmptyString => None
      end).
  { intros tail Htail. unfold member_chunk, encode_string. cbn [fst snd key_text].
    cbn [String.append parse_members].
    change (byte_is dq 34) with true. cbv iota.
    rewrite !append_assoc. cbn [String.append].
    rewrite scanstring_escape.
    rewrite (skip_ws_head ":") by reflexivity.
    change (byte_is ":" 58) with true. cbv iota.
    change (skip_ws (String " " ?x)) with (skip_ws x).
    rewrite skip_ws_value by (now apply encode_head).
    rewrite Hrv; [|exact Htail|lia]. now rewrite Hset. }
  cbn [map].
  destruct (list_eq_nil_dec items) as [->|Hne].
  - cbn [map join]. rewrite Hstep by (now apply token_end_closing).
    rewrite skip_ws_closing by reflexivity. reflexivity.
  - rewrite join_cons by (destruct items; [congruence|discriminate]).
    rewrite !append_assoc. rewrite Hstep by apply token_end_separator.
    match goal with |- context [item_separator indent sep_level +:+ ?J] =>
      destruct (separator_step sep_level J) as (r2 & -> & Hr2) end.
    { apply value_head_app, join_head; [destruct items; [congruence|discriminate]|].
      apply List.Forall_map, List.Forall_forall. intros; apply member_chunk_head. }
    rewrite skip_ws_head by reflexivity.
    change (byte_is "," 125) with false. change (byte_is "," 44) with true. cbv iota.
    rewrite Hr2.
    rewrite IH; [|exact Hne|exact Hkeys|exact Hsl|exact Hrl| |lia].
    + now rewrite <- List.app_assoc.
    + intros k' v' Hin. apply dict_get_app_fresh.
      * apply (Hfresh k' v'). now right.
      * destruct (String.eqb k k') eqn:E; [|reflexivity].
        apply String.eqb_eq in E as <-.
        unfold dict_has in Hk.
        assert (Hget : dict_get k items <> None).
        { clear -Hin. induction items as [|[k0 w] d IHd]; [destruct Hin|].
          simpl. destruct Hin as [[= -> ->]|Hin].
          - simpl. now rewrite String.eqb_refl.
          - destruct (is_str_key k k0); [discriminate|now apply IHd]. }
        destruct (dict_get k items); [discriminate Hk|congruence].
Qed.

Lemma json_safe_items items :
  forallb (fun kv : pykey * pyval => json_safe (snd kv)) items = true ->
  Forall (fun kv => json_safe (snd kv) = true) items.
Proof. intros H. apply List.Forall_forall. now apply List.forallb_forall. Qed.

Lemma json_safe_list l :
  forallb json_safe l = true -> Forall (fun x => json_safe x = true) l.
Proof. intros H. apply List.Forall_forall. now apply List.forallb_forall. Qed.

Lemma Forall_modus {A} (P Q : A -> Prop) l :
  Forall (fun x => P x -> Q x) l -> Forall P l -> Forall Q l.
Proof.
  induction 1 as [|x l Hx _ IH]; intros H; inversion H; subst; constructor; auto.
Qed.

(** Every JSON document is read back from its text. *)
Lemma reads_back_all v : json_safe v = true -> (reads_back indent) v.
Proof.
  induction v as [|b|z|r|s|l IH|items IH] using pyval_induction; intros Hsafe.
  - intros level rest [|fuel] _ Hfuel; [simpl in Hfuel; lia|reflexivity].
  - intros level rest [|fuel] _ Hfuel; [simpl in Hfuel; lia|].
    destruct b; reflexivity.
  - apply (reads_back_number _ (int_repr z)); [reflexivity|reflexivity|].
    apply scan_number_int_repr.
  - now apply reads_back_float.
  - intros level rest [|fuel] _ Hfuel; [simpl in Hfuel; lia|].
    cbn [encode]. unfold encode_string. cbn [String.append scan_once].
    change (byte_is dq 34) with true. cbv iota.
    rewrite append_assoc. cbn [String.append].
    now rewrite scanstring_escape.
  - cbn [json_safe] in Hsafe. apply json_safe_list in Hsafe.
    pose proof (Forall_modus _ _ _ IH Hsafe) as Hread.
    intros level rest [|fuel] Hrest Hfuel; [simpl in Hfuel; lia|].
    cbn [encode]. unfold bracket.
    destruct (list_eq_nil_dec l) as [->|Hne]; [reflexivity|].
    destruct (map (encode indent (S level)) l) as [|chunk chunks] eqn:Emap.
    { destruct l; [congruence|discriminate Emap]. }
    rewrite <- Emap. rewrite !append_assoc.
    cbn [String.append scan_once].
    change (byte_is "[" 34) with false. change (byte_is "[" 123) with false.
    change (byte_is "[" 91) with true. cbv iota.
    rewrite skip_ws_all by apply newline_indent_ws.
    match goal with |- context [skip_ws ?J] =>
      assert (HJ : value_head J) end.
    { apply value_head_app, join_head; [rewrite Emap; discriminate|].
      apply List.Forall_map. eapply List.Forall_impl; [|exact Hsafe].
      intros; now apply encode_head. }
    rewrite skip_ws_value.
    2:{ apply join_head; [rewrite Emap; discriminate|].
        apply List.Forall_map. eapply List.Forall_impl; [|exact Hsafe].
        intros; now apply encode_head. }
    match type of HJ with value_head ?J =>
      destruct J as [|c1 r1] eqn:EJ; [destruct HJ|] end.
    destruct HJ as (_ & -> & _). rewrite <- EJ.
    rewrite parse_elements_encode; try assumption; [reflexivity|].
    simpl in Hfuel. lia.
  - cbn [json_safe] in Hsafe. apply andb_prop in Hsafe as [Hkeys Hsafe].
    apply json_safe_items in Hsafe.
    pose proof (Forall_modus _ _ _ IH Hsafe) as Hread.
    intros level rest [|fuel] Hrest Hfuel; [simpl in Hfuel; lia|].
    cbn [encode]. fold ((member_chunk indent) (S level)). unfold bracket.
    destruct (list_eq_nil_dec items) as [->|Hne]; [reflexivity|].
    destruct (map ((member_chunk indent) (S level)) items) as [|chunk chunks] eqn:Emap.
    { destruct items; [congruence|discriminate Emap]. }
    rewrite <- Emap. rewrite !append_assoc.
    cbn [String.append scan_once].
    change (byte_is "{" 34) with false. change (byte_is "{" 123) with true.
    cbv iota.
    rewrite skip_ws_all by apply newline_indent_ws.
    match goal with |- context [skip_ws ?J] =>
      assert (HJ : value_head J) end.
    { apply value_head_app, join_head; [rewrite Emap; discriminate|].
      apply List.Forall_map, List.Forall_forall. intros; apply member_chunk_head. }
    rewrite skip_ws_value.
    2:{ apply join_head; [rewrite Emap; discriminate|].
        apply List.Forall_map, List.Forall_forall. intros; apply member_chunk_head. }
    match type of HJ with value_head ?J =>
      destruct J as [|c1 r1] eqn:EJ; [destruct HJ|] end.
    destruct HJ as (_ & _ & ->). rewrite <- EJ.
    rewrite parse_members_encode; try assumption; [reflexivity|reflexivity|].
    simpl in Hfuel. lia.
Qed.

End Encoding.

(** *** Fuel *)

Lemma value_head_length s : value_head s -> (1 <= String.length s)%nat.
Proof. destruct s; [intros []|simpl; lia]. Qed.

Lemma join_length_ge sep (chunks : list string) :
  (1 <= String.length sep)%nat ->
  (list_sum (map String.length chunks) + (List.length chunks - 1)
   <= String.length (join sep chunks))%nat.
Proof.
  intros Hsep. induction chunks as [|x chunks IH]; [simpl; lia|].
  destruct chunks as [|y chunks]; [simpl; lia|].
  rewrite join_cons by discriminate. rewrite !length_append.
  simpl in IH |- *. lia.
Qed.

Lemma item_separator_length indent level :
  (1 <= String.length (item_separator indent level))%nat.
Proof.
  destruct (item_separator_shape indent level) as (w & -> & _). simpl. lia.
Qed.

Lemma bracket_length indent level opening closing (chunks : list string) :
  (String.length opening + String.length closing
   + list_sum (map String.length chunks) + (List.length chunks - 1)
   <= String.length (bracket indent level opening closing chunks))%nat.
Proof.
  unfold bracket. destruct chunks as [|x chunks].
  - rewrite length_append. simpl. lia.
  - rewrite !length_append.
    pose proof (join_length_ge (item_separator indent (S level)) (x :: chunks)
                  (item_separator_length indent (S level))).
    lia.
Qed.

Lemma sizes_le_lengths {A} (size : A -> nat) (text : A -> string) l :
  Forall (fun x => (size x <= String.length (text x))%nat) l ->
  (list_sum (map (fun x => S (size x)) l)
   <= list_sum (map String.length (map text l)) + List.length l)%nat.
Proof. induction 1; simpl; lia. Qed.

(** The length of the text of a document bounds the calls it takes. *)
Lemma scan_size_length indent v :
  json_safe v = true ->
  forall level, (scan_size v <= String.length (encode indent level v))%nat.
Proof.
  induction v as [|b|z|r|s|l IH|items IH] using pyval_induction;
    intros Hsafe level;
    try (apply value_head_length, encode_head; exact Hsafe).
  - cbn [json_safe] in Hsafe. apply json_safe_list in Hsafe.
    pose proof (Forall_modus _ _ _ IH Hsafe) as Hlen.
    cbn [encode scan_size].
    pose proof (bracket_length indent level "[" "]" (map (encode indent (S level)) l)) as Hb.
    pose proof (sizes_le_lengths scan_size (encode indent (S level)) l) as Hs.
    rewrite List.length_map in Hb. simpl in Hb.
    assert (Hl : Forall (fun x => (scan_size x <= String.length (encode indent (S level) x))%nat) l).
    { eapply List.Forall_impl; [|exact Hlen]. intros x Hx. apply Hx. }
    specialize (Hs Hl). destruct l; simpl in *; lia.
  - cbn [json_safe] in Hsafe. apply andb_prop in Hsafe as [_ Hsafe].
    apply json_safe_items in Hsafe.
    pose proof (Forall_modus _ _ _ IH Hsafe) as Hlen.
    cbn [encode scan_size]. fold (member_chunk indent (S level)).
    pose proof (bracket_length indent level "{" "}"
                  (map (member_chunk indent (S level)) items)) as Hb.
    pose proof (sizes_le_lengths (fun kv => scan_size (snd kv))
                  (member_chunk indent (S level)) items) as Hs.
    rewrite List.length_map in Hb. simpl in Hb.
    assert (Hl : Forall (fun kv : pykey * pyval =>
                  (scan_size (snd kv) <= String.length (member_chunk indent (S level) kv))%nat)
                  items).
    { eapply List.Forall_impl; [|exact Hlen]. intros kv Hkv.
      unfold member_chunk. rewrite !length_append. specialize (Hkv (S level)). lia. }
    specialize (Hs Hl). destruct items; simpl in *; lia.
Qed.

(** [json.loads(json.dumps(doc, indent=...))] is [doc]. *)
Lemma loads_dumps indent v :
  json_safe v = true -> loads (dumps indent v) = Some v.
Proof.
  intros Hsafe. unfold loads, dumps.
  pose proof (encode_head indent 0 v Hsafe) as Hhead.
  rewrite <- (append_empty_r (encode indent 0 v)) at 2.
  rewrite skip_ws_value by exact Hhead.
  rewrite (reads_back_all indent v Hsafe); [reflexivity|exact I|].
  pose proof (scan_size_length indent v Hsafe 0). lia.
Qed.

(** *** No carriage return is written *)

Lemma all_chars_app p a b :
  all_chars p (a +:+ b) = all_chars p a && all_chars p b.
Proof.
  induction a as [|c a IH]; simpl; [reflexivity|].
  now rewrite IH, andb_assoc.
Qed.

Lemma all_chars_impl (p q : ascii -> bool) s :
  (forall c, p c = true -> q c = true) ->
  all_chars p s = true -> all_chars q s = true.
Proof.
  intros Hpq. induction s as [|c s IH]; simpl; [reflexivity|].
  intros H. apply andb_prop in H as [Hc Hs]. now rewrite (Hpq c Hc), IH.
Qed.

Lemma number_char_not_cr c : number_char c = true -> not_cr c = true.
Proof.
  destruct c as [[] [] [] [] [] [] [] []]; intros H; try discriminate H; reflexivity.
Qed.

Lemma digit_number_char c : is_digit c = true -> number_char c = true.
Proof. unfold number_char. now intros ->. Qed.

Lemma span_digits_digits s : all_chars is_digit (fst (span_digits s)) = true.
Proof.
  induction s as [|c s IH]; simpl; [reflexivity|].
  destruct (is_digit c) eqn:E; [|reflexivity].
  destruct (span_digits s). simpl in *. now rewrite E.
Qed.

Lemma digits_number s :
  all_chars is_digit s = true -> all_chars number_char s = true.
Proof. apply all_chars_impl, digit_number_char. Qed.

Lemma span_integer_chars s ip r :
  span_integer s = Some (ip, r) -> all_chars number_char ip = true.
Proof.
  destruct s as [|c s]; [discriminate|]. simpl.
  destruct (byte_is c 48); [now intros [= <- _]|].
  destruct (is_digit c) eqn:E; [|discriminate].
  pose proof (span_digits_digits s) as H. destruct (span_digits s) as [d r'].
  intros [= <- _]. simpl in *. rewrite (digit_number_char _ E).
  now apply digits_number.
Qed.

Lemma span_fraction_chars s : all_chars number_char (fst (span_fraction s)) = true.
Proof.
  destruct s as [|c s]; [reflexivity|]. simpl.
  destruct (byte_is c 46) eqn:E; [|reflexivity].
  pose proof (span_digits_digits s) as H. destruct (span_digits s) as [[|d ds] r'];
    [reflexivity|].
  cbn [fst] in *. pose proof (digits_number _ H) as Hn.
  cbn [all_chars] in Hn |- *. rewrite Hn.
  unfold number_char. rewrite E. now rewrite !orb_true_r.
Qed.

Lemma span_exponent_chars s : all_chars number_char (fst (span_exponent s)) = true.
Proof.
  destruct s as [|c s]; [reflexivity|]. simpl.
  destruct (byte_is c 101 || byte_is c 69) eqn:E; [|reflexivity].
  assert (Hc : number_char c = true).
  { unfold number_char. apply orb_prop in E as [-> | ->]; now rewrite !orb_true_r. }
  destruct s as [|g s].
  - reflexivity.
  - destruct (byte_is g 45 || byte_is g 43) eqn:Eg.
    + pose proof (span_digits_digits s) as H.
      destruct (span_digits s) as [[|d ds] r']; [reflexivity|].
      cbn [fst] in *. cbn [all_chars String.append]. rewrite Hc.
      assert (Hg : number_char g = true).
      { unfold number_char. apply orb_prop in Eg as [-> | ->]; now rewrite !orb_true_r. }
      pose proof (digits_number _ H) as Hn.
      cbn [all_chars] in Hn |- *. now rewrite Hg, Hn.
    + pose proof (span_digits_digits (String g s)) as H.
      destruct (span_digits (String g s)) as [[|d ds] r']; [reflexivity|].
      cbn [fst] in *. cbn [all_chars String.append]. rewrite Hc.
      pose proof (digits_number _ H) as Hn.
      cbn [all_chars] in Hn |- *. now rewrite Hn.
Qed.

Lemma scan_unsigned_float_chars negative s r rest :
  scan_unsigned negative s = Some (PFloat r, rest) ->
  all_chars number_char r = true.
Proof.
  unfold scan_unsigned.
  destruct (span_integer s) as [[ip s2]|] eqn:Ei; [|discriminate].
  pose proof (span_fraction_chars s2) as Hf.
  destruct (span_fraction s2) as [frac s3].
  pose proof (span_exponent_chars s3) as He.
  destruct (span_exponent s3) as [exp s4].
  destruct (is_empty frac && is_empty exp).
  { destruct (int_of_digits ip); discriminate. }
  intros [= <- _]. cbn [fst] in *.
  rewrite !all_chars_app, (span_integer_chars _ _ _ Ei), Hf, He.
  now destruct negative.
Qed.

Lemma floatstr_not_cr r :
  float_literal r = true -> all_chars not_cr (floatstr r) = true.
Proof.
  unfold float_literal, floatstr. intros H.
  destruct (String.eqb r "nan") eqn:E0.
  { apply String.eqb_eq in E0 as ->. discriminate H. }
  destruct (String.eqb r "inf"); [reflexivity|].
  destruct (String.eqb r "-inf"); [reflexivity|].
  cbn [orb] in H.
  destruct (scan_number r) as [[[] []]|] eqn:Es; try discriminate H.
  apply String.eqb_eq in H as ->.
  apply (all_chars_impl number_char); [apply number_char_not_cr|].
  destruct r as [|c r]; [discriminate Es|]. cbn [scan_number] in Es.
  destruct (byte_is c 45); now apply scan_unsigned_float_chars in Es.
Qed.

Lemma int_repr_not_cr z : all_chars not_cr (int_repr z) = true.
Proof.
  assert (H : forall d, all_chars not_cr (NilZero.string_of_uint d) = true).
  { intros d. unfold NilZero.string_of_uint.
    destruct d; try reflexivity;
      apply (all_chars_impl is_digit);
      try (intros; now apply number_char_not_cr, digit_number_char);
      apply (digits_all_digits (_ d)). }
  unfold int_repr. destruct (Z.to_int z); simpl; now rewrite H.
Qed.

Lemma escape_not_cr s : all_chars not_cr (escape s) = true.
Proof.
  induction s as [|c s IH]; [reflexivity|].
  cbn [escape]. rewrite all_chars_app, IH, andb_true_r.
  destruct c as [[] [] [] [] [] [] [] []]; reflexivity.
Qed.

Lemma spaces_not_cr n : all_chars not_cr (spaces n) = true.
Proof. induction n; simpl; auto. Qed.

Lemma newline_indent_not_cr indent level :
  all_chars not_cr (newline_indent indent level) = true.
Proof. destruct indent; simpl; [apply spaces_not_cr|reflexivity]. Qed.

Lemma join_not_cr sep (chunks : list string) :
  all_chars not_cr sep = true ->
  Forall (fun x => all_chars not_cr x = true) chunks ->
  all_chars not_cr (join sep chunks) = true.
Proof.
  intros Hsep. induction 1 as [|x chunks Hx Hc IH]; [reflexivity|].
  destruct chunks as [|y chunks]; [exact Hx|].
  rewrite join_cons by discriminate.
  now rewrite !all_chars_app, Hx, Hsep, IH.
Qed.

Lemma bracket_not_cr indent level opening closing (chunks : list string) :
  all_chars not_cr opening = true -> all_chars not_cr closing = true ->
  Forall (fun x => all_chars not_cr x = true) chunks ->
  all_chars not_cr (bracket indent level opening closing chunks) = true.
Proof.
  intros Ho Hc Hchunks. unfold bracket. destruct chunks as [|x chunks].
  - now rewrite all_chars_app, Ho, Hc.
  - rewrite !all_chars_app, Ho, Hc, !newline_indent_not_cr, join_not_cr;
      [reflexivity| |exact Hchunks].
    unfold item_separator. destruct indent; [|reflexivity].
    rewrite all_chars_app. now rewrite newline_indent_not_cr.
Qed.

Lemma encode_not_cr indent v :
  json_safe v = true ->
  forall level, all_chars not_cr (encode indent level v) = true.
Proof.
  induction v as [|b|z|r|s|l IH|items IH] using pyval_induction;
    intros Hsafe level.
  - reflexivity.
  - destruct b; reflexivity.
  - apply int_repr_not_cr.
  - now apply floatstr_not_cr.
  - cbn [encode]. unfold encode_string. cbn [all_chars].
    now rewrite all_chars_app, escape_not_cr.
  - cbn [json_safe] in Hsafe. apply json_safe_list in Hsafe.
    pose proof (Forall_modus _ _ _ IH Hsafe) as Hall.
    cbn [encode]. apply bracket_not_cr; [reflexivity|reflexivity|].
    apply List.Forall_map. eapply List.Forall_impl; [|exact Hall].
    intros x Hx. apply Hx.
  - cbn [json_safe] in Hsafe. apply andb_prop in Hsafe as [Hkeys Hsafe].
    apply json_safe_items in Hsafe.
    pose proof (Forall_modus _ _ _ IH Hsafe) as Hall.
    cbn [encode]. apply bracket_not_cr; [reflexivity|reflexivity|].
    apply List.Forall_map. eapply List.Forall_impl; [|exact Hall].
    intros kv Hkv. unfold encode_string. rewrite !all_chars_app. cbn [all_chars].
    rewrite all_chars_app, escape_not_cr, Hkv. reflexivity.
Qed.


End JsonFacts.


(** ** Templates without markers *)

Module JinjaFacts.
Import Json JsonFacts Jinja.

Lemma normalize_newlines_id s :
  all_chars not_cr s = true -> normalize_newlines s = s.
Proof.
  induction s as [|c s IH]; [reflexivity|]. cbn [all_chars normalize_newlines].
  intros H. apply andb_prop in H as [Hc Hs]. unfold not_cr in Hc.
  apply negb_true_iff in Hc. rewrite Hc. now rewrite IH.
Qed.

Lemma contains_step needle c s :
  contains needle (String c s) = false ->
  strip_prefix needle (String c s) = None /\ contains needle s = false.
Proof.
  cbn [contains]. destruct (strip_prefix needle (String c s)); [discriminate|auto].
Qed.

(** A source with none of the opening delimiters is all literal text. *)
Lemma lex_plain context s :
  contains "{{" s = false -> contains "{%" s = false -> contains "{#" s = false ->
  lex context None s = Rendered s.
Proof.
  induction s as [|a r IH]; [reflexivity|]. intros H1 H2 H3.
  apply contains_step in H1 as [P1 H1].
  apply contains_step in H2 as [P2 H2].
  apply contains_step in H3 as [P3 H3].
  specialize (IH H1 H2 H3). cbn [lex].
  destruct (byte_is a 123) eqn:Ea; [|now rewrite IH].
  apply byte_is_eq in Ea as ->.
  destruct r as [|b r']; [now rewrite IH|].
  destruct (byte_is b 123) eqn:E1.
  { apply byte_is_eq in E1 as ->. discriminate P1. }
  destruct (byte_is b 37) eqn:E2.
  { apply byte_is_eq in E2 as ->. discriminate P2. }
  destruct (byte_is b 35) eqn:E3.
  { apply byte_is_eq in E3 as ->. discriminate P3. }
  now rewrite IH.
Qed.

End JinjaFacts.

(** ** Rendering *)




Lemma parse_yaml_rejects_blank_and_non_mapping_witness :
  Validators.parse_yaml (fun _ => Loaded (PList [PStr "a"])) "  "
  = (false, None, Some "Empty YAML content") /\
  Validators.parse_yaml (fun _ => Loaded (PList [PStr "a"])) "- a"
  = (false, None, Some "YAML must represent a dictionary/object").
Proof.
  split.
  - apply (proj1 (parse_yaml_rejects_blank_and_non_mapping
                    (fun _ => Loaded (PList [PStr "a"])) "  ")).
    exists [32%N; 32%N]. split; [|reflexivity].
    repeat constructor; vm_compute; tauto.
  - apply (proj2 (parse_yaml_rejects_blank_and_non_mapping
                    (fun _ => Loaded (PList [PStr "a"])) "- a")).
    + intros H. apply whitespace_only_strip in H. discriminate H.
    + left. exists (PList [PStr "a"]). split; reflexivity.
Defined.

(** * Further properties *)

(** ** The validator: errors, edge cases and the two schemas *)

Lemma pykey_eqb_eq a b : pykey_eqb a b = true <-> a = b.
Proof.
  destruct a, b; simpl; try (split; [discriminate|congruence]).
  - rewrite String.eqb_eq. split; congruence.
  - rewrite Z.eqb_eq. split; congruence.
  - destruct b0, b; simpl; split; congruence.
  - split; reflexivity.
  - rewrite String.eqb_eq. split; congruence.
Qed.

Lemma key_pattern_eqb_eq a b : key_pattern_eqb a b = true -> a = b.
Proof.
  destruct a as [s|[]], b as [t|[]]; simpl; try discriminate; try reflexivity.
  intros H. apply String.eqb_eq in H. congruence.
Qed.

Lemma dict_key_eqb_eq a b : dict_key_eqb a b = true -> a = b.
Proof.
  destruct a, b; simpl; try discriminate; intros H;
    apply key_pattern_eqb_eq in H; congruence.
Qed.

Lemma filter_nil_all {A} (f : A -> bool) l :
  filter f l = [] -> forall x, In x l -> f x = false.
Proof.
  induction l as [|a l IH]; simpl; intros H x Hx; [destruct Hx|].
  destruct (f a) eqn:E; [discriminate|].
  destruct Hx as [<-|Hx]; [exact E | now apply IH].
Qed.

(** When the loop over the items ends without an error, no item was found
    at fault by the schema key that took it. *)
Lemma check_items_clean skeys items :
  forall coverage new coverage' new',
    check_items skeys items coverage new = inr (coverage', new') ->
    forall k v sk r,
      In (k, v) items -> match_item skeys k v = Some (sk, r) -> r = None.
Proof.
  induction items as [|[k0 v0] items IH]; simpl;
    intros coverage new coverage' new' H k v sk r Hin Hm; [destruct Hin|].
  destruct Hin as [Heq|Hin].
  - injection Heq as -> ->. rewrite Hm in H. destruct r; [discriminate|reflexivity].
  - destruct (match_item skeys k0 v0) as [[sk0 [e|]]|]; [discriminate| |];
      eapply IH; eauto.
Qed.

(** A schema key of the final coverage was there at the start or took an
    item. *)
Lemma check_items_coverage skeys items :
  forall coverage new coverage' new',
    check_items skeys items coverage new = inr (coverage', new') ->
    forall sk, In sk coverage' ->
      In sk coverage \/
      exists k v, In (k, v) items /\ match_item skeys k v = Some (sk, None).
Proof.
  induction items as [|[k0 v0] items IH]; simpl;
    intros coverage new coverage' new' H sk Hsk.
  - injection H as <- _. now left.
  - destruct (match_item skeys k0 v0) as [[sk0 [e|]]|] eqn:Em; [discriminate| |].
    + destruct (IH _ _ _ _ H sk Hsk) as [[<-|Hc]|(k & v & Hin & Hm)].
      * right. exists k0, v0. split; [now left|exact Em].
      * now left.
      * right. exists k, v. split; [now right|exact Hm].
    + destruct (IH _ _ _ _ H sk Hsk) as [Hc|(k & v & Hin & Hm)]; [now left|].
      right. exists k, v. split; [now right|exact Hm].
Qed.

(** When the loop ends with as many new keys as there are items to come,
    every item was taken by a schema key and no key came twice. *)
Lemma check_items_full skeys items :
  forall coverage new coverage' new',
    check_items skeys items coverage new = inr (coverage', new') ->
    List.length new' = (List.length new + List.length items)%nat ->
    NoDup new ->
    NoDup (new ++ map fst items) /\
    Forall (fun kv => match_item skeys (fst kv) (snd kv) <> None) items.
Proof.
  induction items as [|[k v] items IH]; simpl;
    intros coverage new coverage' new' H Hlen Hnd.
  - rewrite List.app_nil_r. split; [exact Hnd|constructor].
  - destruct (match_item skeys k v) as [[sk [e|]]|] eqn:Em; [discriminate| |].
    + destruct (existsb (pykey_eqb k) new) eqn:Ex.
      * apply check_items_new_bound in H. lia.
      * assert (Hk : ~ In k new).
        { intros Hin. apply Bool.not_true_iff_false in Ex. apply Ex.
          apply List.existsb_exists. exists k. split; [exact Hin|].
          now apply pykey_eqb_eq. }
        apply IH in H as [H1 H2].
        -- rewrite <- List.app_assoc in H1. simpl in H1. split; [exact H1|].
           constructor; [|exact H2]. simpl. rewrite Em. discriminate.
        -- rewrite List.length_app. simpl. lia.
        -- apply List.NoDup_app; [exact Hnd|repeat constructor; intros []|].
           intros x Hx [<-|[]]. now apply Hk.
    + apply check_items_new_bound in H. lia.
Qed.

(** What it takes for a dict schema to accept a dict. *)
Lemma validate_dict_accepts entries items :
  validate_dict entries (PDict items) = None ->
  exists coverage new,
    check_items (sorted_by (fun e => dict_key_priority (fst e)) entries)
      (dicts_last items) [] [] = inr (coverage, new) /\
    (forall k, In k (map fst entries) -> is_optional k = false -> In k coverage) /\
    List.length new = List.length items.
Proof.
  unfold validate_dict.
  destruct (check_items _ (dicts_last items) [] []) as [e|[coverage new]];
    [discriminate|].
  destruct (filter _ (filter _ _)) eqn:Emiss; [|discriminate].
  destruct (List.length new =? List.length items)%nat eqn:El; [|discriminate].
  intros _. exists coverage, new. split; [reflexivity|]. split.
  - intros k Hk Hopt.
    assert (Hin : In k (filter (fun k => negb (is_optional k)) (map fst entries))).
    { apply List.filter_In. split; [exact Hk|]. now rewrite Hopt. }
    apply (filter_nil_all _ _ Emiss) in Hin.
    apply Bool.negb_false_iff, List.existsb_exists in Hin as (sk & Hsk & Heq).
    apply dict_key_eqb_eq in Heq. now subst.
  - now apply Nat.eqb_eq.
Qed.

Lemma validate_required d :
  validate REQUIRED_FIELDS_SCHEMA (PDict d) = validate_dict required_skeys (PDict d).
Proof. reflexivity. Qed.

Lemma required_skeys_sorted :
  sorted_by (fun e : dict_key * checker => dict_key_priority (fst e)) required_skeys
  = required_skeys.
Proof. reflexivity. Qed.

Lemma validate_database d :
  validate database_schema (PDict d) = validate_dict database_skeys (PDict d).
Proof. reflexivity. Qed.

Lemma database_skeys_sorted :
  sorted_by (fun e : dict_key * checker => dict_key_priority (fst e)) database_skeys
  = database_skeys.
Proof. reflexivity. Qed.

(** The first item under a [str] key is the one [dict_get] finds. *)
Lemma In_dict_has name v d : In (KStr name, v) d -> dict_has name d = true.
Proof.
  unfold dict_has. induction d as [|[k w] d IH]; simpl; intros Hin; [destruct Hin|].
  destruct (is_str_key name k) eqn:E; [reflexivity|].
  destruct Hin as [Heq|Hin]; [|now apply IH].
  injection Heq as -> ->. simpl in E. now rewrite String.eqb_refl in E.
Qed.

Lemma is_str_key_eq name k : is_str_key name k = true -> k = KStr name.
Proof.
  destruct k; simpl; try discriminate. intros H. apply String.eqb_eq in H. now subst.
Qed.

Lemma schema_outcome_caught d :
  exists errs,
    match validate_config_schema d with
    | Ok _ => Ok []
    | Raise (SchemaError m) => Ok [m]
    | Raise e => Raise e
    end = Ok errs /\
    (errs = [] /\ validate_config_schema d = Ok true \/
     exists e, errs = [ValidationError e]).
Proof.
  unfold validate_config_schema.
  destruct (validate REQUIRED_FIELDS_SCHEMA (PDict d)); [eauto 6|].
  destruct (dict_has "database" d); [|eauto 6].
  destruct (validate BASE_CONFIG_SCHEMA (PDict d)); eauto 6.
Qed.

Lemma validate_cases d :
  (exists valid errs,
     ConfigValidator_validate d = Ok (valid, errs) /\
     forall x, dict_get "database" d = Some x -> is_dict x = true) \/
  (exists x,
     dict_get "database" d = Some x /\ is_dict x = false /\
     ConfigValidator_validate d = Raise (AttributeError x "get")).
Proof.
  unfold ConfigValidator_validate, get_validation_errors.
  destruct (schema_outcome_caught d) as (errs & -> & _).
  destruct (dict_get "database" d) as [x|].
  - destruct x; try (right; eexists; repeat split; reflexivity).
    destruct (database_checks_extend items errs) as [more ->].
    left. do 2 eexists. split; [reflexivity|]. now intros x [= <-].
  - left. do 2 eexists. split; [reflexivity|]. discriminate.
Qed.

(** X1.  [ConfigValidator.validate] raises exactly when the document has a
    [database] entry that is not a mapping, and what it raises then is the
    [AttributeError] of calling [get] on that entry: the error list is never
    returned for such a document. *)
Theorem validate_raises_iff_database_not_mapping (config_data : pydict) (e : exn) :
  ConfigValidator_validate config_data = Raise e <->
  exists x, dict_get "database" config_data = Some x /\ is_dict x = false /\
            e = AttributeError x "get".
Proof.
  destruct (validate_cases config_data)
    as [(valid & errs & Hv & Hd)|(x & Hx & Hd & Hr)].
  - rewrite Hv. split; [discriminate|]. intros (x & Hx & Hn & _).
    rewrite (Hd x Hx) in Hn. discriminate.
  - rewrite Hr. split.
    + intros [= <-]. eauto.
    + intros (x' & Hx' & _ & ->). congruence.
Qed.

Lemma host_check v :
  negb (truthy v) || negb (isinstance v Tstr) = false <-> acceptable_host v.
Proof.
  unfold acceptable_host. destruct v; simpl;
    try (rewrite ?Bool.orb_true_r; split;
         [discriminate | intros (s & Hs & _); discriminate]).
  rewrite Bool.orb_false_r, Bool.negb_involutive. split.
  - intros H. exists s. split; [reflexivity|]. now apply String.eqb_neq.
  - intros (s' & [= <-] & Hs). now apply String.eqb_neq.
Qed.

Lemma port_check v :
  negb (isinstance v Tint) || negb (port_in_range v) = false <-> acceptable_port v.
Proof.
  unfold acceptable_port, port_in_range.
  destruct v as [|[]|z| | | |]; simpl;
    try (split; [discriminate | intros (n & Hn & _); discriminate]).
  - split; [intros _; exists 1; split; [reflexivity|lia] | reflexivity].
  - split; [discriminate | intros (n & [= <-] & Hn); lia].
  - rewrite Bool.negb_false_iff, Bool.andb_true_iff, !Z.leb_le. split.
    + intros H. exists z. split; [reflexivity|lia].
    + intros (n & [= <-] & Hn). lia.
Qed.

(** X2.  With a [database] mapping, the two fixed texts of the extra checks
    appear in the error list exactly when the host is not a non-empty text,
    and when the port is not an integer from 1 to 65535, an absent entry
    counting as [None]; whatever the schema has reported does not matter. *)
Theorem database_messages_iff (config_data db : pydict) (valid : bool)
    (errors : list message) :
  dict_get "database" config_data = Some (PDict db) ->
  ConfigValidator_validate config_data = Ok (valid, errors) ->
  (In host_message errors <-> ~ acceptable_host (get_or_none "host" db)) /\
  (In port_message errors <-> ~ acceptable_port (get_or_none "port" db)).
Proof.
  intros Hdb. unfold ConfigValidator_validate, get_validation_errors.
  destruct (schema_outcome_caught config_data) as (errs & -> & Hshape).
  rewrite Hdb. unfold database_checks, py_get.
  fold (get_or_none "host" db) (get_or_none "port" db).
  pose proof (host_check (get_or_none "host" db)) as Hh.
  pose proof (port_check (get_or_none "port" db)) as Hp.
  assert (Herrs : forall m, In (Text m) errs -> False).
  { intros m Hm. destruct Hshape as [[-> _]|[e ->]]; [destruct Hm|].
    destruct Hm as [Hm|[]]. discriminate. }
  unfold host_message, port_message in *.
  destruct (negb (truthy _) || negb (isinstance _ Tstr));
    destruct (negb (isinstance _ Tint) || negb (port_in_range _));
    intros [= <- <-]; rewrite ?List.in_app_iff; simpl; split; split;
    try (intros [H|H]); try (intros H);
    repeat match goal with
           | H : _ \/ _ |- _ => destruct H
           | H : In (Text _) errs |- _ => apply Herrs in H; destruct H
           | H : False |- _ => destruct H
           | H : Text _ = Text _ |- _ => discriminate H
           end;
    try (intros Hacc; apply Hh in Hacc; discriminate);
    try (intros Hacc; apply Hp in Hacc; discriminate);
    try (exfalso; apply H; apply Hh; reflexivity);
    try (exfalso; apply H; apply Hp; reflexivity);
    auto.
Qed.

Lemma database_messages_iff_witness :
  In port_message
     [ValidationError
        (KeyError (KStr "database")
           (KeyError (KStr "port") (NotTrue "<lambda>" (PInt 70000))));
      port_message].
Proof.
  apply (proj2 (proj2 (database_messages_iff
    [ (KStr "version", PInt 1);
      (KStr "database", PDict [(KStr "host", PStr "db"); (KStr "port", PInt 70000)]) ]
    [(KStr "host", PStr "db"); (KStr "port", PInt 70000)]
    false _ eq_refl eq_refl))).
  intros (n & Hn & Hr). injection Hn as <-. lia.
Defined.

Lemma dicts_last_Permutation d : Permutation (dicts_last d) d.
Proof.
  unfold dicts_last. induction d as [|[k v] d IH]; simpl; [constructor|].
  destruct (is_dict v); simpl.
  - symmetry. apply Permutation_cons_app. now symmetry.
  - now constructor.
Qed.

Lemma NoDup_dicts_last d : NoDup (map fst (dicts_last d)) <-> NoDup (map fst d).
Proof.
  assert (H : Permutation (map fst (dicts_last d)) (map fst d))
    by apply Permutation_map, dicts_last_Permutation.
  split; apply Permutation_NoDup; [exact H | now symmetry].
Qed.

Lemma type_check_int v : schema_type_check v Tint = true -> exists z, v = PInt z.
Proof. destruct v; try discriminate. eauto. Qed.

Lemma type_check_str_key k : schema_type_check (key_val k) Tstr = true -> exists s, k = KStr s.
Proof. destruct k; try discriminate. eauto. Qed.

Lemma match_item_required k v sk r :
  match_item required_skeys k v = Some (sk, r) ->
  (exists s, k = KStr s) /\
  (sk = Required (KeyLit "version") -> k = KStr "version").
Proof.
  unfold required_skeys. cbn [match_item key_matches key_pattern_of].
  destruct (is_str_key "version" k) eqn:E.
  - apply is_str_key_eq in E as ->. eauto.
  - destruct (schema_type_check (key_val k) Tstr) eqn:Et; [|discriminate].
    apply type_check_str_key in Et. intros [= <- _]. split; [exact Et|discriminate].
Qed.

(** A loop over items that are all taken without fault, under keys that
    are all new, ends with every key in [new] and every taker covered. *)
Lemma check_items_all_taken skeys items :
  Forall (fun kv => exists sk, match_item skeys (fst kv) (snd kv) = Some (sk, None)) items ->
  forall coverage new,
    NoDup (new ++ map fst items) ->
    exists coverage',
      check_items skeys items coverage new = inr (coverage', new ++ map fst items) /\
      (forall kv sk, In kv items ->
         match_item skeys (fst kv) (snd kv) = Some (sk, None) -> In sk coverage').
Proof.
  induction 1 as [|[k v] items [sk Hm] _ IH]; intros coverage new Hnd; simpl.
  - rewrite List.app_nil_r. eexists. split; [reflexivity|]. intros ? ? [].
  - simpl in Hm. rewrite Hm.
    assert (Ex : existsb (pykey_eqb k) new = false).
    { apply Bool.not_true_iff_false. intros Ex.
      apply List.existsb_exists in Ex as (k' & Hk' & Heq).
      apply pykey_eqb_eq in Heq as <-.
      apply List.NoDup_remove_2 in Hnd. apply Hnd, List.in_or_app. now left. }
    rewrite Ex.
    assert (Hnd' : NoDup ((new ++ [k]) ++ map fst items)).
    { rewrite <- List.app_assoc. exact Hnd. }
    destruct (IH (sk :: coverage) (new ++ [k]) Hnd') as (coverage' & Hloop & Hcov).
    rewrite <- List.app_assoc in Hloop. exists coverage'. split; [exact Hloop|].
    intros kv sk' [<-|Hin] Hm'.
    + simpl in Hm'. rewrite Hm in Hm'. injection Hm' as <-.
      clear - Hloop. revert Hloop. generalize (new ++ [k]) as n.
      generalize (new ++ [k] ++ map fst items) as n'.
      assert (Hin : In sk (sk :: coverage)) by now left.
      revert Hin. generalize (sk :: coverage) as c.
      induction items as [|[k1 v1] items IH]; simpl; intros c Hin n' n Hloop.
      * now injection Hloop as <- _.
      * destruct (match_item skeys k1 v1) as [[sk1 [e|]]|]; [discriminate| |].
        -- eapply IH; [|exact Hloop]. now right.
        -- eapply IH; [|exact Hloop]. exact Hin.
    + now apply (Hcov kv).
Qed.

Lemma required_fields_accepts d :
  validate REQUIRED_FIELDS_SCHEMA (PDict d) = None ->
  NoDup (map fst d) /\ str_keys d /\ exists z, dict_get "version" d = Some (PInt z).
Proof.
  rewrite validate_required. intros H.
  apply validate_dict_accepts in H as (coverage & new & Hloop & Hcov & Hlen).
  rewrite required_skeys_sorted in Hloop.
  pose proof (check_items_full _ _ _ _ _ _ Hloop) as Hfull.
  rewrite dicts_last_length in Hfull. specialize (Hfull Hlen (NoDup_nil _)).
  destruct Hfull as [Hnd Htaken]. simpl in Hnd. split; [|split].
  - apply NoDup_dicts_last, Hnd.
  - unfold str_keys. rewrite List.Forall_forall in *. intros kv Hkv.
    apply (proj1 (In_dicts_last _ _)) in Hkv. specialize (Htaken kv Hkv).
    destruct (match_item required_skeys (fst kv) (snd kv)) as [[sk r]|] eqn:Em;
      [|congruence].
    apply match_item_required in Em. apply Em.
  - specialize (Hcov (Required (KeyLit "version")) (or_introl eq_refl) eq_refl).
    destruct (check_items_coverage _ _ _ _ _ _ Hloop _ Hcov)
      as [[]|(k & v & Hin & Hm)].
    apply match_item_required in Hm as [_ Hk]. specialize (Hk eq_refl). subst k.
    apply (proj2 (In_dicts_last _ _)), In_dict_has in Hin. unfold dict_has in Hin.
    destruct (dict_get "version" d) as [v'|] eqn:Ev; [|discriminate].
    pose proof (dict_get_In _ _ _ Ev) as Hin'.
    apply (proj1 (In_dicts_last _ _)) in Hin'.
    assert (Hv : validate (SType Tint) v' = None).
    { eapply check_items_clean; [exact Hloop|exact Hin'|reflexivity]. }
    simpl in Hv. destruct (schema_type_check v' Tint) eqn:Et; [|discriminate].
    apply type_check_int in Et as [z ->]. eauto.
Qed.

Lemma In_unique_value name d v w :
  NoDup (map fst d) -> dict_get name d = Some v -> In (KStr name, w) d -> w = v.
Proof.
  intros Hnd Hget Hin. apply (dict_get_unique _ _ _ Hnd) in Hin. congruence.
Qed.

Lemma required_fields_accepted d z :
  NoDup (map fst d) -> str_keys d -> dict_get "version" d = Some (PInt z) ->
  validate REQUIRED_FIELDS_SCHEMA (PDict d) = None.
Proof.
  intros Hnd Hkeys Hv. rewrite validate_required. unfold validate_dict.
  rewrite required_skeys_sorted.
  assert (Htaken : Forall (fun kv => exists sk,
            match_item required_skeys (fst kv) (snd kv) = Some (sk, None))
            (dicts_last d)).
  { apply List.Forall_forall. intros [k v] Hin.
    apply (proj2 (In_dicts_last _ _)) in Hin.
    unfold str_keys in Hkeys. rewrite List.Forall_forall in Hkeys.
    destruct (Hkeys _ Hin) as [s Hs]. simpl in Hs. subst k.
    unfold required_skeys. cbn [match_item key_matches key_pattern_of fst snd].
    destruct (is_str_key "version" (KStr s)) eqn:E.
    - apply is_str_key_eq in E. injection E as ->.
      rewrite (In_unique_value _ _ _ _ Hnd Hv Hin). eexists. reflexivity.
    - change (schema_type_check (key_val (KStr s)) Tstr) with true. cbn iota.
      change (validate (SType Tobject) v)
        with (if schema_type_check v Tobject then None else Some (WrongType v Tobject)).
      rewrite object_accepts. eauto. }
  destruct (check_items_all_taken _ _ Htaken [] [])
    as (coverage & Hloop & Hcov).
  { simpl. apply NoDup_dicts_last, Hnd. }
  rewrite Hloop.
  assert (Hin : In (Required (KeyLit "version")) coverage).
  { apply (Hcov (KStr "version", PInt z)).
    - apply (proj1 (In_dicts_last _ _)), dict_get_In, Hv.
    - reflexivity. }
  cbn [map fst required_skeys filter is_optional negb].
  assert (Ex : existsb (dict_key_eqb (Required (KeyLit "version"))) coverage = true).
  { apply List.existsb_exists. eexists. split; [exact Hin|reflexivity]. }
  rewrite Ex. cbn [negb]. simpl List.app.
  rewrite List.length_map, dicts_last_length, Nat.eqb_refl. reflexivity.
Qed.

(** X3.  [validate_required_fields] answers [True] exactly for the
    documents whose keys are texts, no two alike, and whose [version] is an
    integer that is not a [bool]: the sign of the version is not looked
    at. *)
Theorem required_fields_characterised (config_data : pydict) :
  validate_required_fields config_data = true <->
  NoDup (map fst config_data) /\ str_keys config_data /\
  exists z, dict_get "version" config_data = Some (PInt z).
Proof.
  unfold validate_required_fields. split.
  - destruct (validate REQUIRED_FIELDS_SCHEMA (PDict config_data)) eqn:E;
      [discriminate|]. intros _. now apply required_fields_accepts.
  - intros (Hnd & Hkeys & z & Hv).
    now rewrite (required_fields_accepted _ _ Hnd Hkeys Hv).
Qed.

(** X4.  Without a [database] entry the validator checks the required
    fields only: the document is valid exactly when its keys are distinct
    texts and its [version] an integer, so that a zero or negative version
    and any [features] entry are accepted. *)
Theorem without_database_valid_iff (config_data : pydict) :
  dict_get "database" config_data = None ->
  (ConfigValidator_validate config_data = Ok (true, []) <->
   NoDup (map fst config_data) /\ str_keys config_data /\
   exists z, dict_get "version" config_data = Some (PInt z)).
Proof.
  intros Hdb. rewrite <- required_fields_characterised.
  unfold ConfigValidator_validate, get_validation_errors, validate_config_schema,
    validate_required_fields, dict_has.
  rewrite Hdb.
  destruct (validate REQUIRED_FIELDS_SCHEMA (PDict config_data)); simpl;
    split; congruence.
Qed.

Lemma without_database_valid_iff_witness :
  ConfigValidator_validate
    [(KStr "version", PInt (-3)); (KStr "features", PList [PNone])]
  = Ok (true, []).
Proof.
  apply (proj2 (without_database_valid_iff
    [(KStr "version", PInt (-3)); (KStr "features", PList [PNone])] eq_refl)).
  split; [|split].
  - repeat constructor; simpl; intuition discriminate.
  - repeat constructor; simpl; eauto.
  - exists (-3). reflexivity.
Defined.

Lemma valid_means_schema_passed d errs :
  ConfigValidator_validate d = Ok (true, errs) ->
  errs = [] /\ validate_config_schema d = Ok true.
Proof.
  unfold ConfigValidator_validate, get_validation_errors.
  destruct (schema_outcome_caught d) as (errs0 & -> & Hshape).
  assert (Hgoal : forall more,
            Ok (A := bool * list message)
               ((List.length (errs0 ++ more) =? 0)%nat, errs0 ++ more) = Ok (true, errs) ->
            errs = [] /\ validate_config_schema d = Ok true).
  { intros more [= Hlen <-]. apply Nat.eqb_eq, List.length_zero_iff_nil in Hlen.
    split; [exact Hlen|]. apply List.app_eq_nil in Hlen as [-> _].
    destruct Hshape as [[_ H]|[e He]]; [exact H|discriminate]. }
  destruct (dict_get "database" d) as [x|].
  - destruct x; try discriminate.
    destruct (database_checks_extend items errs0) as [more ->]. apply Hgoal.
  - rewrite <- (List.app_nil_r errs0). apply Hgoal.
Qed.

Lemma schema_passed d :
  validate_config_schema d = Ok true ->
  validate REQUIRED_FIELDS_SCHEMA (PDict d) = None /\
  (dict_has "database" d = true -> validate BASE_CONFIG_SCHEMA (PDict d) = None).
Proof.
  unfold validate_config_schema.
  destruct (validate REQUIRED_FIELDS_SCHEMA (PDict d)); [discriminate|].
  destruct (dict_has "database" d); [|split; [reflexivity|discriminate]].
  destruct (validate BASE_CONFIG_SCHEMA (PDict d)); [discriminate|]. now split.
Qed.

Lemma version_schema_accepts v :
  validate version_schema v = None -> exists z, v = PInt z /\ 0 < z.
Proof.
  destruct v; try discriminate. cbn. destruct (0 <? z) eqn:E; [|discriminate].
  intros _. exists z. split; [reflexivity|]. now apply Z.ltb_lt.
Qed.

Lemma match_item_database k v sk :
  match_item database_skeys k v = Some (sk, None) ->
  (sk = Required (KeyLit "host") -> k = KStr "host") /\
  (sk = Required (KeyLit "port") -> k = KStr "port").
Proof.
  unfold database_skeys. cbn [match_item key_matches key_pattern_of].
  destruct (is_str_key "host" k) eqn:Eh.
  - apply is_str_key_eq in Eh as ->. intros [= <- _]. split; [reflexivity|discriminate].
  - destruct (is_str_key "port" k) eqn:Ep; [|discriminate].
    apply is_str_key_eq in Ep as ->. intros [= <- _]. split; [discriminate|reflexivity].
Qed.

Lemma database_schema_accepts x :
  validate database_schema x = None ->
  exists db, x = PDict db /\ dict_has "host" db = true /\ dict_has "port" db = true.
Proof.
  destruct x; try discriminate. rewrite validate_database. intros H.
  apply validate_dict_accepts in H as (coverage & new & Hloop & Hcov & _).
  rewrite database_skeys_sorted in Hloop.
  exists items. split; [reflexivity|]. split.
  - specialize (Hcov (Required (KeyLit "host")) (or_introl eq_refl) eq_refl).
    destruct (check_items_coverage _ _ _ _ _ _ Hloop _ Hcov)
      as [[]|(k & v & Hin & Hm)].
    apply match_item_database in Hm as [Hk _]. rewrite (Hk eq_refl) in Hin.
    apply (proj2 (In_dicts_last _ _)), In_dict_has in Hin. exact Hin.
  - specialize (Hcov (Required (KeyLit "port")) (or_intror (or_introl eq_refl)) eq_refl).
    destruct (check_items_coverage _ _ _ _ _ _ Hloop _ Hcov)
      as [[]|(k & v & Hin & Hm)].
    apply match_item_database in Hm as [_ Hk]. rewrite (Hk eq_refl) in Hin.
    apply (proj2 (In_dicts_last _ _)), In_dict_has in Hin. exact Hin.
Qed.

(** What the full schema has checked of a document it accepts. *)
Lemma base_schema_accepts d :
  validate BASE_CONFIG_SCHEMA (PDict d) = None ->
  (forall v, dict_get "version" d = Some v -> exists z, v = PInt z /\ 0 < z) /\
  (forall x, dict_get "database" d = Some x ->
     exists db, x = PDict db /\ dict_has "host" db = true /\ dict_has "port" db = true).
Proof.
  rewrite validate_base. intros H.
  apply validate_dict_accepts in H as (coverage & new & Hloop & _ & _).
  rewrite base_skeys_sorted in Hloop. split.
  - intros v Hv. apply dict_get_In, (proj1 (In_dicts_last _ _)) in Hv.
    apply version_schema_accepts.
    eapply check_items_clean; [exact Hloop|exact Hv|reflexivity].
  - intros x Hx. apply dict_get_In, (proj1 (In_dicts_last _ _)) in Hx.
    apply database_schema_accepts.
    eapply check_items_clean; [exact Hloop|exact Hx|reflexivity].
Qed.

(** X5.  On a document the validator accepts, [check_required_fields] has
    nothing to report exactly when the version is at least 1; with a
    [database] entry that is always so, the full schema having been
    applied. *)
Theorem accepted_document_required_fields (config_data : pydict)
    (errors : list message) :
  ConfigValidator_validate config_data = Ok (true, errors) ->
  (ConfigurationValidator.check_required_fields config_data = [] <->
   exists z, dict_get "version" config_data = Some (PInt z) /\ 1 <= z) /\
  (dict_has "database" config_data = true ->
   ConfigurationValidator.check_required_fields config_data = []).
Proof.
  intros Hvalid. apply valid_means_schema_passed in Hvalid as [_ Hschema].
  apply schema_passed in Hschema as [Hreq Hbase].
  apply required_fields_accepts in Hreq as (_ & _ & z & Hz).
  unfold ConfigurationValidator.check_required_fields. rewrite Hz.
  cbn [isinstance negb orb int_value]. unfold dict_has in *.
  destruct (dict_get "database" config_data) as [x|] eqn:Ex.
  - specialize (Hbase eq_refl). apply base_schema_accepts in Hbase as [Hv Hdb].
    destruct (Hv _ Hz) as (z' & [= <-] & Hpos).
    destruct (Hdb _ Ex) as (db & -> & Hhost & Hport).
    unfold dict_has. unfold dict_has in Hhost, Hport.
    destruct (dict_get "host" db); [|discriminate].
    destruct (dict_get "port" db); [|discriminate].
    destruct (z <? 1) eqn:E; [apply Z.ltb_lt in E; lia|].
    split; [|reflexivity]. split; [|reflexivity].
    intros _. exists z. split; [reflexivity|lia].
  - split; [|discriminate]. destruct (z <? 1) eqn:E.
    + apply Z.ltb_lt in E. split; [discriminate|].
      intros (z' & [= <-] & Hz'). lia.
    + apply Z.ltb_ge in E. split; [|reflexivity].
      intros _. exists z. split; [reflexivity|lia].
Qed.

Lemma accepted_document_required_fields_witness :
  ConfigurationValidator.check_required_fields cfg_valid = [].
Proof.
  apply (proj2 (accepted_document_required_fields cfg_valid [] eq_refl)).
  reflexivity.
Defined.

Lemma host_schema_accepts h :
  validate (SAnd [SType Tstr; SCall "len" len_nonzero]) h = None -> acceptable_host h.
Proof.
  destruct h; try discriminate. cbn.
  destruct (String.eqb s "") eqn:E; [discriminate|]. intros _.
  exists s. split; [reflexivity|]. now apply String.eqb_neq.
Qed.

Lemma port_schema_accepts p :
  validate (SAnd [SType Tint; SCall "<lambda>" port_in_range]) p = None ->
  acceptable_port p.
Proof.
  destruct p; try discriminate. cbn.
  destruct ((1 <=? z) && (z <=? 65535)) eqn:E; [|discriminate]. intros _.
  apply Bool.andb_true_iff in E as [H1 H2]. apply Z.leb_le in H1, H2.
  exists z. split; [reflexivity|lia].
Qed.

(** The values the [database] schema has let pass are those the extra
    checks look for. *)
Lemma database_values_accepted db :
  validate database_schema (PDict db) = None ->
  acceptable_host (get_or_none "host" db) /\ acceptable_port (get_or_none "port" db).
Proof.
  intros H.
  destruct (database_schema_accepts _ H) as (db' & [= <-] & Hhost & Hport).
  rewrite validate_database in H.
  apply validate_dict_accepts in H as (coverage & new & Hloop & _ & _).
  rewrite database_skeys_sorted in Hloop.
  unfold dict_has in Hhost, Hport. unfold get_or_none. split.
  - destruct (dict_get "host" db) as [h|] eqn:E; [|discriminate].
    apply dict_get_In, (proj1 (In_dicts_last _ _)) in E.
    apply host_schema_accepts.
    eapply check_items_clean; [exact Hloop|exact E|reflexivity].
  - destruct (dict_get "port" db) as [p|] eqn:E; [|discriminate].
    apply dict_get_In, (proj1 (In_dicts_last _ _)) in E.
    apply port_schema_accepts.
    eapply check_items_clean; [exact Hloop|exact E|reflexivity].
Qed.

(** X6.  The validator accepts exactly what the schema check accepts: the
    extra checks on the [database] section never add a message to a
    document that has passed the schema, whose rules for host and port
    imply theirs. *)
Theorem validator_accepts_what_schema_accepts (config_data : pydict) :
  ConfigValidator_validate config_data = Ok (true, []) <->
  validate_config_schema config_data = Ok true.
Proof.
  split; [apply valid_means_schema_passed|]. intros Hschema.
  unfold ConfigValidator_validate, get_validation_errors. rewrite Hschema.
  destruct (dict_get "database" config_data) as [x|] eqn:Ex; [|reflexivity].
  apply schema_passed in Hschema as [_ Hbase].
  unfold dict_has in Hbase. rewrite Ex in Hbase.
  specialize (Hbase eq_refl). rewrite validate_base in Hbase.
  apply validate_dict_accepts in Hbase as (coverage & new & Hloop & _ & _).
  rewrite base_skeys_sorted in Hloop.
  apply dict_get_In, (proj1 (In_dicts_last _ _)) in Ex.
  assert (Hx : validate database_schema x = None).
  { eapply check_items_clean; [exact Hloop|exact Ex|reflexivity]. }
  destruct (database_schema_accepts _ Hx) as (db & -> & _).
  apply database_values_accepted in Hx as [Hh Hp].
  unfold database_checks, py_get. fold (get_or_none "host" db) (get_or_none "port" db).
  apply host_check in Hh. apply port_check in Hp. now rewrite Hh, Hp.
Qed.

(** ** Parsing and validating a YAML text *)

Lemma blank_iff text :
  is_empty text || is_empty (strip text) = true <-> whitespace_only text.
Proof.
  split.
  - intros H. apply Bool.orb_true_iff in H as [H|H].
    + apply is_empty_eq in H as ->. exists []. split; [constructor|reflexivity].
    + apply strip_empty_whitespace_only, is_empty_eq, H.
  - intros H. apply whitespace_only_strip in H. rewrite H.
    apply Bool.orb_true_r.
Qed.

Section Parsing.
Variable safe_load : string -> yaml_outcome.

Lemma parse_yaml_cases text :
  (exists d, ~ whitespace_only text /\ safe_load text = Loaded (PDict d) /\
             Validators.parse_yaml safe_load text = (true, Some d, None)) \/
  (exists msg, msg <> "" /\
     (whitespace_only text \/ forall d, safe_load text <> Loaded (PDict d)) /\
     Validators.parse_yaml safe_load text = (false, None, Some msg)).
Proof.
  unfold Validators.parse_yaml. pose proof (blank_iff text) as Hb.
  destruct (is_empty text || is_empty (strip text)).
  - right. eexists. split; [|split; [|reflexivity]];
      [discriminate | left; now apply Hb].
  - assert (Hn : ~ whitespace_only text).
    { intros H. apply Hb in H. discriminate. }
    destruct (safe_load text) as [v| | | |]; [destruct v|..];
      first [ left; eexists; repeat split; [exact Hn]
            | right; eexists; (split; [|split; [|reflexivity]]);
              [discriminate | right; discriminate] ].
Qed.

(** X7.  [parse_yaml] succeeds exactly on a text that is not blank and that
    the loader turns into a mapping, which it then returns; every other
    text gets the failure flag, no document and a message that is not
    empty. *)
Theorem parse_yaml_outcomes (yaml_content : string) :
  (forall d,
     Validators.parse_yaml safe_load yaml_content = (true, Some d, None) <->
     ~ whitespace_only yaml_content /\ safe_load yaml_content = Loaded (PDict d)) /\
  ((exists d, Validators.parse_yaml safe_load yaml_content = (true, Some d, None)) \/
   (exists msg, msg <> "" /\
      Validators.parse_yaml safe_load yaml_content = (false, None, Some msg))).
Proof.
  destruct (parse_yaml_cases yaml_content)
    as [(d & Hn & Hl & Hp)|(msg & Hmsg & Hwhy & Hp)]; rewrite Hp.
  - split; [|left; eauto].
    intros d'. split.
    + intros [= <-]. now split.
    + intros [_ Hl']. rewrite Hl in Hl'. now injection Hl' as <-.
  - split; [|right; eauto].
    intros d. split; [discriminate|]. intros [Hn Hl].
    destruct Hwhy as [Hw|Hw]; [now apply Hn in Hw | now apply Hw in Hl].
Qed.

(** X8.  What [validate_config] returns holds together: the flag is true
    exactly when the error list is empty; a text that does not parse gives
    no document and the one message of the parser, the schema being left
    alone; a text that parses comes back as the loaded document, with the
    verdict of the validator on it. *)
Theorem validate_config_outcomes (yaml_content : string) (valid : bool)
    (doc : option pydict) (errors : list message) :
  YAMLValidator.validate_config safe_load yaml_content = inr (valid, doc, errors) ->
  (valid = true <-> errors = []) /\
  (YAMLValidator.quick_yaml_check safe_load yaml_content = false ->
   valid = false /\ doc = None /\ exists msg, msg <> "" /\ errors = [Text msg]) /\
  (YAMLValidator.quick_yaml_check safe_load yaml_content = true ->
   exists d, doc = Some d /\ safe_load yaml_content = Loaded (PDict d) /\
             ConfigValidator_validate d = Ok (valid, errors)).
Proof.
  unfold YAMLValidator.validate_config, YAMLValidator.quick_yaml_check.
  destruct (parse_yaml_cases yaml_content)
    as [(d & _ & Hl & ->)|(msg & Hmsg & _ & ->)]; cbn [fst].
  - destruct (ConfigValidator_validate d) as [[v errs]|e] eqn:Ev; [|discriminate].
    intros [= <- <- <-]. split; [|split; [discriminate|]].
    + unfold ConfigValidator_validate in Ev.
      destruct (get_validation_errors d); [|discriminate].
      injection Ev as <- <-. rewrite Nat.eqb_eq. apply List.length_zero_iff_nil.
    + intros _. exists d. auto.
  - destruct msg as [|c msg]; [contradiction|]. cbn [is_empty].
    intros [= <- <- <-]. split; [|split; [|discriminate]].
    + split; discriminate.
    + intros _. split; [reflexivity|]. split; [reflexivity|].
      eexists. split; [|reflexivity]. discriminate.
Qed.

(** X9.  [validate_config] lets an exception out exactly for a text that
    parses to a mapping whose [database] entry is not a mapping; it is the
    [AttributeError] of the extra checks.  The branch that would test
    membership in [None] is never taken. *)
Theorem validate_config_raises_iff (yaml_content : string) (e : raised) :
  YAMLValidator.validate_config safe_load yaml_content = inl e <->
  exists d x,
    ~ whitespace_only yaml_content /\ safe_load yaml_content = Loaded (PDict d) /\
    dict_get "database" d = Some x /\ is_dict x = false /\
    e = Exn (AttributeError x "get").
Proof.
  unfold YAMLValidator.validate_config.
  destruct (parse_yaml_cases yaml_content)
    as [(d & Hn & Hl & ->)|(msg & Hmsg & Hwhy & ->)].
  - destruct (validate_cases d) as [(valid & errs & -> & Hd)|(x & Hx & Hd & ->)].
    + split; [discriminate|]. intros (d' & x & _ & Hl' & Hx & Hn' & _).
      rewrite Hl in Hl'. injection Hl' as <-.
      rewrite (Hd x Hx) in Hn'. discriminate.
    + split.
      * intros [= <-]. exists d, x. auto.
      * intros (d' & x' & _ & Hl' & Hx' & _ & ->).
        rewrite Hl in Hl'. injection Hl' as <-. congruence.
  - split; [discriminate|]. intros (d & x & Hn & Hl & _).
    destruct Hwhy as [Hw|Hw]; [now apply Hn in Hw | now apply Hw in Hl].
Qed.

End Parsing.

Lemma validate_config_outcomes_witness :
  ConfigValidator_validate [(KStr "version", PInt 0); (KStr "database", PDict [])]
  = Ok (false,
        [ ValidationError
            (KeyError (KStr "version") (NotTrue "<lambda>" (PInt 0)));
          host_message; port_message ]).
Proof.
  destruct (proj2 (proj2 (validate_config_outcomes
    (fun _ => Loaded (PDict [(KStr "version", PInt 0); (KStr "database", PDict [])]))
    "version: 0" false _ _ eq_refl)) eq_refl) as (d & [= <-] & _ & H).
  exact H.
Defined.

(** ** The store: a save and the reads that follow *)

(** The shape of every save the model covers. *)
Lemma save_shape db now s doc m db' :
  Db.save_configuration db now s doc = Some (m, db') ->
  exists v p,
    m = Db.model_of_row (saved_row db now s v p) /\
    db' = {| Db.rows := Db.rows db ++ [saved_row db now s v p];
             Db.next_id := Db.next_id db + 1 |} /\
    (no_version doc /\ v = Db.select_max_version db s + 1 /\
     p = dict_set "version" (PInt v) doc
     \/ dict_get "version" doc = Some (PInt v) /\ p = doc).
Proof.
  unfold Db.save_configuration, no_version, get_or_none.
  destruct (dict_get "version" doc) as [v|] eqn:Ev.
  - destruct v; try discriminate.
    + intros [= <- <-]. do 2 eexists. split; [reflexivity|]. split; [reflexivity|].
      left. repeat split.
    + intros [= <- <-]. do 2 eexists. split; [reflexivity|]. split; [reflexivity|].
      right. split; reflexivity.
  - intros [= <- <-]. do 2 eexists. split; [reflexivity|]. split; [reflexivity|].
    left. repeat split.
Qed.

Lemma save_without_version db now s doc :
  no_version doc ->
  let v := Db.select_max_version db s + 1 in
  let p := dict_set "version" (PInt v) doc in
  Db.save_configuration db now s doc
  = Some (Db.model_of_row (saved_row db now s v p),
          {| Db.rows := Db.rows db ++ [saved_row db now s v p];
             Db.next_id := Db.next_id db + 1 |}).
Proof.
  unfold Db.save_configuration, no_version, get_or_none.
  destruct (dict_get "version" doc) as [v|]; [|reflexivity].
  destruct v; try discriminate. reflexivity.
Qed.

Lemma insert_above r t l :
  (forall x, In x l -> Db.row_version x < Db.row_version r) ->
  fold_right Db.insert_desc (r :: t) l = r :: fold_right Db.insert_desc t l.
Proof.
  induction l as [|x l IH]; intros H; [reflexivity|]. simpl.
  rewrite IH by (intros y Hy; apply H; now right). simpl.
  assert (Hx : Db.row_version x < Db.row_version r) by (apply H; now left).
  apply Z.leb_gt in Hx. now rewrite Hx.
Qed.

(** A row above all others goes to the head of the ordered result. *)
Lemma order_by_new_top r l :
  (forall x, In x l -> Db.row_version x < Db.row_version r) ->
  Db.order_by_version_desc (l ++ [r]) = r :: Db.order_by_version_desc l.
Proof.
  intros H. unfold Db.order_by_version_desc. rewrite List.fold_right_app. simpl.
  now apply insert_above.
Qed.

Lemma filter_snoc {A} (f : A -> bool) l x :
  filter f (l ++ [x]) = filter f l ++ (if f x then [x] else []).
Proof. rewrite List.filter_app. reflexivity. Qed.

Lemma of_service_refl db now s v p : Db.of_service s (saved_row db now s v p) = true.
Proof. apply String.eqb_refl. Qed.

Lemma of_service_other db now s s' v p :
  s' <> s -> Db.of_service s' (saved_row db now s v p) = false.
Proof. intros H. apply String.eqb_neq. simpl. congruence. Qed.

Lemma below_next db s x :
  In x (filter (Db.of_service s) (Db.rows db)) ->
  Db.row_version x < Db.select_max_version db s + 1.
Proof.
  intros Hx. apply filter_service_In in Hx as [Hin Hs].
  destruct (proj2 (select_max_version_spec db s) x Hin Hs) as [Hle _]. lia.
Qed.





(** X12.  A save touches nothing but its own service and version: every
    read of another service, be it of a version, of the latest record or of
    the history, and every read of another version of the same service,
    returns what it returned before. *)
Theorem save_preserves_other_reads (db db' : Db.backend) (now s : string)
    (doc : pydict) (m : Db.ConfigurationModel) :
  Db.save_configuration db now s doc = Some (m, db') ->
  (forall s', s' <> s ->
     (forall version, Db.get_configuration db' s' version
                      = Db.get_configuration db s' version) /\
     Db.get_configuration_history db' s' = Db.get_configuration_history db s' /\
     Db.select_max_version db' s' = Db.select_max_version db s') /\
  (forall v, Db.version m <> PInt v ->
     Db.get_configuration db' s (Some v) = Db.get_configuration db s (Some v)).
Proof.
  intros Hsave. apply save_shape in Hsave as (v & p & -> & -> & _). split.
  - intros s' Hs'.
    assert (Hf : filter (Db.of_service s') (Db.rows db ++ [saved_row db now s v p])
                 = filter (Db.of_service s') (Db.rows db)).
    { rewrite filter_snoc, of_service_other by exact Hs'. apply List.app_nil_r. }
    split; [|split].
    + intros [v'|]; unfold Db.get_configuration; cbn [Db.rows]; [|now rewrite Hf].
      rewrite filter_snoc, of_service_other by exact Hs'.
      now rewrite List.app_nil_r.
    + unfold Db.get_configuration_history. cbn [Db.rows]. now rewrite Hf.
    + unfold Db.select_max_version. cbn [Db.rows]. now rewrite Hf.
  - intros v' Hv'. unfold Db.get_configuration. cbn [Db.rows].
    rewrite filter_snoc. cbn [saved_row Db.row_version].
    assert (E : (v =? v') = false).
    { apply Z.eqb_neq. intros ->. now apply Hv'. }
    rewrite E, Bool.andb_false_r. now rewrite List.app_nil_r.
Qed.

Lemma save_preserves_other_reads_witness :
  Db.get_configuration_history
    {| Db.rows := Db.rows two_services ++
         [saved_row two_services "t4" "billing" 7 [(KStr "version", PInt 7)]];
       Db.next_id := 5 |} "auth"
  = Db.get_configuration_history two_services "auth".
Proof.
  destruct (save_preserves_other_reads two_services _ "t4" "billing"
              [(KStr "version", PInt 7)] _ eq_refl) as [H _].
  destruct (H "auth") as (_ & Hh & _); [discriminate|exact Hh].
Defined.

Lemma select_max_after_save db now s v p :
  (forall x, In x (filter (Db.of_service s) (Db.rows db)) -> Db.row_version x < v) ->
  Db.select_max_version
    {| Db.rows := Db.rows db ++ [saved_row db now s v p];
       Db.next_id := Db.next_id db + 1 |} s = v.
Proof.
  intros Hlt. unfold Db.select_max_version. cbn [Db.rows].
  rewrite filter_snoc, of_service_refl, List.map_app. simpl map at 2.
  assert (Hvs : forall x, In x (map Db.row_version (filter (Db.of_service s) (Db.rows db)))
                          -> x < v).
  { intros x Hx. apply List.in_map_iff in Hx as (r & <- & Hr). now apply Hlt. }
  destruct (map Db.row_version (filter (Db.of_service s) (Db.rows db))) as [|v0 vs];
    [reflexivity|].
  simpl. rewrite List.fold_left_app. simpl.
  pose proof (fold_max_In vs v0) as Hin. apply Hvs in Hin. lia.
Qed.

(** X13.  Documents without a version, saved one after the other for one
    service, get the versions that follow the former maximum without a gap:
    [max + 1], [max + 2], ... (1, 2, ... for a new service), and the maximum
    ends that many higher. *)
Theorem successive_saves_count_up (s : string) (docs : list (string * pydict)) :
  Forall (fun d => no_version (snd d)) docs ->
  forall db,
  exists ms db',
    save_each db s docs = Some (ms, db') /\
    map Db.version ms
    = map (fun i => PInt (Db.select_max_version db s + Z.of_nat i))
          (seq 1 (List.length docs)) /\
    Db.select_max_version db' s
    = Db.select_max_version db s + Z.of_nat (List.length docs).
Proof.
  induction 1 as [|[now doc] docs Hdoc _ IH]; intros db.
  - exists [], db. split; [reflexivity|]. split; [reflexivity|]. simpl. lia.
  - cbn [save_each]. cbn [snd] in Hdoc.
    rewrite (save_without_version db now s doc Hdoc). cbn zeta.
    set (v := Db.select_max_version db s + 1).
    set (db1 := {| Db.rows := _; Db.next_id := _ |}).
    destruct (IH db1) as (ms & db' & -> & Hvs & Hmax).
    assert (H1 : Db.select_max_version db1 s = v).
    { apply select_max_after_save. apply below_next. }
    rewrite H1 in Hvs, Hmax.
    do 2 eexists. split; [reflexivity|]. split.
    + cbn [map List.length seq].
      rewrite Hvs, <- (List.seq_shift _ 1), List.map_map.
      apply (f_equal2 cons).
      * unfold v. reflexivity.
      * apply List.map_ext. intros i. unfold v. f_equal. lia.
    + rewrite Hmax. unfold v. cbn [List.length]. lia.
Qed.

Lemma successive_saves_count_up_witness :
  exists ms db',
    save_each empty_backend "auth"
      [("t1", [(KStr "a", PInt 1)]); ("t2", []); ("t3", [(KStr "version", PNone)])]
    = Some (ms, db') /\
    map Db.version ms = [PInt 1; PInt 2; PInt 3].
Proof.
  destruct (successive_saves_count_up "auth"
      [("t1", [(KStr "a", PInt 1)]); ("t2", []); ("t3", [(KStr "version", PNone)])])
    with (db := empty_backend) as (ms & db' & Hs & Hv & _).
  - repeat constructor.
  - exists ms, db'. split; [exact Hs|exact Hv].
Defined.

Lemma insert_desc_Permutation x l : Permutation (Db.insert_desc x l) (x :: l).
Proof.
  induction l as [|y l IH]; simpl; [reflexivity|].
  destruct (Db.row_version y <=? Db.row_version x); [reflexivity|].
  rewrite IH. apply perm_swap.
Qed.

Lemma order_by_Permutation l : Permutation (Db.order_by_version_desc l) l.
Proof.
  induction l as [|x l IH]; simpl; [constructor|].
  rewrite insert_desc_Permutation. now constructor.
Qed.

(** X14.  The history of a service lists every stored row of the service
    once, and nothing else: its versions are the versions of these rows up
    to order, one entry per row, a version stored twice coming twice. *)
Theorem history_lists_every_row (db : Db.backend) (s : string) :
  Permutation
    (map Db.item_version (Db.get_configuration_history db s))
    (map Db.row_version (filter (Db.of_service s) (Db.rows db))) /\
  List.length (Db.get_configuration_history db s)
  = List.length (filter (Db.of_service s) (Db.rows db)).
Proof.
  unfold Db.get_configuration_history. rewrite List.map_map. cbn [Db.item_version].
  split.
  - apply Permutation_map, order_by_Permutation.
  - rewrite List.length_map. apply Permutation_length, order_by_Permutation.
Qed.

(** ** The handlers: creation and retrieval *)

Lemma save_with_version db now s doc z :
  dict_get "version" doc = Some (PInt z) ->
  Db.save_configuration db now s doc
  = Some (Db.model_of_row (saved_row db now s z doc),
          {| Db.rows := Db.rows db ++ [saved_row db now s z doc];
             Db.next_id := Db.next_id db + 1 |}).
Proof. intros H. unfold Db.save_configuration. now rewrite H. Qed.

Lemma valid_has_version d errs :
  ConfigValidator_validate d = Ok (true, errs) ->
  errs = [] /\ exists z, dict_get "version" d = Some (PInt z).
Proof.
  intros H. apply valid_means_schema_passed in H as [-> H]. split; [reflexivity|].
  apply schema_passed in H as [H _]. now apply required_fields_accepts in H.
Qed.

(** A template without delimiters renders to itself in every context. *)
Lemma render_plain config_data context :
  json_safe (PDict config_data) = true ->
  no_delimiters (Json.dumps (Some 2%nat) (PDict config_data)) ->
  Renderer.render_config_template config_data context = Some (Ok (PDict config_data)).
Proof.
  intros Hsafe (H1 & H2 & H3). unfold Renderer.render_config_template, Jinja.render.
  rewrite JinjaFacts.normalize_newlines_id
    by (apply JsonFacts.encode_not_cr, Hsafe).
  rewrite (JinjaFacts.lex_plain _ _ H1 H2 H3).
  now rewrite (JsonFacts.loads_dumps _ _ Hsafe).
Qed.

Lemma get_configuration_none db s version :
  Db.get_configuration db s version = None <->
  forall r, In r (Db.rows db) -> ~ row_matches s version r.
Proof.
  unfold Db.get_configuration, row_matches. destruct version as [v|].
  - set (hit := fun r => Db.of_service s r && (Db.row_version r =? v)).
    assert (Hhit : forall r, hit r = true <-> Db.row_service r = s /\ Db.row_version r = v).
    { intros r. unfold hit, Db.of_service.
      now rewrite Bool.andb_true_iff, String.eqb_eq, Z.eqb_eq. }
    destruct (filter hit (Db.rows db)) as [|r rest] eqn:E.
    + split; [|reflexivity]. intros _ r Hr Hm. apply Hhit in Hm.
      assert (Hin : In r (filter hit (Db.rows db)))
        by (apply List.filter_In; now split).
      rewrite E in Hin. destruct Hin.
    + split; [discriminate|]. intros H. exfalso.
      assert (Hin : In r (filter hit (Db.rows db))) by (rewrite E; now left).
      apply List.filter_In in Hin as [Hin Hr]. apply (H r Hin), Hhit, Hr.
  - destruct (filter (Db.of_service s) (Db.rows db)) as [|r rest] eqn:E.
    + split; [|reflexivity]. intros _ r Hr [Hs _].
      assert (Hin : In r (filter (Db.of_service s) (Db.rows db)))
        by (apply (proj2 (filter_service_In _ _ _)); now split).
      rewrite E in Hin. destruct Hin.
    + assert (Hin : In r (filter (Db.of_service s) (Db.rows db)))
        by (rewrite E; now left).
      apply (proj1 (filter_service_In _ _ _)) in Hin as [Hin Hs].
      assert (Hne : Db.order_by_version_desc (r :: rest) <> []).
      { intros Hnil. pose proof (order_by_Permutation (r :: rest)) as Hp.
        rewrite Hnil in Hp. now apply Permutation_nil in Hp. }
      destruct (Db.order_by_version_desc (r :: rest)); [contradiction|].
      split; [discriminate|]. intros H. exfalso. now apply (H r Hin).
Qed.

Section Handling.
Variable safe_load : string -> yaml_outcome.
Variable schema_error_text : schema_error -> string.
Variable exception_text : raised -> string.

Local Abbreviation create_configuration :=
  (ConfigurationHandler.create_configuration safe_load schema_error_text exception_text).
Local Abbreviation get_configuration :=
  (ConfigurationHandler.get_configuration exception_text).

(** The cases of a creation. *)
Lemma create_configuration_cases db now s text :
  (exists e, YAMLValidator.validate_config safe_load text = inl e /\
     create_configuration db now s text
     = Some (ConfigurationHandler.internal_error exception_text e, db)) \/
  (exists doc errors,
     YAMLValidator.validate_config safe_load text = inr (false, doc, errors) /\
     exists body,
       create_configuration db now s text
       = Some ({| Handlers.data := None; Handlers.error := Some body;
                  Handlers.status_code := 422 |}, db)) \/
  (exists d z,
     YAMLValidator.validate_config safe_load text = inr (true, Some d, []) /\
     ~ whitespace_only text /\ safe_load text = Loaded (PDict d) /\
     ConfigValidator_validate d = Ok (true, []) /\
     dict_get "version" d = Some (PInt z) /\
     create_configuration db now s text
     = Some ({| Handlers.data := Some (saved_body s z); Handlers.error := None;
                Handlers.status_code := 201 |},
             {| Db.rows := Db.rows db ++ [saved_row db now s z d];
                Db.next_id := Db.next_id db + 1 |})).
Proof.
  unfold ConfigurationHandler.create_configuration, YAMLValidator.validate_config.
  destruct (parse_yaml_cases safe_load text)
    as [(d & Hn & Hl & ->)|(msg & Hmsg & _ & ->)].
  - destruct (ConfigValidator_validate d) as [[[] errs]|e] eqn:Ev.
    + right. right. apply valid_has_version in Ev as Hv. destruct Hv as [-> [z Hz]].
      exists d, z. rewrite (save_with_version db now s d z Hz).
      repeat split; assumption.
    + right. left. do 2 eexists. split; [reflexivity|]. eexists. reflexivity.
    + left. eexists. split; reflexivity.
  - right. left. do 2 eexists. split; [reflexivity|]. eexists. reflexivity.
Qed.




(** X18.  A retrieval is answered 404 exactly when the table has no row of
    the service, or none of the version asked for; 400 only when rendering
    was asked for; 200 otherwise.  The 404 text names the version unless it
    is 0. *)
Theorem get_configuration_answers (db : Db.backend) (s : string)
    (version : option Z) (use_template : bool) (params : gmap string pyval)
    (resp : Handlers.ApiResponse) :
  get_configuration db s version use_template params = Some resp ->
  (Handlers.status_code resp = 404 <->
   forall r, In r (Db.rows db) -> ~ row_matches s version r) /\
  (Handlers.status_code resp = 404 \/
   Handlers.status_code resp = 200 \/
   Handlers.status_code resp = 400 /\ use_template = true) /\
  (Handlers.status_code resp = 404 ->
   Handlers.error resp
   = Some ("Configuration not found for service '" +:+ s +:+ "'"
           +:+ match version with
               | Some 0 | None => ""
               | Some v => " version " +:+ Json.int_repr v
               end)).
Proof.
  unfold ConfigurationHandler.get_configuration.
  pose proof (get_configuration_none db s version) as Hnone.
  destruct (Db.get_configuration db s version) as [m|].
  - assert (Hrow : ~ forall r, In r (Db.rows db) -> ~ row_matches s version r).
    { intros H. apply Hnone in H. discriminate. }
    destruct use_template.
    + destruct (Renderer.process_template_request _ _) as [[v|e]|]; [| |discriminate];
        intros [= <-]; cbn [Handlers.status_code];
        (split; [split; [discriminate|contradiction]|]); split; auto; discriminate.
    + intros [= <-]; cbn [Handlers.status_code].
      (split; [split; [discriminate|contradiction]|]); split; auto; discriminate.
  - intros [= <-]. cbn [Handlers.status_code Handlers.error].
    split; [split; [intros _; now apply Hnone|reflexivity]|].
    split; [now left|]. intros _. destruct version as [[|p|p]|]; reflexivity.
Qed.


End Handling.

(** ** The body of a response and the filters *)





(** ** The history handler *)

(** X22.  A history request is answered 200 exactly when the table has a
    row of the service; the data is then a list with one
    [{version, created_at}] entry for each such row. *)
Theorem history_found_iff (db : Db.backend) (s : string) :
  (Handlers.status_code (Handlers.get_configuration_history db s) = 200 <->
   exists r, In r (Db.rows db) /\ Db.row_service r = s) /\
  (Handlers.status_code (Handlers.get_configuration_history db s) = 200 ->
   exists items,
     Handlers.data (Handlers.get_configuration_history db s) = Some (PList items) /\
     items = map Db.item_to_dict (Db.get_configuration_history db s) /\
     List.length items = List.length (filter (Db.of_service s) (Db.rows db))).
Proof.
  assert (Hlen : List.length (Db.get_configuration_history db s)
                 = List.length (filter (Db.of_service s) (Db.rows db))).
  { unfold Db.get_configuration_history. rewrite List.length_map.
    apply Permutation_length, order_by_Permutation. }
  unfold Handlers.get_configuration_history.
  destruct (Db.get_configuration_history db s) as [|item rest] eqn:E;
    cbn [Handlers.status_code Handlers.data].
  - split; [|discriminate]. split; [discriminate|].
    intros (r & Hr & Hs). exfalso.
    assert (Hin : In r (filter (Db.of_service s) (Db.rows db)))
      by (apply (proj2 (filter_service_In _ _ _)); now split).
    destruct (filter (Db.of_service s) (Db.rows db)); [destruct Hin|discriminate].
  - split.
    + split; [|reflexivity]. intros _.
      destruct (filter (Db.of_service s) (Db.rows db)) as [|r l] eqn:Ef;
        [discriminate|].
      assert (Hin : In r (filter (Db.of_service s) (Db.rows db)))
        by (rewrite Ef; now left).
      apply (proj1 (filter_service_In _ _ _)) in Hin. eauto.
    + intros _. eexists. split; [reflexivity|]. split; [reflexivity|].
      now rewrite List.length_map.
Qed.

(** ** The resource: what a request hands over *)

(** X23.  The parameters [version] and [template] of a request never reach
    a template: they are not among the parameters of the template, and not
    in the context the renderer gets, where every other parameter of the
    request is found as it was given. *)
Theorem reserved_parameters_stay_out (params : gmap string pyval) :
  (forall k, k = "version" \/ k = "template" ->
     Resources.template_params_of params !! k = None /\
     Renderer.merged_context (Resources.template_params_of params) !! k = None) /\
  (forall k v, k <> "version" -> k <> "template" -> params !! k = Some v ->
     Resources.template_params_of params !! k = Some v /\
     Renderer.merged_context (Resources.template_params_of params) !! k = Some v).
Proof.
  unfold Resources.template_params_of. split.
  - intros k Hk.
    assert (Hout : base.filter
              (fun kv : string * pyval => fst kv <> "version" /\ fst kv <> "template")
              params !! k = None).
    { apply map_lookup_filter_None. right. intros x _ [H1 H2].
      destruct Hk; contradiction. }
    split; [exact Hout|].
    unfold Renderer.merged_context. rewrite lookup_union, Hout.
    rewrite (default_context_untouched _ _ Hout).
    destruct Hk as [-> | ->]; reflexivity.
  - intros k v H1 H2 Hk.
    assert (Hin : base.filter
              (fun kv : string * pyval => fst kv <> "version" /\ fst kv <> "template")
              params !! k = Some v).
    { apply map_lookup_filter_Some. split; [exact Hk|]. now split. }
    split; [exact Hin|].
    unfold Renderer.merged_context. rewrite lookup_union, Hin.
    now destruct (Renderer.default_context _ !! k).
Qed.

Lemma reserved_parameters_stay_out_witness :
  Renderer.merged_context
    (Resources.template_params_of
       (Resources.parse_query_params
          (<["user" := ["bob"]]> (<["version" := ["2"]]> ∅)))) !! "user"
  = Some (PStr "bob").
Proof.
  apply (proj2 (reserved_parameters_stay_out _) "user" (PStr "bob"));
    [discriminate|discriminate|].
  unfold Resources.parse_query_params. rewrite lookup_fmap.
  now rewrite lookup_insert_eq.
Defined.

Lemma strip_blank_iff s : is_empty (strip s) = true <-> whitespace_only s.
Proof.
  split.
  - intros H. apply strip_empty_whitespace_only, is_empty_eq, H.
  - intros H. now rewrite (whitespace_only_strip _ H).
Qed.

Section Posting.
Variable safe_load : string -> yaml_outcome.
Variable schema_error_text : schema_error -> string.
Variable exception_text : raised -> string.


End Posting.

(** ** Examples of the handler theorems *)



Lemma get_configuration_answers_witness :
  exists resp,
    ConfigurationHandler.get_configuration example_exception_text two_services
      "auth" (Some 0) false ∅ = Some resp /\
    Handlers.error resp = Some "Configuration not found for service 'auth'".
Proof.
  eexists. split; [reflexivity|].
  apply (proj2 (proj2 (get_configuration_answers example_exception_text
                         two_services "auth" (Some 0) false ∅ _ eq_refl))).
  reflexivity.
Defined.


(** ** What the table holds *)

Section Serving.
Variable safe_load : string -> yaml_outcome.
Variable schema_error_text : schema_error -> string.
Variable exception_text : raised -> string.


End Serving.


(** X26.  Rendering is switched on exactly by a [template] parameter given
    once with the value [1]: any other value, and the same parameter given
    twice, leave it off. *)
Theorem template_switch_iff (args : gmap string (list string)) :
  Resources.use_template (Resources.parse_query_params args) = true <->
  args !! "template" = Some ["1"].
Proof.
  unfold Resources.use_template, Resources.parse_query_params.
  rewrite lookup_fmap.
  destruct (args !! "template") as [[|v [|w l]]|]; simpl;
    try (split; [discriminate|intros [=]]).
  rewrite String.eqb_eq. split; [now intros ->|now intros [= ->]].
Qed.

(** ** The probe for template syntax *)

Section Openers.
Variable c : ascii.
Hypothesis second : c = "{"%char \/ c = "%"%char.

Lemma contains_opener_cons a r :
  contains (opener c) (String a r)
  = Ascii.eqb "{" a && starts_with c r || contains (opener c) r.
Proof.
  unfold opener. cbn [contains strip_prefix].
  destruct (Ascii.eqb "{" a); [|reflexivity].
  destruct r as [|b r]; [reflexivity|]. cbn [starts_with strip_prefix andb orb].
  destruct (Ascii.eqb c b); reflexivity.
Qed.

Lemma contains_opener_empty : contains (opener c) "" = false.
Proof. reflexivity. Qed.

Lemma starts_with_app a b :
  starts_with c (a +:+ b) = if is_empty a then starts_with c b else starts_with c a.
Proof. destruct a; reflexivity. Qed.

Lemma ends_with_brace_app a b :
  ends_with_brace (a +:+ b) = if is_empty b then ends_with_brace a else ends_with_brace b.
Proof.
  induction a as [|x a IH]; [now destruct b|].
  destruct b as [|y b]; [now rewrite append_empty_r|].
  cbn [String.append is_empty ends_with_brace] in *.
  destruct a as [|z a]; [reflexivity|]. exact IH.
Qed.

(** An opener in a text of two parts is in one of them or across the
    seam. *)
Lemma contains_opener_app a b :
  contains (opener c) (a +:+ b)
  = contains (opener c) a || contains (opener c) b
    || ends_with_brace a && starts_with c b.
Proof.
  induction a as [|x a IH]; [cbn [String.append]; now rewrite contains_opener_empty, orb_false_r|].
  cbn [String.append]. rewrite !contains_opener_cons, IH, starts_with_app.
  destruct a as [|y a].
  - cbn [is_empty ends_with_brace starts_with]. rewrite contains_opener_empty.
    destruct (Ascii.eqb "{" x), (starts_with c b), (contains (opener c) b); reflexivity.
  - cbn [is_empty]. change (ends_with_brace (String x (String y a)))
      with (ends_with_brace (String y a)).
    destruct (Ascii.eqb "{" x), (starts_with c (String y a)),
      (contains (opener c) (String y a)), (contains (opener c) b),
      (ends_with_brace (String y a)), (starts_with c b); reflexivity.
Qed.

Lemma no_opener_char_first a :
  no_opener_char a = true -> Ascii.eqb "{" a = false /\ Ascii.eqb c a = false.
Proof.
  intros H. destruct second as [-> | ->];
    destruct a as [[] [] [] [] [] [] [] []]; try discriminate H; split; reflexivity.
Qed.

(** A text without braces and percent signs holds no opener and makes none
    with its neighbours. *)
Lemma plain_text s :
  all_chars no_opener_char s = true ->
  contains (opener c) s = false /\ ends_with_brace s = false /\ starts_with c s = false.
Proof.
  induction s as [|a s IH]; [now repeat split|].
  cbn [all_chars]. intros H. apply andb_prop in H as [Ha Hs].
  destruct (IH Hs) as (H1 & H2 & H3).
  destruct (no_opener_char_first a Ha) as [Hb Hc].
  rewrite contains_opener_cons, Hb, H1. cbn [starts_with]. rewrite Hc.
  repeat split. destruct s; [exact Hb|exact H2].
Qed.

Lemma closed_text_app_r a b : closed_text b -> closed_text (a +:+ b).
Proof.
  intros [H1 H2]. split.
  - destruct a; [exact H1|reflexivity].
  - now rewrite ends_with_brace_app, H1.
Qed.

(** Chunks joined by a separator without braces hold the openers of the
    chunks and no other. *)
Lemma join_openers sep (chunks : list string) :
  all_chars no_opener_char sep = true -> is_empty sep = false ->
  Forall closed_text chunks ->
  contains (opener c) (Json.join sep chunks) = existsb (contains (opener c)) chunks /\
  (chunks <> [] -> closed_text (Json.join sep chunks)) /\
  starts_with c (Json.join sep chunks)
  = match chunks with [] => false | x :: _ => starts_with c x end.
Proof.
  intros Hsep Hne. destruct (plain_text sep Hsep) as (S1 & S2 & S3).
  induction 1 as [|x chunks Hx Hc IH]; [split; [reflexivity|split; [intros H; now destruct H|reflexivity]]|].
  destruct chunks as [|y chunks].
  - cbn [Json.join existsb]. rewrite orb_false_r.
    split; [reflexivity|split; [intros _; exact Hx|reflexivity]].
  - rewrite JsonFacts.join_cons by discriminate.
    destruct IH as (I1 & I2 & I3). specialize (I2 ltac:(discriminate)).
    destruct Hx as [X1 X2]. split; [|split].
    + rewrite !contains_opener_app, I1, S1, X2, S2. cbn [andb orb].
      now rewrite ?orb_false_r.
    + intros _. now apply closed_text_app_r, closed_text_app_r.
    + now rewrite starts_with_app, X1.
Qed.

Lemma newline_indent_plain indent level :
  all_chars no_opener_char (Json.newline_indent indent level) = true.
Proof.
  destruct indent as [n|]; [|reflexivity]. simpl.
  induction (n * level)%nat; simpl; auto.
Qed.

Lemma item_separator_plain indent level :
  all_chars no_opener_char (Json.item_separator indent level) = true /\
  is_empty (Json.item_separator indent level) = false.
Proof.
  unfold Json.item_separator. destruct indent; [|now split].
  split; [|reflexivity]. rewrite JsonFacts.all_chars_app.
  now rewrite newline_indent_plain.
Qed.

(** The openers of a bracketed text are those of its chunks, when the
    chunks of an object do not begin with the second character. *)
Lemma bracket_openers indent level opening closing (chunks : list string) :
  (opening = "[" /\ closing = "]" \/
   opening = "{" /\ closing = "}" /\
   Forall (fun x => starts_with c x = false) chunks) ->
  Forall closed_text chunks ->
  contains (opener c) (Json.bracket indent level opening closing chunks)
  = existsb (contains (opener c)) chunks /\
  closed_text (Json.bracket indent level opening closing chunks).
Proof.
  intros Hshape Hclosed. unfold Json.bracket.
  destruct chunks as [|x chunks].
  { destruct Hshape as [[-> ->]|(-> & -> & _)]; destruct second as [-> | ->];
      repeat split. }
  destruct (item_separator_plain indent (S level)) as [Hs1 Hs2].
  destruct (join_openers _ (x :: chunks) Hs1 Hs2 Hclosed) as (J1 & J2 & J3).
  specialize (J2 ltac:(discriminate)). destruct J2 as [J2 J2'].
  set (J := Json.join (Json.item_separator indent (S level)) (x :: chunks)) in *.
  destruct (plain_text _ (newline_indent_plain indent (S level))) as (N1 & N2 & N3).
  destruct (plain_text _ (newline_indent_plain indent level)) as (M1 & M2 & M3).
  assert (Htail : forall closing', closing' = "]" \/ closing' = "}" ->
            contains (opener c)
              (J +:+ Json.newline_indent indent level +:+ closing')
            = existsb (contains (opener c)) (x :: chunks) /\
            closed_text (J +:+ Json.newline_indent indent level +:+ closing')).
  { intros closing' Hc'.
    assert (Hcl : contains (opener c) closing' = false /\
                  starts_with c closing' = false /\ closed_text closing').
    { destruct Hc' as [-> | ->]; destruct second as [-> | ->]; repeat split. }
    destruct Hcl as (C1 & C2 & C3). split.
    - rewrite !contains_opener_app, J1, M1, C1, J2', M2. cbn [andb orb].
      now rewrite ?orb_false_r.
    - now apply closed_text_app_r, closed_text_app_r. }
  assert (Hstart : starts_with c
             (Json.newline_indent indent (S level) +:+ J
              +:+ Json.newline_indent indent level +:+ closing) = true ->
           starts_with c x = true).
  { rewrite starts_with_app.
    destruct (is_empty (Json.newline_indent indent (S level))); [|congruence].
    rewrite starts_with_app, J2, J3. auto. }
  destruct Hshape as [[-> ->]|(-> & -> & Hfirst)].
  - destruct (Htail "]" (or_introl eq_refl)) as [T1 T2]. split.
    + rewrite (contains_opener_app "["). change (contains (opener c) "[") with false.
      change (ends_with_brace "[") with false. cbn [andb orb].
      rewrite contains_opener_app, N1, T1, N2. cbn [andb orb].
      now rewrite ?orb_false_r.
    + apply (closed_text_app_r "["), closed_text_app_r, T2.
  - destruct (Htail "}" (or_intror eq_refl)) as [T1 T2].
    inversion Hfirst as [|? ? Hx _]; subst. split.
    + rewrite (contains_opener_app "{"). change (contains (opener c) "{") with false.
      destruct (starts_with c (Json.newline_indent indent (S level) +:+ J
                 +:+ Json.newline_indent indent level +:+ "}")) eqn:E.
      { specialize (Hstart eq_refl). congruence. }
      rewrite andb_false_r. cbn [orb].
      rewrite contains_opener_app, N1, T1, N2. cbn [andb orb].
      now rewrite ?orb_false_r.
    + apply (closed_text_app_r "{"), closed_text_app_r, T2.
Qed.

Lemma number_char_plain a : number_char a = true -> no_opener_char a = true.
Proof.
  destruct a as [[] [] [] [] [] [] [] []]; intros H; try discriminate H; reflexivity.
Qed.

Lemma int_repr_plain z : all_chars no_opener_char (Json.int_repr z) = true.
Proof.
  assert (H : forall d, all_chars no_opener_char (NilZero.string_of_uint d) = true).
  { intros d. unfold NilZero.string_of_uint.
    destruct d; try reflexivity;
      apply (JsonFacts.all_chars_impl Json.is_digit);
      try (intros; now apply number_char_plain, JsonFacts.digit_number_char);
      apply (JsonFacts.digits_all_digits (_ d)). }
  unfold Json.int_repr. destruct (Z.to_int z); simpl; now rewrite H.
Qed.

Lemma floatstr_plain r :
  float_literal r = true -> all_chars no_opener_char (Json.floatstr r) = true.
Proof.
  unfold float_literal, Json.floatstr. intros H.
  destruct (String.eqb r "nan") eqn:E0.
  { apply String.eqb_eq in E0 as ->. discriminate H. }
  destruct (String.eqb r "inf"); [reflexivity|].
  destruct (String.eqb r "-inf"); [reflexivity|].
  cbn [orb] in H.
  destruct (Json.scan_number r) as [[[] []]|] eqn:Es; try discriminate H.
  apply String.eqb_eq in H as ->.
  apply (JsonFacts.all_chars_impl number_char); [apply number_char_plain|].
  destruct r as [|a r]; [discriminate Es|]. cbn [Json.scan_number] in Es.
  destruct (byte_is a 45); now apply JsonFacts.scan_unsigned_float_chars in Es.
Qed.

Lemma plain_closed s :
  all_chars no_opener_char s = true -> is_empty s = false -> closed_text s.
Proof. intros H Hne. split; [exact Hne|]. apply (plain_text s H). Qed.

Lemma value_not_empty s : value_head s -> is_empty s = false.
Proof. destruct s; [intros []|reflexivity]. Qed.

Lemma encode_string_openers s :
  contains (opener c) (Json.encode_string s) = contains (opener c) (Json.escape s) /\
  closed_text (Json.encode_string s) /\
  starts_with c (Json.encode_string s) = false.
Proof.
  unfold Json.encode_string. split; [|split].
  - rewrite contains_opener_cons. change (Ascii.eqb "{" Json.dq) with false.
    cbn [andb orb]. rewrite contains_opener_app.
    assert (H : starts_with c (String Json.dq "") = false)
      by (destruct second as [-> | ->]; reflexivity).
    rewrite H, andb_false_r. change (contains (opener c) (String Json.dq "")) with
      (Ascii.eqb "{" Json.dq && starts_with c "" || contains (opener c) "").
    now rewrite ?orb_false_r.
  - apply (closed_text_app_r (String Json.dq "")), closed_text_app_r. now split.
  - destruct second as [-> | ->]; reflexivity.
Qed.

Lemma existsb_map_ext {A B} (p : B -> bool) (f g : A -> B) l :
  Forall (fun x => p (f x) = p (g x)) l ->
  existsb p (map f l) = existsb p (map g l).
Proof. induction 1 as [|x l Hx _ IH]; simpl; [reflexivity|]. now rewrite Hx, IH. Qed.

(** The text of a document holds the same openers with and without an
    indent. *)
Lemma encode_openers v :
  json_safe v = true ->
  (forall n level level',
     contains (opener c) (Json.encode None level v)
     = contains (opener c) (Json.encode (Some n) level' v)) /\
  (forall indent level, closed_text (Json.encode indent level v)).
Proof.
  induction v as [|b|z|r|s|l IH|items IH] using JsonFacts.pyval_induction;
    intros Hsafe.
  - split; [reflexivity|]. intros; now split.
  - split; [reflexivity|]. intros; destruct b; now split.
  - split; [reflexivity|]. intros. apply plain_closed; [apply int_repr_plain|].
    apply value_not_empty, (JsonFacts.encode_head indent level (PInt z) eq_refl).
  - split; [reflexivity|]. intros. apply plain_closed; [now apply floatstr_plain|].
    apply value_not_empty, (JsonFacts.encode_head indent level (PFloat r) Hsafe).
  - split; [reflexivity|]. intros. apply encode_string_openers.
  - cbn [json_safe] in Hsafe. apply JsonFacts.json_safe_list in Hsafe.
    pose proof (JsonFacts.Forall_modus _ _ _ IH Hsafe) as Hall.
    assert (Hclosed : forall indent level,
              Forall closed_text (map (Json.encode indent level) l)).
    { intros indent level. apply List.Forall_map.
      eapply List.Forall_impl; [|exact Hall]. intros x [_ Hx]. apply Hx. }
    split.
    + intros n level level'. cbn [Json.encode].
      rewrite (proj1 (bracket_openers None level "[" "]" _
                        (or_introl (conj eq_refl eq_refl)) (Hclosed _ _))).
      rewrite (proj1 (bracket_openers (Some n) level' "[" "]" _
                        (or_introl (conj eq_refl eq_refl)) (Hclosed _ _))).
      apply existsb_map_ext.
      eapply List.Forall_impl; [|exact Hall]. intros x [Hx _]. apply Hx.
    + intros indent level. cbn [Json.encode].
      apply bracket_openers; [now left|apply Hclosed].
  - cbn [json_safe] in Hsafe. apply andb_prop in Hsafe as [_ Hsafe].
    apply JsonFacts.json_safe_items in Hsafe.
    pose proof (JsonFacts.Forall_modus _ _ _ IH Hsafe) as Hall.
    set (chunk := fun indent level (kv : pykey * pyval) =>
           Json.encode_string (Json.key_text (fst kv)) +:+ ": "
           +:+ Json.encode indent level (snd kv)).
    assert (Hclosed : forall indent level, Forall closed_text (map (chunk indent level) items)).
    { intros indent level. apply List.Forall_map.
      eapply List.Forall_impl; [|exact Hall]. intros kv [_ Hkv].
      unfold chunk. apply closed_text_app_r, closed_text_app_r, Hkv. }
    assert (Hfirst : forall indent level,
              Forall (fun x => starts_with c x = false) (map (chunk indent level) items)).
    { intros indent level. apply List.Forall_map, List.Forall_forall.
      intros kv _. unfold chunk. rewrite starts_with_app.
      destruct (encode_string_openers (Json.key_text (fst kv))) as (_ & [-> _] & H).
      exact H. }
    split.
    + intros n level level'. cbn [Json.encode]. fold (chunk None (S level)).
      fold (chunk (Some n) (S level')).
      rewrite (proj1 (bracket_openers None level "{" "}" _
                        (or_intror (conj eq_refl (conj eq_refl (Hfirst _ _))))
                        (Hclosed _ _))).
      rewrite (proj1 (bracket_openers (Some n) level' "{" "}" _
                        (or_intror (conj eq_refl (conj eq_refl (Hfirst _ _))))
                        (Hclosed _ _))).
      apply existsb_map_ext.
      eapply List.Forall_impl; [|exact Hall]. intros kv [Hkv _].
      unfold chunk. rewrite !contains_opener_app, (Hkv n (S level) (S level')).
      reflexivity.
    + intros indent level. cbn [Json.encode]. fold (chunk indent (S level)).
      apply bracket_openers; [right; auto|apply Hclosed].
Qed.

End Openers.


